(** * scriptworker: artifact transfer pipeline and task lifecycle

    A shallow embedding of [scriptworker/artifacts.py] and of the parts of
    the worker lifecycle exercised by [scriptworker/test/test_worker.py].

    Conventions
    - Python [str] is [string]; [bytes] is [list Byte.byte].
    - Python [dict]s keyed by strings are [gmap string _].
    - Raising is modelled by the [result] sum: [Ok v] or [Raise e].
    - The filesystem and the trace of I/O calls are explicit state,
      threaded through the functions that touch them; the queue client,
      the HTTP session and the download function are computations over
      that state, supplied by the caller. *)

From Stdlib Require Import Strings.String Strings.Ascii Strings.Byte.
From Stdlib Require Import Lists.List Bool.Bool Arith.PeanoNat ZArith.ZArith Lia.
From Stdlib Require Import Sorting.Permutation Numbers.DecimalString.
From stdpp Require Import base option list gmap strings fin_maps.

Local Open Scope string_scope.
Local Open Scope list_scope.

(** ** Python string primitives *)

Module PyStr.

(** [s.startswith(pre)] *)
Definition startswith (s pre : string) : bool := String.prefix pre s.

(** [s.endswith(suf)]: [s] is [suf], or the tail of [s] ends with [suf]. *)
Fixpoint endswith (s suf : string) : bool :=
  String.eqb s suf ||
  match s with
  | EmptyString => false
  | String _ s' => endswith s' suf
  end.

(** [s.split("/")]: never empty, [''.split('/') == ['']]. *)
Fixpoint split_slash (s : string) : list string :=
  match s with
  | EmptyString => [EmptyString]
  | String c s' =>
      if Ascii.eqb c "/"%char then EmptyString :: split_slash s'
      else match split_slash s' with
           | [] => [String c EmptyString]
           | x :: xs => String c x :: xs
           end
  end.

(** ['/'.join(comps)] *)
Fixpoint join_slash (comps : list string) : string :=
  match comps with
  | [] => EmptyString
  | [x] => x
  | x :: xs => x +:+ "/" +:+ join_slash xs
  end.

(** ['/' * n] *)
Fixpoint slashes (n : nat) : string :=
  match n with
  | O => EmptyString
  | S k => String "/"%char (slashes k)
  end.

(** Python truthiness of a string: [x or y]. *)
Definition or_else (x y : string) : string :=
  if String.eqb x EmptyString then y else x.

(** No ['/'] occurs in the string. *)
Fixpoint slash_free (s : string) : bool :=
  match s with
  | EmptyString => true
  | String c s' => negb (Ascii.eqb c "/"%char) && slash_free s'
  end.

(** The last character, if any. *)
Fixpoint last_char (s : string) : option ascii :=
  match s with
  | EmptyString => None
  | String c EmptyString => Some c
  | String _ s' => last_char s'
  end.

End PyStr.

(** ** [posixpath]: [join], [isabs], [normpath], [abspath] *)

Module PosixPath.
Import PyStr.

Definition sep : string := "/".
Definition dot : string := ".".
Definition dotdot : string := "..".

Definition isabs (p : string) : bool := startswith p sep.

(** One iteration of the loop of [posixpath.join(a, *p)]. *)
Definition join_step (path b : string) : string :=
  if startswith b sep then b
  else if String.eqb path EmptyString || endswith path sep then path +:+ b
  else path +:+ sep +:+ b.

Definition join (a : string) (p : list string) : string :=
  fold_left join_step p a.

(** [initial_slashes] as [normpath] computes it: 0, 1 or 2. *)
Definition initial_slashes (path : string) : nat :=
  if startswith path sep then
    if startswith path (sep +:+ sep) && negb (startswith path (sep +:+ sep +:+ sep))
    then 2 else 1
  else 0.

(** Body of the [for comp in comps] loop of [normpath]; [new_comps] is
    kept in the order of the Python list (last element = top). *)
Definition norm_step (init : nat) (new_comps : list string) (comp : string)
  : list string :=
  if String.eqb comp EmptyString || String.eqb comp dot then new_comps
  else if negb (String.eqb comp dotdot)
          || (Nat.eqb init 0 && bool_decide (new_comps = []))
          || (negb (bool_decide (new_comps = []))
              && String.eqb (List.last new_comps EmptyString) dotdot)
       then new_comps ++ [comp]
       else if negb (bool_decide (new_comps = [])) then removelast new_comps
       else new_comps.

Definition normpath (path : string) : string :=
  if String.eqb path EmptyString then dot
  else
    let init := initial_slashes path in
    let comps := fold_left (norm_step init) (split_slash path) [] in
    or_else (slashes init +:+ join_slash comps) dot.

(** [abspath]; the process's current directory is a parameter. *)
Definition abspath (cwd path : string) : string :=
  if isabs path then normpath path else normpath (join cwd [path]).

End PosixPath.

(** ** Exceptions and results *)

Inductive exn : Type :=
| ScriptWorkerTaskException (msg : string)
| ScriptWorkerRetryException (msg : string)
| DownloadError (msg : string)
| ClientError (msg : string)          (* aiohttp.ClientError *)
| TimeoutError                        (* asyncio.TimeoutError *)
| FileNotFoundError (path : string)
| IsADirectoryError (path : string)
| OtherError (msg : string).

Inductive result (A : Type) : Type :=
| Ok (a : A)
| Raise (e : exn).
Arguments Ok {A} a.
Arguments Raise {A} e.

Definition is_ok {A} (r : result A) : bool :=
  match r with Ok _ => true | Raise _ => false end.

(** ** The local filesystem and the I/O trace *)

Inductive node : Type :=
| File (content : list byte)
| Dir.

Inductive io_event : Type :=
| EvExists (path : string)            (* os.path.exists(path) *)
| EvRead (path : string)              (* open(path, 'rb').read() *)
| EvGzipWrite (path : string)         (* gzip.open(path, 'wb').write(..) *)
| EvCreateArtifact (target_path : string)   (* queue.createArtifact(..) *)
| EvPut (url : string)                (* session.put(url, ..) *)
| EvDownload (url dest : string).     (* download_func(ctx, url, dest) *)

Record world : Type := World {
  fs : gmap string node;
  trace : list io_event;
}.

Definition log_io (e : io_event) (w : world) : world :=
  {| fs := fs w; trace := trace w ++ [e] |}.

(** Computations over the world that may raise; the world survives a raise. *)
Definition M (A : Type) : Type := world -> result A * world.

Definition ret {A} (a : A) : M A := fun w => (Ok a, w).
Definition raise {A} (e : exn) : M A := fun w => (Raise e, w).
Definition bind {A B} (c : M A) (k : A -> M B) : M B :=
  fun w => match c w with
           | (Ok a, w') => k a w'
           | (Raise e, w') => (Raise e, w')
           end.

Notation "'let!' x ':=' c 'in' k" := (bind c (fun x => k))
  (at level 10, x name, c at level 100, k at level 200).

(** [for x in l: acc = f(x, acc)], stopping at the first raise. *)
Fixpoint for_each {A S} (f : A -> S -> M S) (l : list A) (acc : S) : M S :=
  match l with
  | [] => ret acc
  | x :: l' => let! acc' := f x acc in for_each f l' acc'
  end.

Definition os_path_exists (path : string) : M bool :=
  fun w => (Ok (bool_decide (is_Some (fs w !! path))), log_io (EvExists path) w).

Definition read_bytes (path : string) : M (list byte) :=
  fun w =>
    let w' := log_io (EvRead path) w in
    match fs w !! path with
    | Some (File b) => (Ok b, w')
    | Some Dir => (Raise (IsADirectoryError path), w')
    | None => (Raise (FileNotFoundError path), w')
    end.

(** What lies outside the program: the system MIME database, the gzip
    codec, the process's current directory, the event loop's bookkeeping
    and the retry default. *)
Class Platform : Type := {
  mimetypes_guess_type : string -> option string * option string;
  gzip_compress : list byte -> list byte;
  os_getcwd : string;
  (* the order in which the finished futures of a batch are inspected *)
  asyncio_done_order : list (result unit) -> list (result unit);
  (* the attempt limit [retry_async] applies when its caller gives none *)
  retry_attempts : nat;
}.

Definition gzip_write `{Platform} (path : string) (data : list byte) : M unit :=
  fun w =>
    match fs w !! path with
    | Some Dir => (Raise (IsADirectoryError path), w)
    | _ => (Ok tt, {| fs := <[path := File (gzip_compress data)]> (fs w);
                      trace := trace w ++ [EvGzipWrite path] |})
    end.

(** ** Data model *)

(** The JSON values a payload field may hold, as far as the code tells
    them apart. *)
Inductive pyval : Type :=
| PyNone
| PyBool (b : bool)
| PyInt (z : Z)
| PyStr (s : string).

#[global] Instance pyval_eq_dec : EqDecision pyval.
Proof. solve_decision. Defined.

(** One entry of [task['payload']['upstreamArtifacts']]. [optional] is
    [None] when the key is absent. *)
Record artifact_definition : Type := ArtifactDefinition {
  taskId : string;
  paths : list string;
  optional : option pyval;
}.

(** The task definition: the fields this module reads. *)
Record task_definition : Type := TaskDefinition {
  dependencies : list string;
  taskGroupId : string;
  expires : string;
  upstreamArtifacts : list artifact_definition;
}.

Record claimed_task : Type := ClaimedTask {
  claim_taskId : string;
  claim_runId : string;
}.

(** [createArtifact]'s payload. *)
Record artifact_payload : Type := ArtifactPayload {
  storageType : string;
  payload_expires : string;
  contentType : string;
}.

(** HTTP headers of the PUT, in insertion order. *)
Definition headers : Type := list (string * string).

(** [task_context.config]: the options this module reads. The URL rules are
    regular expressions in the program; here they are the function that
    matches a URL and yields its [taskId] and [filepath] groups. *)
Record config : Type := Config {
  artifact_upload_timeout : nat;
  valid_artifact_rules : string -> option (string * string);
}.

(** The queue client and the HTTP session are collaborators: their calls
    are computations over the world. *)
Record queue_client : Type := QueueClient {
  createArtifact : string -> string -> string -> artifact_payload -> M string;
}.

Record http_session : Type := HttpSession {
  put : string -> list byte -> headers -> M nat;
}.

Record TaskContext : Type := MkTaskContext {
  work_dir : string;
  artifact_dir : string;
  task : task_definition;
  claim_task : claimed_task;
  ctx_config : config;
  queue : queue_client;
  session : http_session;
}.

(** ** Collaborators outside this source tree *)

Module Utils.

(** The [item] argument of [add_enumerable_item_to_dict]: one value, or a
    list or tuple of values. *)
Inductive enumerable : Type :=
| Item (s : string)
| Items (l : list string).

(** Modelled from the spec: [scriptworker.utils.add_enumerable_item_to_dict]
    is not part of this source tree. Results are recorded under a task
    id's list: the key's list is created empty when absent, then a list
    item extends it and a single item is appended to it. *)
Definition add_enumerable_item_to_dict (dict_ : gmap string (list string))
    (key : string) (item : enumerable) : gmap string (list string) :=
  let current := default [] (dict_ !! key) in
  <[key := current ++ match item with Item s => [s] | Items l => l end]> dict_.

(** Modelled from the spec: [scriptworker.utils.retry_async] is not part
    of this source tree. The operation is invoked; on an exception of a
    transient kind it is retried (after a sleep, which has no effect
    on the world modelled here), up to the attempt limit;
    on exhaustion the last transient exception is re-raised; any other
    exception propagates at once. [retries] counts the invocations still
    allowed after the current one. *)
Fixpoint retry_loop {A} (func : M A) (retry_exceptions : exn -> bool)
    (retries : nat) : M A :=
  fun w =>
    match func w with
    | (Ok a, w') => (Ok a, w')
    | (Raise e, w') =>
        if retry_exceptions e then
          match retries with
          | O => (Raise e, w')
          | S n => retry_loop func retry_exceptions n w'
          end
        else (Raise e, w')
    end.

(** The [k]-th invocation (from 0) of [func] in a row, each starting in the
    world the one before left. *)
Definition nth_attempt {A} (func : M A) (k : nat) (w : world) : result A * world :=
  func (Nat.iter k (fun w' => snd (func w')) w).

(** [e] is a transient failure. *)
Definition transient_failure {A} (retry_exceptions : exn -> bool) (r : result A)
  : bool :=
  match r with
  | Raise e => retry_exceptions e
  | Ok _ => false
  end.

Definition retry_async `{Platform} {A} (func : M A)
    (retry_exceptions : exn -> bool) : M A :=
  retry_loop func retry_exceptions (retry_attempts - 1).

(** Every future of the batch runs to completion, whatever its siblings
    do. The model runs them one after the other. *)
Fixpoint run_all (tasks : list (M unit)) (w : world) : list (result unit) * world :=
  match tasks with
  | [] => ([], w)
  | t :: ts =>
      let '(r, w1) := t w in
      let '(rs, w2) := run_all ts w1 in
      (r :: rs, w2)
  end.

Fixpoint first_exception (done : list (result unit)) : option exn :=
  match done with
  | [] => None
  | Raise e :: _ => Some e
  | Ok _ :: rest => first_exception rest
  end.

(** Modelled from the spec: [scriptworker.utils.raise_future_exceptions]
    is not part of this source tree. The set of concurrent operations is
    awaited as a batch: all started operations are allowed to finish, and
    if any failed the first exception observed is raised. *)
Definition raise_future_exceptions `{Platform} (tasks : list (M unit)) : M unit :=
  fun w =>
    let '(outcomes, w') := run_all tasks w in
    match first_exception (asyncio_done_order outcomes) with
    | Some e => (Raise e, w')
    | None => (Ok tt, w')
    end.

End Utils.

Module TaskHelpers.

(** Modelled from the spec: [scriptworker.task] is not part of this source
    tree. A claimed task carries its task id and run id; the decision
    task is the task's originating group task. *)
Definition get_task_id (c : claimed_task) : string := claim_taskId c.
Definition get_run_id (c : claimed_task) : string := claim_runId c.
Definition get_decision_task_id (t : task_definition) : string := taskGroupId t.

End TaskHelpers.

Module Client.
Import PyStr.

(** [s.lstrip('/')] *)
Fixpoint lstrip_slash (s : string) : string :=
  match s with
  | String c s' => if Ascii.eqb c "/"%char then lstrip_slash s' else s
  | EmptyString => EmptyString
  end.

(** A relative path escapes whatever directory it is joined to when its
    normal form is absolute or climbs through [..]. *)
Definition escapes_root (rel_path : string) : bool :=
  let n := PosixPath.normpath rel_path in
  PosixPath.isabs n || String.eqb n ".." || startswith n "../".

(** Modelled from the spec: [scriptworker.client.validate_artifact_url] is
    not part of this source tree. A URL must resolve to a relative path
    anchored under one of the approved task ids (the URL's file path
    with its leading slashes dropped, so that it is relative); a URL
    outside the allow-list, or whose resolved path would escape the
    destination root, is rejected with a task exception. *)
Definition validate_artifact_url
    (valid_artifact_rules : string -> option (string * string))
    (valid_artifact_task_ids : list string) (url : string) : result string :=
  match valid_artifact_rules url with
  | Some (task_id, filepath) =>
      let rel_path := lstrip_slash filepath in
      if bool_decide (task_id ∈ valid_artifact_task_ids) && negb (escapes_root rel_path)
      then Ok rel_path
      else Raise (ScriptWorkerTaskException ("Can't validate url " +:+ url))
  | None => Raise (ScriptWorkerTaskException ("Can't validate url " +:+ url))
  end.

End Client.

(** ** [scriptworker.artifacts] *)

Module Artifacts.
Import PyStr Utils TaskHelpers Client.

Definition _GZIP_SUPPORTED_CONTENT_TYPE : list string :=
  ["text/plain"; "application/json"; "text/html"; "application/xml"].

(** The dict literal, in insertion (= iteration) order. *)
Definition _EXTENSION_TO_MIME_TYPE : list (string * (string * option string)) :=
  [ (".tar.gz", ("application/x-tar", None));
    (".tgz", ("application/x-tar", None));
    (".txt", ("text/plain", None));
    (".dmg", ("application/x-apple-diskimage", None));
    (".log", ("text/plain", None));
    (".asc", ("text/plain", None));
    (".diff", ("text/plain", None));
    (".xml", ("application/xml", None)) ].

(** [for ext, content_type in table.items(): if path.endswith(ext): return] *)
Fixpoint first_extension_match (tbl : list (string * (string * option string)))
    (path : string) : option (string * option string) :=
  match tbl with
  | [] => None
  | (ext, content_type) :: tbl' =>
      if endswith path ext then Some content_type
      else first_extension_match tbl' path
  end.

Definition guess_content_type_and_encoding `{Platform} (path : string)
  : string * option string :=
  match first_extension_match _EXTENSION_TO_MIME_TYPE path with
  | Some content_type => content_type
  | None =>
      let '(content_type, encoding) := mimetypes_guess_type path in
      let content_type :=
        match content_type with
        | Some c => or_else c "application/binary"
        | None => "application/binary"
        end in
      (content_type, encoding)
  end.

Definition gzip_eligible (content_type : string) (encoding : option string) : bool :=
  bool_decide (encoding = None)
  && bool_decide (content_type ∈ _GZIP_SUPPORTED_CONTENT_TYPE).

Definition compress_artifact_if_supported `{Platform} (artifact_path : string)
  : M (string * option string) :=
  let '(content_type, encoding) := guess_content_type_and_encoding artifact_path in
  if gzip_eligible content_type encoding then
    let! text_content := read_bytes artifact_path in
    let! _ := gzip_write artifact_path text_content in
    ret (content_type, Some "gzip")
  else ret (content_type, encoding).

(** [get_expiration_arrow(ctx).isoformat()]: the task's [expires], kept as
    the string the task definition gives. [arrow]'s parsing and rendering
    of the timestamp, which may re-format it and raises on a malformed
    one, is not modelled; nothing below depends on the rendering. *)
Definition get_expiration_arrow (task_context : TaskContext) : string :=
  expires (task task_context).

Definition _craft_artifact_put_headers (content_type : string)
    (encoding : option string) : headers :=
  ("Content-Type", content_type) ::
  match encoding with
  | Some e => [("Content-Encoding", e)]
  | None => []
  end.

(** [str(n)] for an HTTP status. *)
Definition str_of_nat (n : nat) : string :=
  NilEmpty.string_of_uint (Nat.to_uint n).

Definition create_artifact (task_context : TaskContext) (path target_path : string)
    (content_type : string) (content_encoding : option string)
    (storage_type : string) (expires : option string) : M unit :=
  let payload :=
    {| storageType := storage_type;
       payload_expires :=
         match expires with
         | Some e => or_else e (get_expiration_arrow task_context)
         | None => get_expiration_arrow task_context
         end;
       contentType := content_type |} in
  let! putUrl :=
    (fun w => createArtifact (queue task_context)
                (get_task_id (claim_task task_context))
                (get_run_id (claim_task task_context))
                target_path payload (log_io (EvCreateArtifact target_path) w)) in
  let! fh := read_bytes path in
  let! status :=
    (fun w => put (session task_context) putUrl fh
                (_craft_artifact_put_headers content_type content_encoding)
                (log_io (EvPut putUrl) w)) in
  if bool_decide (status ∈ [200; 204]) then ret tt
  else raise (ScriptWorkerRetryException ("Bad status " +:+ str_of_nat status)).

Definition is_create_retry_exception (e : exn) : bool :=
  match e with
  | ScriptWorkerRetryException _ | ClientError _ => true
  | _ => false
  end.

Definition retry_create_artifact `{Platform} (task_context : TaskContext)
    (path target_path : string) (content_type : string)
    (content_encoding : option string) : M unit :=
  retry_async
    (create_artifact task_context path target_path content_type content_encoding
       "s3" None)
    is_create_retry_exception.

(** [list(map(f, l))] for an [f] that acts on the world and may raise. *)
Fixpoint map_M {A B} (f : A -> M B) (l : list A) : M (list B) :=
  match l with
  | [] => ret []
  | x :: l' =>
      let! y := f x in
      let! ys := map_M f l' in
      ret (y :: ys)
  end.

(** The inner [to_upload_future]: compression happens at once, the upload
    itself is only scheduled. *)
Definition to_upload_future `{Platform} (task_context : TaskContext)
    (target_path : string) : M (M unit) :=
  let path := PosixPath.join (artifact_dir task_context) [target_path] in
  let! ce := compress_artifact_if_supported path in
  ret (retry_create_artifact task_context path target_path (fst ce) (snd ce)).

Definition upload_artifacts `{Platform} (task_context : TaskContext)
    (files : list string) : M unit :=
  let! tasks := map_M (to_upload_future task_context) files in
  raise_future_exceptions tasks.

Definition is_download_retry_exception (e : exn) : bool :=
  match e with
  | DownloadError _ | ClientError _ | TimeoutError => true
  | _ => false
  end.

(** The [for file_url in file_urls] loop: validation, then scheduling.
    Nothing in it awaits, so no scheduled download has run when it ends
    or raises. The first component lists what was scheduled, also when
    the loop raises. *)
Fixpoint schedule_downloads
    (rules : string -> option (string * string)) (valid_ids : list string)
    (parent_dir : string) (file_urls : list string)
    (tasks : list (string * string)) (files : list string)
  : list (string * string) * result (list string) :=
  match file_urls with
  | [] => (tasks, Ok files)
  | file_url :: rest =>
      match validate_artifact_url rules valid_ids file_url with
      | Raise e => (tasks, Raise e)
      | Ok rel_path =>
          let abs_file_path := PosixPath.join parent_dir [rel_path] in
          schedule_downloads rules valid_ids parent_dir rest
            (tasks ++ [(file_url, abs_file_path)]) (files ++ [abs_file_path])
      end
  end.

(** The body of one scheduled download. *)
Definition download_task `{Platform} (download_func : string -> string -> M unit)
    (t : string * string) : M unit :=
  retry_async
    (fun w => download_func (fst t) (snd t) (log_io (EvDownload (fst t) (snd t)) w))
    is_download_retry_exception.

Definition default_valid_artifact_task_ids (task_context : TaskContext) : list string :=
  dependencies (task task_context) ++ [get_decision_task_id (task task_context)].

Definition download_artifacts `{Platform} (task_context : TaskContext)
    (file_urls : list string) (parent_dir : option string)
    (download_func : string -> string -> M unit)
    (valid_artifact_task_ids : option (list string)) : M (list string) :=
  let parent_dir :=
    match parent_dir with
    | Some d => or_else d (work_dir task_context)
    | None => work_dir task_context
    end in
  let valid_artifact_rules := valid_artifact_rules (ctx_config task_context) in
  let valid_artifact_task_ids :=
    match valid_artifact_task_ids with
    | Some (x :: l) => x :: l
    | _ => default_valid_artifact_task_ids task_context
    end in
  match schedule_downloads valid_artifact_rules valid_artifact_task_ids
          parent_dir file_urls [] [] with
  | (_, Raise e) => raise e
  | (tasks, Ok files) =>
      let! _ := raise_future_exceptions (map (download_task download_func) tasks) in
      ret files
  end.

Definition get_single_upstream_artifact_full_path `{Platform}
    (task_context : TaskContext) (task_id path : string) : string :=
  PosixPath.abspath os_getcwd
    (PosixPath.join (work_dir task_context) ["cot"; task_id; path]).

Definition get_and_check_single_upstream_artifact_full_path `{Platform}
    (task_context : TaskContext) (task_id path : string) : M string :=
  let abs_path := get_single_upstream_artifact_full_path task_context task_id path in
  let! found := os_path_exists abs_path in
  if negb found then
    raise (ScriptWorkerTaskException
             ("upstream artifact with path: " +:+ abs_path +:+ ", does not exist"))
  else ret abs_path.

(** [artifact_definition.get('optional', False) is True] *)
Definition optional_is_True (d : artifact_definition) : bool :=
  match optional d with
  | Some (PyBool true) => true
  | _ => false
  end.

(** Body of the [for artifact_definition in upstream_artifacts] loop. *)
Definition optional_step (optional_artifacts_per_task_id : gmap string (list string))
    (artifact_definition : artifact_definition) : gmap string (list string) :=
  if optional_is_True artifact_definition then
    add_enumerable_item_to_dict optional_artifacts_per_task_id
      (taskId artifact_definition) (Items (paths artifact_definition))
  else optional_artifacts_per_task_id.

Definition get_optional_artifacts_per_task_id
    (upstream_artifacts : list artifact_definition) : gmap string (list string) :=
  fold_left optional_step upstream_artifacts ∅.

(** The two dicts built by [get_upstream_artifacts_full_paths_per_task_id]. *)
Definition resolution : Type :=
  (gmap string (list string) * gmap string (list string))%type.

(** Body of the inner loop: the [try] / [except ScriptWorkerTaskException]. *)
Definition resolve_path `{Platform} (task_context : TaskContext)
    (optional_artifacts_per_task_id : gmap string (list string))
    (task_id path : string) (acc : resolution) : M resolution :=
  fun w =>
    match get_and_check_single_upstream_artifact_full_path task_context task_id path w with
    | (Ok path_to_add, w') =>
        (Ok (add_enumerable_item_to_dict (fst acc) task_id (Item path_to_add), snd acc), w')
    | (Raise (ScriptWorkerTaskException msg), w') =>
        if bool_decide (path ∈ default [] (optional_artifacts_per_task_id !! task_id))
        then (Ok (fst acc, add_enumerable_item_to_dict (snd acc) task_id (Item path)), w')
        else (Raise (ScriptWorkerTaskException msg), w')
    | (Raise e, w') => (Raise e, w')
    end.

Definition get_upstream_artifacts_full_paths_per_task_id `{Platform}
    (task_context : TaskContext) : M resolution :=
  let upstream_artifacts := upstreamArtifacts (task task_context) in
  let task_ids_and_relative_paths :=
    map (fun artifact_definition =>
           (taskId artifact_definition, paths artifact_definition))
        upstream_artifacts in
  let optional_artifacts_per_task_id :=
    get_optional_artifacts_per_task_id upstream_artifacts in
  for_each
    (fun tp acc =>
       for_each (resolve_path task_context optional_artifacts_per_task_id (fst tp))
                (snd tp) acc)
    task_ids_and_relative_paths (∅, ∅).

End Artifacts.

(** ** The chain-of-trust download root *)

Module CotRoot.
Import PyStr.

(** An ordinary single path component: not empty, no ['/'], neither [.]
    nor [..]. Task ids are such. *)
Definition plain_component (s : string) : bool :=
  slash_free s && negb (String.eqb s "") && negb (String.eqb s ".")
  && negb (String.eqb s "..").

(** No component of the path is [..]. *)
Definition no_dotdot (path : string) : bool :=
  forallb (fun comp => negb (String.eqb comp "..")) (split_slash path).

(** A component [normpath] keeps when it is not [..]. *)
Definition kept (comp : string) : bool :=
  negb (String.eqb comp "" || String.eqb comp PosixPath.dot).

(** [work_dir/cot/<task_id>], as an absolute normal path. *)
Definition cot_root `{Platform} (task_context : TaskContext) (task_id : string)
  : string :=
  PosixPath.abspath os_getcwd
    (PosixPath.join (work_dir task_context) ["cot"; task_id]).

(** [p] is [root] or lies below it. *)
Definition falls_under (root p : string) : bool :=
  String.eqb p root || startswith p (root +:+ "/").

End CotRoot.

(** ** Reference descriptions of the upstream artifact maps *)

Module UpstreamSpec.
Import Artifacts.

(** The declared (task id, relative path) pairs, in declaration order. *)
Definition declared_pairs (upstream_artifacts : list artifact_definition)
  : list (string * string) :=
  flat_map (fun d => map (fun path => (taskId d, path)) (paths d)) upstream_artifacts.

(** The entries recorded under one task id, in order; no entry for a task id
    nothing was recorded under. *)
Definition grouped (entries : list (string * string)) (task_id : string)
  : option (list string) :=
  match List.filter (fun e => String.eqb (fst e) task_id) entries with
  | [] => None
  | l => Some (map snd l)
  end.

(** The definitions of one task id that have [optional] set to [True]. *)
Definition optional_definitions (upstream_artifacts : list artifact_definition)
    (task_id : string) : list artifact_definition :=
  List.filter (fun d => optional_is_True d && String.eqb (taskId d) task_id)
              upstream_artifacts.

(** A pair is marked optional when some definition of its task id with
    [optional] set to [True] lists its path. *)
Definition marked_optional (upstream_artifacts : list artifact_definition)
    (pair : string * string) : bool :=
  existsb (fun d => bool_decide (snd pair ∈ paths d))
          (optional_definitions upstream_artifacts (fst pair)).

(** The file of a pair is on disk. *)
Definition present `{Platform} (task_context : TaskContext) (w : world)
    (pair : string * string) : bool :=
  bool_decide (is_Some (fs w !!
    get_single_upstream_artifact_full_path task_context (fst pair) (snd pair))).

Definition full_path_entry `{Platform} (task_context : TaskContext)
    (pair : string * string) : string * string :=
  (fst pair, get_single_upstream_artifact_full_path task_context (fst pair) (snd pair)).

Definition missing_message `{Platform} (task_context : TaskContext)
    (pair : string * string) : string :=
  "upstream artifact with path: "
    +:+ get_single_upstream_artifact_full_path task_context (fst pair) (snd pair)
    +:+ ", does not exist".

Definition exists_events `{Platform} (task_context : TaskContext)
    (pairs : list (string * string)) : list io_event :=
  map (fun pair => EvExists
         (get_single_upstream_artifact_full_path task_context (fst pair) (snd pair)))
      pairs.

(** The inner loop body, on a pair. *)
Definition resolve_pair `{Platform} (task_context : TaskContext)
    (opt : gmap string (list string))
    (pair : string * string) (acc : resolution) : M resolution :=
  resolve_path task_context opt (fst pair) (snd pair) acc.

(** Recording entries one by one under their task ids. *)
Definition record_all (d : gmap string (list string))
    (entries : list (string * string)) : gmap string (list string) :=
  fold_left (fun d e => Utils.add_enumerable_item_to_dict d (fst e) (Utils.Item (snd e)))
            entries d.

(** The pairs a loop looks at when it goes through [pairs] in order and
    ends at the first one that [stops] it: that one included, none after
    it. *)
Fixpoint checked_pairs {A} (stops : A -> bool) (pairs : list A) : list A :=
  match pairs with
  | [] => []
  | q :: rest => q :: (if stops q then [] else checked_pairs stops rest)
  end.

(** A pair stops the resolution: its file is missing and it is not marked
    optional. *)
Definition missing_required `{Platform} (task_context : TaskContext) (w : world)
    (pair : string * string) : bool :=
  negb (present task_context w pair)
  && negb (marked_optional (upstreamArtifacts (task task_context)) pair).

End UpstreamSpec.

(** ** Reference description of the optional artifacts

    What [get_optional_artifacts_per_task_id] is expected to return,
    written on the values of the [optional] key without the code's own
    test, for comparison with the function. *)

Module OptionalSpec.

(** The definition has [optional] set to [True]: the key is present and
    holds the boolean [True], not a missing key, [False], [None], a
    number or a string. *)
Definition optional_set_to_True (d : artifact_definition) : Prop :=
  optional d = Some (PyBool true).

(** The optional definitions of one producing task id, in the order of
    the list. *)
Definition optional_definitions_of (upstream_artifacts : list artifact_definition)
    (task_id : string) : list artifact_definition :=
  List.filter (fun d => bool_decide (optional_set_to_True d /\ taskId d = task_id))
              upstream_artifacts.

(** The entry expected for a task id: none without an optional
    definition, else the paths of all of them, one list after the other. *)
Definition accumulated_paths (upstream_artifacts : list artifact_definition)
    (task_id : string) : option (list string) :=
  match optional_definitions_of upstream_artifacts task_id with
  | [] => None
  | ds => Some (concat (map paths ds))
  end.

End OptionalSpec.

(** ** Reference descriptions of the transfer batches *)

Module BatchSpec.
Import Artifacts.

(** The upload scheduled for one file. *)
Definition upload_of `{Platform} (task_context : TaskContext)
    (target_path : string) (task : M unit) : Prop :=
  exists content_encoding,
    task = retry_create_artifact task_context
             (PosixPath.join (artifact_dir task_context) [target_path]) target_path
             (fst (guess_content_type_and_encoding
                     (PosixPath.join (artifact_dir task_context) [target_path])))
             content_encoding.

(** What classification leaves in a file that held [content]: its gzip
    compression when the file's type is compressible, else [content]. *)
Definition content_after_classification `{Platform} (path : string)
    (content : list byte) : list byte :=
  if gzip_eligible (fst (guess_content_type_and_encoding path))
                   (snd (guess_content_type_and_encoding path))
  then gzip_compress content else content.

(** [path] is a regular file on disk. *)
Definition regular_file (w : world) (path : string) : Prop :=
  exists content, fs w !! path = Some (File content).

(** What [download_artifacts] takes for its destination and allow-list. *)
Definition effective_parent_dir (task_context : TaskContext)
    (parent_dir : option string) : string :=
  match parent_dir with
  | Some d => PyStr.or_else d (work_dir task_context)
  | None => work_dir task_context
  end.

Definition effective_task_ids (task_context : TaskContext)
    (valid_artifact_task_ids : option (list string)) : list string :=
  match valid_artifact_task_ids with
  | Some (x :: l) => x :: l
  | _ => default_valid_artifact_task_ids task_context
  end.

(** The download scheduled for a validated URL. *)
Definition download_of (rules : string -> option (string * string))
    (valid_ids : list string) (parent_dir : string)
    (file_url : string) (t : string * string) : Prop :=
  exists rel_path,
    Client.validate_artifact_url rules valid_ids file_url = Ok rel_path
    /\ t = (file_url, PosixPath.join parent_dir [rel_path]).

End BatchSpec.

(** ** The task lifecycle controller *)

Module Worker.

(** Terminal outcome of one task cycle. *)
Inductive status : Type :=
| Success
| TaskFailure (exit_code : nat)
| TaskTimeout
| IntermittentTask
| InternalError
| WorkerShutdown
| ResourceUnavailable
| MalformedPayload.

(** How the task process ends when nobody stops it. *)
Inductive natural_exit : Type :=
| Exits (exit_code : nat)
| RunsOutOfTime.

(** What the process supervisor reports about the task process. *)
Inductive process_outcome : Type :=
| Finished (exit_code : nat)
| TimedOut
| ShutdownStopped.

(** Calls the controller makes on its collaborators, in order. *)
Inductive call : Type :=
| ClaimWork
| Sleep
| PrepareToRunTask
| ReclaimStart
| RunTask
| WorkerShutdownStop
| VerifyChainOfTrust
| GenerateCot
| DoUpload (files : list string)
| ReclaimCancel
| CompleteTask (s : status).

Inductive upload_outcome : Type :=
| UploadOk
| UploadFailed (s : status)     (* a transient or task kind, mapped to a status *)
| UploadUncaught (e : exn).     (* anything else: propagates out of the cycle *)

(** What one poll cycle meets: the collaborators' answers and the artifact
    directory as the task leaves it. *)
Record cycle_env : Type := CycleEnv {
  task_available : bool;
  verify_chain_of_trust : bool;                (* the configuration flag *)
  process_exit : natural_exit;                 (* the process, left alone *)
  task_max_timeout_status : status;
  verification_error : option status;          (* verification fails with .. *)
  cycle_artifact_dir : string;
  disk : gmap string node;
  output_files : list string;                  (* the task's output directory *)
  upload_result : upload_outcome;
  merge_status : status -> status -> status;   (* task status, upload status *)
}.

(** How a phase hands over to the next. *)
Inductive phase_result : Type :=
| Continue (s : status)
| TaskFatal (s : status)
| ShutdownInterrupt.

(** The suspension point the controller waits at. Between two of them it
    runs without interruption: preparing the task, starting the
    keep-alive and generating the evidence are synchronous. *)
Inductive point : Type :=
| AwaitClaim
| AwaitSleep
| AwaitProcess
| AwaitVerify
| AwaitUpload (r : phase_result)
| AwaitComplete (final : status)
| Done (res : result (option status)).

Record state : Type := State {
  at_point : point;
  is_cancelled : bool;              (* [cancel()] was requested *)
  stop_requested : bool;            (* the supervisor was told to stop the task *)
  calls : list call;
}.

(** What happens next: the awaited operation finishes, or [cancel()] is
    requested while it is still pending. *)
Inductive input : Type :=
| Resume
| Cancel.

(** [os.path.isfile] on the artifact directory. *)
Definition isfile (env : cycle_env) (path : string) : bool :=
  match disk env !! path with
  | Some (File _) => true
  | _ => false
  end.

(** Modelled from the spec: [scriptworker.worker] is not part of this
    source tree. The known chain-of-trust log artifacts uploaded after a
    shutdown interrupt: the two paths [test_run_tasks_cancel_cot] and
    [test_run_tasks_cancel_run_tasks] expect in the upload call, those of
    them that [os.path.isfile] finds in the artifact directory (both tests
    patch it to answer [True]). *)
Definition shutdown_artifact_paths (env : cycle_env) : list string :=
  List.filter
    (fun path => isfile env (PosixPath.join (cycle_artifact_dir env) [path]))
    (map (fun log_file => PosixPath.join "public" ["logs"; log_file])
         ["chain_of_trust.log"; "live_backing.log"]).

Definition log_calls (cs : list call) (st : state) : state :=
  {| at_point := at_point st; is_cancelled := is_cancelled st;
     stop_requested := stop_requested st; calls := calls st ++ cs |}.

Definition goto (p : point) (st : state) : state :=
  {| at_point := p; is_cancelled := is_cancelled st;
     stop_requested := stop_requested st; calls := calls st |}.

(** A cycle starts by asking the queue for work. *)
Definition start : state :=
  {| at_point := AwaitClaim; is_cancelled := false; stop_requested := false;
     calls := [ClaimWork] |}.

(** Modelled from the spec: [scriptworker.worker] is not part of this
    source tree. The process supervisor: told that the worker is shutting
    down it stops the process and reports that, whatever the process would
    have done; a process that runs out of time is reported as timed out. *)
Definition supervise (env : cycle_env) (st : state) : process_outcome :=
  if stop_requested st then ShutdownStopped
  else match process_exit env with
       | Exits c => Finished c
       | RunsOutOfTime => TimedOut
       end.

(** Modelled from the spec: [scriptworker.worker] is not part of this
    source tree. Phase 7 begins: one upload call, over the task's output
    or, after a shutdown interrupt, over the chain-of-trust logs. *)
Definition begin_upload (env : cycle_env) (r : phase_result) (st : state) : state :=
  let files :=
    match r with
    | Continue _ | TaskFatal _ => output_files env
    | ShutdownInterrupt => shutdown_artifact_paths env
    end in
  goto (AwaitUpload r) (log_calls [DoUpload files] st).

(** Modelled from the spec: [scriptworker.worker] is not part of this
    source tree. The status reported once the upload is over: forced to
    worker-shutdown after a shutdown interrupt, regardless of what else
    failed; else the task's status merged with the upload's. *)
Definition final_status (env : cycle_env) (r : phase_result) : status :=
  match r with
  | ShutdownInterrupt => WorkerShutdown
  | Continue s | TaskFatal s =>
      match upload_result env with
      | UploadOk => s
      | UploadFailed u => merge_status env s u
      | UploadUncaught _ => InternalError
      end
  end.

(** Modelled from the spec: [scriptworker.worker] is not part of this
    source tree. The awaited operation finishes and the controller runs to
    its next suspension point. Phases in order: claim (with no work, the
    poll sleep), prepare, keep-alive, execute, verify if enabled, evidence,
    upload, complete. A cancellation pending at the claim or at the sleep
    ends the cycle there; a task stopped by the supervisor and a
    verification cancelled in flight raise the shutdown interrupt, which
    skips the phases up to the upload. The keep-alive is cancelled before
    the completion is reported; an uncaught upload exception still gets
    its report and then propagates. *)
Definition resume (env : cycle_env) (st : state) : state :=
  match at_point st with
  | AwaitClaim =>
      if is_cancelled st then goto (Done (Ok None)) st
      else if task_available env then
        goto AwaitProcess (log_calls [PrepareToRunTask; ReclaimStart; RunTask] st)
      else goto AwaitSleep (log_calls [Sleep] st)
  | AwaitSleep => goto (Done (Ok None)) st
  | AwaitProcess =>
      match supervise env st with
      | ShutdownStopped => begin_upload env ShutdownInterrupt st
      | TimedOut => begin_upload env (TaskFatal (task_max_timeout_status env)) st
      | Finished (S n) => begin_upload env (TaskFatal (TaskFailure (S n))) st
      | Finished O =>
          if verify_chain_of_trust env then
            goto AwaitVerify (log_calls [VerifyChainOfTrust] st)
          else begin_upload env (Continue Success) (log_calls [GenerateCot] st)
      end
  | AwaitVerify =>
      if is_cancelled st then begin_upload env ShutdownInterrupt st
      else match verification_error env with
           | Some err => begin_upload env (TaskFatal err) st
           | None => begin_upload env (Continue Success) (log_calls [GenerateCot] st)
           end
  | AwaitUpload r =>
      goto (AwaitComplete (final_status env r))
           (log_calls [ReclaimCancel; CompleteTask (final_status env r)] st)
  | AwaitComplete final =>
      goto (Done match upload_result env with
                 | UploadUncaught e => Raise e
                 | _ => Ok (Some final)
                 end) st
  | Done _ => st
  end.

(** Modelled from the spec: [scriptworker.worker] is not part of this
    source tree. [cancel()]: idempotent; it records the request, and if a
    task process is running it asks the supervisor to stop it. It takes
    effect when the pending operation is resumed. *)
Definition cancel (st : state) : state :=
  if is_cancelled st then st
  else
    match at_point st with
    | Done _ => st
    | AwaitProcess =>
        {| at_point := AwaitProcess; is_cancelled := true; stop_requested := true;
           calls := calls st ++ [WorkerShutdownStop] |}
    | p =>
        {| at_point := p; is_cancelled := true; stop_requested := stop_requested st;
           calls := calls st |}
    end.

Definition step (env : cycle_env) (st : state) (i : input) : state :=
  match i with
  | Resume => resume env st
  | Cancel => cancel st
  end.

(** One cycle of [RunTasks.invoke] under a schedule of inputs. *)
Definition run_from (env : cycle_env) (st : state) (schedule : list input) : state :=
  fold_left (step env) schedule st.

Definition run_cycle (env : cycle_env) (schedule : list input) : state :=
  run_from env start schedule.

Definition complete_calls (cs : list call) : list status :=
  omap (fun c => match c with CompleteTask s => Some s | _ => None end) cs.

Definition upload_calls (cs : list call) : list (list string) :=
  omap (fun c => match c with DoUpload f => Some f | _ => None end) cs.





End Worker.

(** ** A concrete platform and task, for the examples *)

Module Demo.
Import PyStr.

(** A small MIME database, a toy codec that prefixes the gzip magic
    number, futures inspected in the order they were created, and five
    attempts. *)
Definition platform : Platform := {|
  mimetypes_guess_type := fun path =>
    if endswith path ".json" then (Some "application/json", None)
    else if endswith path ".txt.gz" then (Some "text/plain", Some "gzip")
    else (None, None);
  gzip_compress := fun data => x1f :: x8b :: data;
  os_getcwd := "/";
  asyncio_done_order := fun done => done;
  retry_attempts := 5;
|}.

Definition count_puts (url : string) (tr : list io_event) : nat :=
  length (List.filter (fun e => match e with
                                | EvPut u => String.eqb u url
                                | _ => false
                                end) tr).

(** A server that answers 503 to the first [failures] PUTs of a [.json]
    URL and 200 to the later ones (it counts the PUT in progress); any
    other URL gets 204 at once. *)
Definition flaky_session (failures : nat) : http_session := {|
  put := fun url _ _ w =>
    (Ok (if endswith url ".json" then
           if Nat.leb (count_puts url (trace w)) failures then 503 else 200
         else 204), w)
|}.

Definition the_queue : queue_client := {|
  createArtifact := fun _ _ target_path _ => ret ("https://put/" +:+ target_path)
|}.

(** URLs of the shape [<taskId>:<filepath>]. *)
Fixpoint split_colon (s : string) : option (string * string) :=
  match s with
  | EmptyString => None
  | String c s' =>
      if Ascii.eqb c ":"%char then Some (EmptyString, s')
      else match split_colon s' with
           | Some (a, b) => Some (String c a, b)
           | None => None
           end
  end.

Definition the_task : task_definition := {|
  dependencies := ["A"];
  taskGroupId := "B";
  expires := "2030-01-01T00:00:00";
  upstreamArtifacts :=
    [ {| taskId := "T1"; paths := ["a.txt"; "b.txt"]; optional := Some (PyBool false) |};
      {| taskId := "T2"; paths := ["c.txt"]; optional := Some (PyBool true) |};
      {| taskId := "T1"; paths := ["d.txt"]; optional := Some (PyBool true) |} ]
|}.

Definition context (failures : nat) : TaskContext := {|
  work_dir := "/w";
  artifact_dir := "/w/artifacts";
  task := the_task;
  claim_task := {| claim_taskId := "T0"; claim_runId := "0" |};
  ctx_config := {| artifact_upload_timeout := 1200;
                   valid_artifact_rules := split_colon |};
  queue := the_queue;
  session := flaky_session failures
|}.

Definition file (content : list byte) : node := File content.

Definition the_world : world := {|
  fs := list_to_map
          [ ("/w/cot/T1/a.txt", file [x61]);
            ("/w/cot/T1/b.txt", file [x62]);
            ("/w/etc/passwd", file [x72]);
            ("/w/artifacts/public/out.json", file [x7b; x7d]);
            ("/w/artifacts/public/build.tar.gz", file [x00]) ];
  trace := []
|}.

(** The same disk without [T1]'s required [b.txt]. *)
Definition world_without_b : world := {|
  fs := delete "/w/cot/T1/b.txt" (fs the_world);
  trace := []
|}.

(** A download that always succeeds, and one that always times out. *)
Definition download_ok : string -> string -> M unit := fun _ _ => ret tt.
Definition download_timeout : string -> string -> M unit :=
  fun _ _ => raise TimeoutError.

(** A cycle whose task would exit 0 and pass verification; both
    chain-of-trust logs are in the artifact directory. *)
Definition cycle : Worker.cycle_env := {|
  Worker.task_available := true;
  Worker.verify_chain_of_trust := true;
  Worker.process_exit := Worker.Exits 0;
  Worker.task_max_timeout_status := Worker.TaskTimeout;
  Worker.verification_error := None;
  Worker.cycle_artifact_dir := "/w/artifacts";
  Worker.disk := list_to_map
    [ ("/w/artifacts/public/logs/chain_of_trust.log", file [x63]);
      ("/w/artifacts/public/logs/live_backing.log", file [x6c]);
      ("/w/artifacts/public/out.json", file [x7b; x7d]) ];
  Worker.output_files := ["public/out.json"];
  Worker.upload_result := Worker.UploadOk;
  Worker.merge_status := fun s u => match s with Worker.Success => u | _ => s end
|}.

(** The same cycle with other answers of the collaborators. *)
Definition cycle_with (available verify : bool) (exit : Worker.natural_exit)
    (verr : option Worker.status) (up : Worker.upload_outcome)
    (d : gmap string node) : Worker.cycle_env := {|
  Worker.task_available := available;
  Worker.verify_chain_of_trust := verify;
  Worker.process_exit := exit;
  Worker.task_max_timeout_status := Worker.IntermittentTask;
  Worker.verification_error := verr;
  Worker.cycle_artifact_dir := "/w/artifacts";
  Worker.disk := d;
  Worker.output_files := ["public/out.json"];
  Worker.upload_result := up;
  Worker.merge_status := fun s u => match s with Worker.Success => u | _ => s end
|}.

(** Upstream artifacts in which [T1] is defined four times: twice with
    [optional] set to [True], once with [False], once with the number 1;
    [T2]'s only definition has no [optional] key. *)
Definition repeated_upstream : list artifact_definition :=
  [ {| taskId := "T1"; paths := ["a.txt"; "b.txt"]; optional := Some (PyBool true) |};
    {| taskId := "T1"; paths := ["c.txt"]; optional := Some (PyBool false) |};
    {| taskId := "T2"; paths := ["d.txt"]; optional := None |};
    {| taskId := "T1"; paths := ["e.txt"]; optional := Some (PyInt 1) |};
    {| taskId := "T1"; paths := ["f.txt"]; optional := Some (PyBool true) |} ].

(** A schedule without cancellation that lets every operation finish. *)
Definition to_the_end : list Worker.input :=
  [Worker.Resume; Worker.Resume; Worker.Resume; Worker.Resume; Worker.Resume].

End Demo.

(** ** [get_artifact_url] *)

Module ArtifactUrl.

(** The two URL builders of the queue client; either may fail. *)
Record url_builder : Type := UrlBuilder {
  buildUrl : string -> string -> string -> result string;
  buildSignedUrl : string -> string -> string -> result string;
}.

Definition get_artifact_url (q : url_builder) (task_id path : string) : result string :=
  if PyStr.startswith path "public/" then buildUrl q "getLatestArtifact" task_id path
  else buildSignedUrl q "getLatestArtifact" task_id path.

End ArtifactUrl.

(** ** Kinds of I/O events *)

Module Events.

(** Calls that reach the queue or the network. *)
Definition is_network_event (e : io_event) : bool :=
  match e with
  | EvCreateArtifact _ | EvPut _ | EvDownload _ _ => true
  | EvExists _ | EvRead _ | EvGzipWrite _ => false
  end.

(** The events [compress_artifact_if_supported] can produce on [path]. *)
Definition is_compress_event_of (path : string) (e : io_event) : bool :=
  match e with
  | EvRead p | EvGzipWrite p => String.eqb p path
  | _ => false
  end.

(** No event of the list reaches the queue or the network. *)
Definition quiet (l : list io_event) : bool :=
  forallb (fun e => negb (is_network_event e)) l.

End Events.

(** ** More concrete values for the examples *)

Module MoreDemo.

(** A server that never answers in time. *)
Definition timeout_session : http_session := {|
  put := fun _ _ _ => raise TimeoutError
|}.

Definition context_with (s : http_session) : TaskContext := {|
  work_dir := "/w";
  artifact_dir := "/w/artifacts";
  task := Demo.the_task;
  claim_task := {| claim_taskId := "T0"; claim_runId := "0" |};
  ctx_config := {| artifact_upload_timeout := 1200;
                   valid_artifact_rules := Demo.split_colon |};
  queue := Demo.the_queue;
  session := s
|}.

(** The context of [Demo] configured with a relative work directory. *)
Definition relative_context : TaskContext := {|
  work_dir := "w";
  artifact_dir := "w/artifacts";
  task := Demo.the_task;
  claim_task := {| claim_taskId := "T0"; claim_runId := "0" |};
  ctx_config := {| artifact_upload_timeout := 1200;
                   valid_artifact_rules := Demo.split_colon |};
  queue := Demo.the_queue;
  session := Demo.flaky_session 0
|}.

(** A queue client whose URL builders tag their answer. *)
Definition tagging_builder : ArtifactUrl.url_builder := {|
  ArtifactUrl.buildUrl := fun _ task_id path => Ok ("plain:" +:+ task_id +:+ "/" +:+ path);
  ArtifactUrl.buildSignedUrl := fun _ task_id path =>
    Ok ("signed:" +:+ task_id +:+ "/" +:+ path)
|}.

(** The platform of [Demo], started from another directory. *)
Definition platform_in (cwd : string) : Platform := {|
  mimetypes_guess_type := @mimetypes_guess_type Demo.platform;
  gzip_compress := @gzip_compress Demo.platform;
  os_getcwd := cwd;
  asyncio_done_order := @asyncio_done_order Demo.platform;
  retry_attempts := @retry_attempts Demo.platform;
|}.

(** A platform whose MIME database answers the same nonsense for every
    path. *)
Definition contrary_platform : Platform := {|
  mimetypes_guess_type := fun _ => (Some "application/octet-stream", Some "compress");
  gzip_compress := @gzip_compress Demo.platform;
  os_getcwd := "/";
  asyncio_done_order := @asyncio_done_order Demo.platform;
  retry_attempts := 1;
|}.

(** The disk of [Demo] with a directory where a log file is expected. *)
Definition world_with_dir : world := {|
  fs := <["/w/artifacts/public/logs.txt" := Dir]> (fs Demo.the_world);
  trace := []
|}.

End MoreDemo.

(** * Properties *)

(** ** Strings *)

Section StringFacts.
Import PyStr.

Lemma string_app_cons (c : ascii) (s t : string) :
  String c s +:+ t = String c (s +:+ t).
Proof. reflexivity. Qed.

Lemma string_app_nil_l (s : string) : "" +:+ s = s.
Proof. reflexivity. Qed.

Lemma string_app_nil_r (s : string) : s +:+ "" = s.
Proof.
  induction s as [|c s IH]; [reflexivity|].
  now rewrite string_app_cons, IH.
Qed.

Lemma string_app_assoc (a b c : string) : (a +:+ b) +:+ c = a +:+ (b +:+ c).
Proof.
  induction a as [|x a IH]; [reflexivity|].
  now rewrite !string_app_cons, IH.
Qed.

Lemma endswith_unfold (s suf : string) :
  endswith s suf =
  String.eqb s suf || match s with
                      | EmptyString => false
                      | String _ s' => endswith s' suf
                      end.
Proof. destruct s; reflexivity. Qed.

Lemma endswith_refl (s : string) : endswith s s = true.
Proof. rewrite endswith_unfold, String.eqb_refl. reflexivity. Qed.

Lemma endswith_app (p suf : string) : endswith (p +:+ suf) suf = true.
Proof.
  induction p as [|c p IH].
  - apply endswith_refl.
  - rewrite string_app_cons, endswith_unfold, IH. apply orb_true_r.
Qed.

Lemma endswith_inv (s suf : string) :
  endswith s suf = true -> exists p, s = p +:+ suf.
Proof.
  induction s as [|c s IH]; rewrite endswith_unfold; intros Hs.
  - rewrite orb_false_r in Hs. apply String.eqb_eq in Hs. subst. now exists "".
  - apply orb_true_iff in Hs as [Hs | Hs].
    + apply String.eqb_eq in Hs. subst. now exists "".
    + destruct (IH Hs) as [p ->]. now exists (String c p).
Qed.

Lemma endswith_last_char (s suf : string) :
  suf <> "" -> endswith s suf = true -> last_char s = last_char suf.
Proof.
  intros Hne. induction s as [|c s IH]; rewrite endswith_unfold; intros Hs.
  - rewrite orb_false_r in Hs. apply String.eqb_eq in Hs. congruence.
  - apply orb_true_iff in Hs as [Hs | Hs].
    + apply String.eqb_eq in Hs. now subst.
    + destruct s as [|c' s'].
      * rewrite endswith_unfold, orb_false_r in Hs.
        apply String.eqb_eq in Hs. congruence.
      * now apply IH.
Qed.

Lemma endswith_last_char_ne (s suf suf' : string) :
  suf <> "" -> suf' <> "" -> last_char suf <> last_char suf' ->
  endswith s suf = true -> endswith s suf' = false.
Proof.
  intros H1 H2 Hne Hs. destruct (endswith s suf') eqn:E; [|reflexivity].
  apply endswith_last_char in Hs; [|assumption].
  apply endswith_last_char in E; [|assumption]. congruence.
Qed.

End StringFacts.

(** ** Content type classification *)

Section Classification.
Context `{Platform}.
Import PyStr Artifacts.

Ltac other_ext Hs :=
  match goal with
  | |- context [endswith ?p ?e] =>
      match type of Hs with
      | endswith p ?suf = true =>
          rewrite (endswith_last_char_ne p suf e ltac:(discriminate)
                     ltac:(discriminate) ltac:(cbv; discriminate) Hs)
      end
  end.

Lemma guess_xml (path : string) :
  endswith path ".xml" = true ->
  guess_content_type_and_encoding path = ("application/xml", None).
Proof.
  intros Hs. unfold guess_content_type_and_encoding, _EXTENSION_TO_MIME_TYPE.
  cbn [first_extension_match].
  do 7 (other_ext Hs). now rewrite Hs.
Qed.

Lemma guess_tar_gz (path : string) :
  endswith path ".tar.gz" = true ->
  guess_content_type_and_encoding path = ("application/x-tar", None).
Proof.
  intros Hs. unfold guess_content_type_and_encoding, _EXTENSION_TO_MIME_TYPE.
  cbn [first_extension_match]. now rewrite Hs.
Qed.

Lemma guess_tgz (path : string) :
  endswith path ".tgz" = true ->
  guess_content_type_and_encoding path = ("application/x-tar", None).
Proof.
  intros Hs. unfold guess_content_type_and_encoding, _EXTENSION_TO_MIME_TYPE.
  cbn [first_extension_match].
  destruct (endswith path ".tar.gz"); [reflexivity | now rewrite Hs].
Qed.

Lemma guess_dmg (path : string) :
  endswith path ".dmg" = true ->
  guess_content_type_and_encoding path = ("application/x-apple-diskimage", None).
Proof.
  intros Hs. unfold guess_content_type_and_encoding, _EXTENSION_TO_MIME_TYPE.
  cbn [first_extension_match].
  do 3 (other_ext Hs). now rewrite Hs.
Qed.

Lemma first_extension_match_none (tbl : list (string * (string * option string)))
    (path : string) :
  (forall ext ct, In (ext, ct) tbl -> endswith path ext = false) ->
  first_extension_match tbl path = None.
Proof.
  induction tbl as [|[ext ct] tbl IH]; simpl; intros Hall; [reflexivity|].
  rewrite (Hall ext ct) by now left.
  apply IH. intros ext' ct' Hin. apply (Hall ext' ct'). now right.
Qed.

(** C7. The extension table is consulted before the generic guesser:
    every path ending in [.xml] is [("application/xml", None)],
    ["build.tar.gz"] is [("application/x-tar", None)], ["output.log"] is
    [("text/plain", None)]; a path that matches no table entry gets the
    generic guesser's answer, its content type replaced by
    ["application/binary"] when the guesser resolves none. *)
Theorem guess_content_type_and_encoding_table_first :
  (forall path, endswith path ".xml" = true ->
     guess_content_type_and_encoding path = ("application/xml", None)) /\
  guess_content_type_and_encoding "build.tar.gz" = ("application/x-tar", None) /\
  guess_content_type_and_encoding "output.log" = ("text/plain", None) /\
  (forall path,
     (forall ext ct, In (ext, ct) _EXTENSION_TO_MIME_TYPE -> endswith path ext = false) ->
     snd (guess_content_type_and_encoding path) = snd (mimetypes_guess_type path) /\
     match fst (mimetypes_guess_type path) with
     | None => fst (guess_content_type_and_encoding path) = "application/binary"
     | Some c =>
         fst (guess_content_type_and_encoding path)
         = if String.eqb c "" then "application/binary" else c
     end).
Proof.
  split; [exact guess_xml|].
  split; [reflexivity|].
  split; [reflexivity|].
  intros path Hnone. unfold guess_content_type_and_encoding.
  rewrite (first_extension_match_none _ _ Hnone).
  destruct (mimetypes_guess_type path) as [[c|] enc]; simpl; split; reflexivity.
Qed.

End Classification.

(** ** Compression policy *)

Section Compression.
Context `{Platform}.
Import PyStr Artifacts.

Lemma gzip_eligible_iff (content_type : string) (encoding : option string) :
  gzip_eligible content_type encoding = true <->
  encoding = None /\ content_type ∈ _GZIP_SUPPORTED_CONTENT_TYPE.
Proof.
  unfold gzip_eligible. rewrite andb_true_iff, !bool_decide_eq_true. reflexivity.
Qed.

(** The eligible branch, on an existing regular file. *)
Lemma compress_eligible (path : string) (w : world) (b : list byte) :
  fs w !! path = Some (File b) ->
  gzip_eligible (fst (guess_content_type_and_encoding path))
                (snd (guess_content_type_and_encoding path)) = true ->
  compress_artifact_if_supported path w =
  (Ok (fst (guess_content_type_and_encoding path), Some "gzip"),
   {| fs := <[path := File (gzip_compress b)]> (fs w);
      trace := trace w ++ [EvRead path; EvGzipWrite path] |}).
Proof.
  intros Hfile Hel. unfold compress_artifact_if_supported.
  destruct (guess_content_type_and_encoding path) as [ct enc]. simpl in Hel.
  rewrite Hel. unfold bind, read_bytes, gzip_write, ret, log_io. simpl.
  rewrite Hfile. simpl. rewrite Hfile. simpl.
  rewrite <- app_assoc. reflexivity.
Qed.

(** The other branch: nothing is read or written. *)
Lemma compress_not_eligible (path : string) (w : world) :
  gzip_eligible (fst (guess_content_type_and_encoding path))
                (snd (guess_content_type_and_encoding path)) = false ->
  compress_artifact_if_supported path w =
  (Ok (guess_content_type_and_encoding path), w).
Proof.
  intros Hel. unfold compress_artifact_if_supported.
  destruct (guess_content_type_and_encoding path) as [ct enc]. simpl in Hel.
  rewrite Hel. reflexivity.
Qed.

Lemma archive_not_eligible (path : string) :
  endswith path ".tar.gz" = true \/ endswith path ".tgz" = true
  \/ endswith path ".dmg" = true ->
  snd (guess_content_type_and_encoding path) = None /\
  gzip_eligible (fst (guess_content_type_and_encoding path))
                (snd (guess_content_type_and_encoding path)) = false.
Proof.
  intros [Hs | [Hs | Hs]];
    [rewrite (guess_tar_gz _ Hs) | rewrite (guess_tgz _ Hs) | rewrite (guess_dmg _ Hs)];
    split; reflexivity.
Qed.

(** C2. On an existing file, [compress_artifact_if_supported] reads the
    file, replaces its bytes by their gzip compression and returns
    encoding ["gzip"] if and only if the guessed encoding is [None] and
    the guessed content type is in the whitelist; otherwise it touches
    nothing and returns the guess. For every path ending in [.tar.gz],
    [.tgz] or [.dmg] the world is left as it was and the returned
    encoding is [None]. *)
Theorem compress_artifact_if_supported_policy (path : string) (w : world) :
  (forall b, fs w !! path = Some (File b) ->
     let guess := guess_content_type_and_encoding path in
     let out := compress_artifact_if_supported path w in
     ((fst out = Ok (fst guess, Some "gzip")
       /\ fs (snd out) = <[path := File (gzip_compress b)]> (fs w)
       /\ trace (snd out) = trace w ++ [EvRead path; EvGzipWrite path])
      <-> (snd guess = None /\ fst guess ∈ _GZIP_SUPPORTED_CONTENT_TYPE))
     /\ (~ (snd guess = None /\ fst guess ∈ _GZIP_SUPPORTED_CONTENT_TYPE) ->
         out = (Ok guess, w)))
  /\ (endswith path ".tar.gz" = true \/ endswith path ".tgz" = true
      \/ endswith path ".dmg" = true ->
      exists content_type,
        compress_artifact_if_supported path w = (Ok (content_type, None), w)).
Proof.
  split.
  - intros b Hfile guess out.
    destruct (gzip_eligible (fst guess) (snd guess)) eqn:Hel.
    + pose proof (compress_eligible path w b Hfile Hel) as Hrun.
      apply gzip_eligible_iff in Hel.
      split; [|intros Hn; contradiction].
      split; [intros _; exact Hel|]. intros _.
      subst out. rewrite Hrun. simpl. auto.
    + pose proof (compress_not_eligible path w Hel) as Hrun.
      assert (Hn : ~ (snd guess = None /\ fst guess ∈ _GZIP_SUPPORTED_CONTENT_TYPE)).
      { intros Hc. apply gzip_eligible_iff in Hc. congruence. }
      split; [|intros _; exact Hrun].
      split; [|intros Hc; contradiction].
      intros (_ & _ & Htr). subst out. rewrite Hrun in Htr. simpl in Htr.
      apply (f_equal (@List.length io_event)) in Htr.
      rewrite length_app in Htr. simpl in Htr. lia.
  - intros Hext. destruct (archive_not_eligible path Hext) as [Henc Hel].
    exists (fst (guess_content_type_and_encoding path)).
    rewrite (compress_not_eligible path w Hel).
    destruct (guess_content_type_and_encoding path) as [ct enc].
    simpl in Henc. now subst.
Qed.

End Compression.

(** ** Dictionaries of lists *)

Section DictOfLists.
Import Utils.

Lemma add_enumerable_lookup_eq (d : gmap string (list string)) (k : string)
    (item : enumerable) :
  add_enumerable_item_to_dict d k item !! k
  = Some (default [] (d !! k) ++ match item with Item s => [s] | Items l => l end).
Proof. unfold add_enumerable_item_to_dict. apply lookup_insert_eq. Qed.

Lemma add_enumerable_lookup_ne (d : gmap string (list string)) (k k' : string)
    (item : enumerable) :
  k <> k' -> add_enumerable_item_to_dict d k item !! k' = d !! k'.
Proof. intros Hne. unfold add_enumerable_item_to_dict. now apply lookup_insert_ne. Qed.

End DictOfLists.

(** ** Optional upstream artifacts *)

Section OptionalArtifacts.
Import Utils Artifacts UpstreamSpec.

Lemma optional_fold_lookup (upstream : list artifact_definition)
    (acc : gmap string (list string)) (task_id : string) :
  fold_left optional_step upstream acc !! task_id
  = match optional_definitions upstream task_id with
    | [] => acc !! task_id
    | ds => Some (default [] (acc !! task_id) ++ concat (map paths ds))
    end.
Proof.
  revert acc. induction upstream as [|d rest IH]; intros acc; [reflexivity|].
  cbn [fold_left]. rewrite IH. unfold optional_definitions. cbn [List.filter].
  unfold optional_step.
  destruct (optional_is_True d) eqn:Hopt; cbn [andb]; [|reflexivity].
  destruct (String.eqb (taskId d) task_id) eqn:Hid.
  - apply String.eqb_eq in Hid. subst task_id.
    rewrite add_enumerable_lookup_eq. cbn [default map concat].
    destruct (List.filter _ rest) as [|d' ds'].
    + cbn [map concat]. now rewrite app_nil_r.
    + unfold id. cbn [map concat]. now rewrite <- app_assoc.
  - apply String.eqb_neq in Hid.
    now rewrite add_enumerable_lookup_ne.
Qed.

Lemma get_optional_lookup (upstream : list artifact_definition) (task_id : string) :
  get_optional_artifacts_per_task_id upstream !! task_id
  = match optional_definitions upstream task_id with
    | [] => None
    | ds => Some (concat (map paths ds))
    end.
Proof.
  unfold get_optional_artifacts_per_task_id.
  rewrite optional_fold_lookup, lookup_empty. reflexivity.
Qed.

Lemma optional_is_True_iff (d : artifact_definition) :
  optional_is_True d = true <-> OptionalSpec.optional_set_to_True d.
Proof.
  unfold optional_is_True, OptionalSpec.optional_set_to_True.
  destruct (optional d) as [[|[]|z|x]|]; split; congruence.
Qed.

Lemma optional_definitions_agree (upstream : list artifact_definition)
    (task_id : string) :
  optional_definitions upstream task_id
  = OptionalSpec.optional_definitions_of upstream task_id.
Proof.
  unfold optional_definitions, OptionalSpec.optional_definitions_of.
  apply List.filter_ext. intros d.
  destruct (optional_is_True d) eqn:Ho; cbn [andb].
  - apply optional_is_True_iff in Ho.
    destruct (String.eqb (taskId d) task_id) eqn:Hid; symmetry.
    + apply String.eqb_eq in Hid. now apply bool_decide_eq_true.
    + apply String.eqb_neq in Hid. apply bool_decide_eq_false. tauto.
  - symmetry. apply bool_decide_eq_false. intros [Ho' _].
    apply optional_is_True_iff in Ho'. congruence.
Qed.

Lemma get_optional_accumulated (upstream : list artifact_definition)
    (task_id : string) :
  get_optional_artifacts_per_task_id upstream !! task_id
  = OptionalSpec.accumulated_paths upstream task_id.
Proof.
  rewrite get_optional_lookup, optional_definitions_agree. reflexivity.
Qed.

(** C10. The dict returned by [get_optional_artifacts_per_task_id] has, for
    each task id, at most one entry: none when no definition of that task
    id has [optional] set to [True], and otherwise the concatenation, in
    declaration order, of the paths of all its definitions that have the
    key [optional] holding the boolean [True]. Two such definitions of one
    task id, wherever they stand in the list, both have their paths in
    the entry, the earlier one's first. A later optional definition
    extends the entry of its task id by its paths and leaves the other
    entries alone; a definition whose [optional] is anything else (absent,
    [False], [None], a number, a string) can be removed from the list
    without changing the dict. *)
Theorem get_optional_artifacts_per_task_id_accumulates
    (upstream : list artifact_definition) :
  (forall task_id,
      get_optional_artifacts_per_task_id upstream !! task_id
      = OptionalSpec.accumulated_paths upstream task_id)
  /\ (forall before d1 between d2 after,
         upstream = before ++ d1 :: between ++ d2 :: after ->
         optional d1 = Some (PyBool true) ->
         optional d2 = Some (PyBool true) ->
         taskId d1 = taskId d2 ->
         exists p0 p1 p2,
           get_optional_artifacts_per_task_id upstream !! taskId d1
           = Some (p0 ++ paths d1 ++ p1 ++ paths d2 ++ p2))
  /\ (forall d,
         optional d = Some (PyBool true) ->
         get_optional_artifacts_per_task_id (upstream ++ [d])
         = <[taskId d :=
               default [] (get_optional_artifacts_per_task_id upstream !! taskId d)
               ++ paths d]> (get_optional_artifacts_per_task_id upstream))
  /\ (forall before d after,
         upstream = before ++ d :: after ->
         optional d <> Some (PyBool true) ->
         get_optional_artifacts_per_task_id upstream
         = get_optional_artifacts_per_task_id (before ++ after)).
Proof.
  split; [apply get_optional_accumulated|]. split; [|split].
  - intros before d1 between d2 after -> Ho1 Ho2 Hid.
    rewrite get_optional_accumulated.
    unfold OptionalSpec.accumulated_paths, OptionalSpec.optional_definitions_of.
    rewrite List.filter_app. cbn [List.filter].
    rewrite bool_decide_eq_true_2 by (split; [exact Ho1 | reflexivity]).
    rewrite List.filter_app. cbn [List.filter].
    rewrite bool_decide_eq_true_2 by (split; [exact Ho2 | now symmetry]).
    match goal with
    | |- context [List.filter ?f before ++ d1 :: List.filter ?f between
                  ++ d2 :: List.filter ?f after] =>
        exists (concat (map paths (List.filter f before))),
               (concat (map paths (List.filter f between))),
               (concat (map paths (List.filter f after)));
        destruct (List.filter f before ++ d1 :: List.filter f between
                  ++ d2 :: List.filter f after) eqn:Hl;
        [now destruct (List.filter f before)|];
        rewrite <- Hl
    end.
    f_equal. rewrite map_app, concat_app. cbn [map concat].
    rewrite map_app, concat_app. cbn [map concat]. reflexivity.
  - intros d Ho. unfold get_optional_artifacts_per_task_id at 1.
    rewrite fold_left_app. cbn [fold_left]. unfold optional_step.
    rewrite (proj2 (optional_is_True_iff d) Ho). reflexivity.
  - intros before d after -> Ho. apply map_eq. intros task_id.
    rewrite !get_optional_accumulated.
    unfold OptionalSpec.accumulated_paths, OptionalSpec.optional_definitions_of.
    rewrite !List.filter_app. cbn [List.filter].
    rewrite bool_decide_eq_false_2; [reflexivity|]. intros [Ho' _]. now apply Ho.
Qed.

End OptionalArtifacts.

(** ** Upstream artifact resolution *)

Section Resolution.
Context `{Platform}.
Import Utils Artifacts UpstreamSpec.

Variable task_context : TaskContext.

Lemma for_each_app {A S} (f : A -> S -> M S) (l1 l2 : list A) (acc : S) (w : world) :
  for_each f (l1 ++ l2) acc w
  = match for_each f l1 acc w with
    | (Ok acc', w') => for_each f l2 acc' w'
    | (Raise e, w') => (Raise e, w')
    end.
Proof.
  revert acc w. induction l1 as [|x l1 IH]; intros acc w; [reflexivity|].
  cbn [app for_each]. unfold bind.
  destruct (f x acc w) as [[acc'|e] w']; [apply IH | reflexivity].
Qed.

Lemma record_all_lookup (entries : list (string * string))
    (d : gmap string (list string)) (task_id : string) :
  record_all d entries !! task_id
  = match List.filter (fun e => String.eqb (fst e) task_id) entries with
    | [] => d !! task_id
    | l => Some (default [] (d !! task_id) ++ map snd l)
    end.
Proof.
  revert d. induction entries as [|[k v] rest IH]; intros d; [reflexivity|].
  unfold record_all in *. cbn [fold_left List.filter fst snd]. rewrite IH.
  destruct (String.eqb k task_id) eqn:Hk.
  - apply String.eqb_eq in Hk. subst k.
    rewrite add_enumerable_lookup_eq. cbn [default]. unfold id.
    destruct (List.filter _ rest) as [|e l].
    + reflexivity.
    + cbn [map]. now rewrite <- app_assoc.
  - apply String.eqb_neq in Hk. now rewrite add_enumerable_lookup_ne.
Qed.

Lemma record_all_grouped (entries : list (string * string)) (task_id : string) :
  record_all ∅ entries !! task_id = grouped entries task_id.
Proof.
  rewrite record_all_lookup, lookup_empty. unfold grouped.
  destruct (List.filter _ entries); reflexivity.
Qed.

(** The test [path in optional_artifacts_per_task_id.get(task_id, [])]. *)
Lemma optional_test (upstream : list artifact_definition) (pair : string * string) :
  bool_decide (snd pair ∈ default [] (get_optional_artifacts_per_task_id upstream
                                        !! fst pair))
  = marked_optional upstream pair.
Proof.
  rewrite get_optional_lookup. unfold marked_optional.
  generalize (optional_definitions upstream (fst pair)) as ds.
  intros ds. apply eq_true_iff_eq. rewrite bool_decide_eq_true, existsb_exists.
  destruct ds as [|d ds].
  - cbn. split; [intros Hin; inversion Hin | intros (x & [] & _)].
  - cbn [default]. unfold id.
    rewrite list_elem_of_In, <- flat_map_concat_map, in_flat_map.
    split; intros (x & Hx & Hp); exists x; split; try assumption.
    + apply bool_decide_eq_true. now apply list_elem_of_In.
    + apply bool_decide_eq_true in Hp. now apply list_elem_of_In in Hp.
Qed.

Lemma nested_loops_flat (opt : gmap string (list string))
    (upstream : list artifact_definition) (acc : resolution) (w : world) :
  for_each
    (fun tp acc => for_each (resolve_path task_context opt (fst tp)) (snd tp) acc)
    (map (fun d => (taskId d, paths d)) upstream) acc w
  = for_each (resolve_pair task_context opt) (declared_pairs upstream) acc w.
Proof.
  revert acc w. induction upstream as [|d rest IH]; intros acc w; [reflexivity|].
  cbn [map for_each declared_pairs flat_map]. rewrite for_each_app.
  unfold bind. cbn [fst snd].
  assert (Hin : forall ps a w0,
             for_each (resolve_path task_context opt (taskId d)) ps a w0
             = for_each (resolve_pair task_context opt) (map (fun path => (taskId d, path)) ps) a w0).
  { induction ps as [|p ps IHp]; intros a w0; [reflexivity|].
    cbn [map for_each]. unfold bind, resolve_pair at 1. cbn [fst snd].
    destruct (resolve_path task_context opt (taskId d) p a w0) as [[a'|e] w1];
      [apply IHp | reflexivity]. }
  rewrite Hin.
  destruct (for_each (resolve_pair task_context opt) _ acc w) as [[acc'|e] w'];
    [apply IH | reflexivity].
Qed.

Lemma resolve_pair_run (opt : gmap string (list string)) (pair : string * string)
    (acc : resolution) (w : world) :
  resolve_pair task_context opt pair acc w
  = let full := get_single_upstream_artifact_full_path task_context (fst pair) (snd pair) in
    let w' := log_io (EvExists full) w in
    if present task_context w pair then
      (Ok (add_enumerable_item_to_dict (fst acc) (fst pair) (Item full), snd acc), w')
    else if bool_decide (snd pair ∈ default [] (opt !! fst pair)) then
      (Ok (fst acc, add_enumerable_item_to_dict (snd acc) (fst pair) (Item (snd pair))), w')
    else (Raise (ScriptWorkerTaskException (missing_message task_context pair)), w').
Proof.
  unfold resolve_pair, resolve_path, get_and_check_single_upstream_artifact_full_path,
    bind, os_path_exists, present. cbn zeta.
  destruct (bool_decide (is_Some _)); cbn [negb]; reflexivity.
Qed.

Lemma present_same_fs (w1 w2 : world) (pair : string * string) :
  fs w1 = fs w2 -> present task_context w1 pair = present task_context w2 pair.
Proof. unfold present. now intros ->. Qed.

(** The loop, when every missing pair is optional. *)
Lemma resolve_all_ok (upstream : list artifact_definition) (w0 : world)
    (pairs : list (string * string)) :
  (forall q, In q pairs -> present task_context w0 q = false ->
             marked_optional upstream q = true) ->
  forall (acc : resolution) (w : world), fs w = fs w0 ->
  for_each (resolve_pair task_context (get_optional_artifacts_per_task_id upstream))
           pairs acc w
  = (Ok (record_all (fst acc)
           (map (full_path_entry task_context)
                (List.filter (present task_context w0) pairs)),
         record_all (snd acc)
           (List.filter (fun q => negb (present task_context w0 q)) pairs)),
     {| fs := fs w; trace := trace w ++ exists_events task_context pairs |}).
Proof.
  induction pairs as [|q pairs IH]; intros Hall acc w Hfs.
  - cbn. rewrite app_nil_r. destruct acc, w. reflexivity.
  - cbn [for_each]. unfold bind. rewrite resolve_pair_run. cbn zeta.
    rewrite (present_same_fs w w0 q Hfs), optional_test.
    cbn [List.filter exists_events map].
    destruct (present task_context w0 q) eqn:Hp; cbn [negb].
    + rewrite IH; [|intros; apply Hall; [now right | assumption] | exact Hfs].
      cbn [fst snd log_io fs trace map]. unfold record_all at 1. cbn [fold_left].
      now rewrite <- app_assoc.
    + rewrite (Hall q (or_introl eq_refl) Hp).
      rewrite IH; [|intros; apply Hall; [now right | assumption] | exact Hfs].
      cbn [fst snd log_io fs trace map]. unfold record_all at 2. cbn [fold_left].
      now rewrite <- app_assoc.
Qed.

(** The loop, up to and including the first pair that is missing and not
    optional. *)
Lemma resolve_all_raise (upstream : list artifact_definition) (w : world)
    (pre post : list (string * string)) (p : string * string) (acc : resolution) :
  (forall q, In q pre -> present task_context w q = false ->
             marked_optional upstream q = true) ->
  present task_context w p = false ->
  marked_optional upstream p = false ->
  for_each (resolve_pair task_context (get_optional_artifacts_per_task_id upstream))
           (pre ++ p :: post) acc w
  = (Raise (ScriptWorkerTaskException (missing_message task_context p)),
     {| fs := fs w;
        trace := trace w ++ exists_events task_context (pre ++ [p]) |}).
Proof.
  intros Hpre Hp Hopt. rewrite for_each_app.
  rewrite (resolve_all_ok upstream w pre Hpre acc w eq_refl).
  cbn [for_each]. unfold bind. rewrite resolve_pair_run. cbn zeta.
  match goal with
  | |- context [present task_context ?w1 p] =>
      rewrite (present_same_fs w1 w p eq_refl)
  end.
  rewrite Hp, optional_test, Hopt.
  unfold log_io. cbn [fs trace]. unfold exists_events. rewrite map_app. cbn [map].
  now rewrite <- app_assoc.
Qed.

(** The first pair that fails a test. *)
Lemma first_failing {A} (ok : A -> bool) (l : list A) (x : A) :
  In x l -> ok x = false ->
  exists pre y post, l = pre ++ y :: post /\ ok y = false
                     /\ forall z, In z pre -> ok z = true.
Proof.
  induction l as [|a l IH]; intros Hin Hx; [contradiction|].
  destruct (ok a) eqn:Ha.
  - destruct Hin as [-> | Hin]; [congruence|].
    destruct (IH Hin Hx) as (pre & y & post & -> & Hy & Hpre).
    exists (a :: pre), y, post. split; [reflexivity|]. split; [assumption|].
    intros z [<- | Hz]; auto.
  - exists [], a, l. split; [reflexivity|]. split; [assumption|]. intros z [].
Qed.

Lemma resolution_unfold (w : world) :
  get_upstream_artifacts_full_paths_per_task_id task_context w
  = for_each
      (resolve_pair task_context
         (get_optional_artifacts_per_task_id (upstreamArtifacts (task task_context))))
      (declared_pairs (upstreamArtifacts (task task_context))) (∅, ∅) w.
Proof.
  unfold get_upstream_artifacts_full_paths_per_task_id. apply nested_loops_flat.
Qed.

(** C5. Resolution checks the declared pairs in order. At the first pair
    whose file is missing and which is not marked optional it raises a
    [ScriptWorkerTaskException] (never retried) whose message names the
    missing full path, without checking any later pair; so it raises
    whenever such a pair exists. If every missing pair is optional it
    returns two dicts keyed by task id: the full paths of the pairs found
    and the relative paths of the optional pairs not found. *)
Theorem get_upstream_artifacts_full_paths_per_task_id_resolution (w : world) :
  let upstream := upstreamArtifacts (task task_context) in
  let pairs := declared_pairs upstream in
  let run := get_upstream_artifacts_full_paths_per_task_id task_context w in
  (forall pre p post,
      pairs = pre ++ p :: post ->
      (forall q, In q pre -> present task_context w q = false ->
                 marked_optional upstream q = true) ->
      present task_context w p = false ->
      marked_optional upstream p = false ->
      run = (Raise (ScriptWorkerTaskException (missing_message task_context p)),
             {| fs := fs w;
                trace := trace w ++ exists_events task_context (pre ++ [p]) |}))
  /\ (forall p,
         In p pairs -> present task_context w p = false ->
         marked_optional upstream p = false ->
         exists q,
           In q pairs /\ present task_context w q = false
           /\ marked_optional upstream q = false
           /\ fst run = Raise (ScriptWorkerTaskException (missing_message task_context q))
           /\ is_download_retry_exception
                (ScriptWorkerTaskException (missing_message task_context q)) = false
           /\ is_create_retry_exception
                (ScriptWorkerTaskException (missing_message task_context q)) = false)
  /\ ((forall q, In q pairs -> present task_context w q = false ->
                 marked_optional upstream q = true) ->
      exists existing failed,
        run = (Ok (existing, failed),
               {| fs := fs w; trace := trace w ++ exists_events task_context pairs |})
        /\ forall task_id,
             existing !! task_id
             = grouped (map (full_path_entry task_context)
                            (List.filter (present task_context w) pairs)) task_id
             /\ failed !! task_id
                = grouped (List.filter (fun q => negb (present task_context w q)) pairs)
                          task_id).
Proof.
  intros upstream pairs run. subst run. rewrite resolution_unfold.
  fold upstream. fold pairs.
  assert (Hfirst : forall pre p post,
             pairs = pre ++ p :: post ->
             (forall q, In q pre -> present task_context w q = false ->
                        marked_optional upstream q = true) ->
             present task_context w p = false ->
             marked_optional upstream p = false ->
             for_each (resolve_pair task_context
                         (get_optional_artifacts_per_task_id upstream)) pairs (∅, ∅) w
             = (Raise (ScriptWorkerTaskException (missing_message task_context p)),
                {| fs := fs w;
                   trace := trace w ++ exists_events task_context (pre ++ [p]) |})).
  { intros pre p post -> Hpre Hp Hopt. now apply resolve_all_raise. }
  split; [exact Hfirst|]. split.
  - intros p Hin Hp Hopt.
    destruct (first_failing
                (fun q => present task_context w q || marked_optional upstream q)
                pairs p Hin) as (pre & q & post & Heq & Hq & Hpre).
    { now rewrite Hp, Hopt. }
    apply orb_false_iff in Hq as [Hq1 Hq2].
    exists q. split; [rewrite Heq; apply in_or_app; right; now left|].
    split; [assumption|]. split; [assumption|].
    rewrite (Hfirst pre q post Heq); [now repeat split| |assumption|assumption].
    intros z Hz Hzp. specialize (Hpre z Hz). rewrite Hzp in Hpre. exact Hpre.
  - intros Hall. eexists _, _. split.
    + apply (resolve_all_ok upstream w pairs Hall (∅, ∅) w eq_refl).
    + intros task_id. cbn [fst snd]. now rewrite !record_all_grouped.
Qed.

End Resolution.

(** ** Paths *)

Section PathFacts.
Import PyStr PosixPath CotRoot.

Lemma prefix_cons (a b : ascii) (s1 s2 : string) :
  String.prefix (String a s1) (String b s2)
  = if ascii_dec a b then String.prefix s1 s2 else false.
Proof. reflexivity. Qed.

Lemma prefix_empty (s : string) : String.prefix "" s = true.
Proof. now destruct s. Qed.

Lemma prefix_app (a b : string) : String.prefix a (a +:+ b) = true.
Proof.
  induction a as [|c a IH]; [apply prefix_empty|].
  rewrite string_app_cons, prefix_cons.
  destruct (ascii_dec c c); [exact IH | congruence].
Qed.

Lemma startswith_sep_cons (c : ascii) (s : string) :
  startswith (String c s) sep = Ascii.eqb c "/".
Proof.
  unfold startswith, sep. rewrite prefix_cons, prefix_empty.
  destruct (ascii_dec "/" c) as [<-|Hne]; [reflexivity|].
  symmetry. apply Ascii.eqb_neq. congruence.
Qed.

Lemma app_cons_not_empty (a b : string) (c : ascii) :
  String.eqb (a +:+ String c b) "" = false.
Proof. destruct a; reflexivity. Qed.

Lemma app_not_empty_r (a b : string) : b <> "" -> a +:+ b <> "".
Proof. destruct a; [now rewrite string_app_nil_l | now rewrite string_app_cons]. Qed.

Lemma eqb_empty_false (s : string) : s <> "" -> String.eqb s "" = false.
Proof. intros Hne. now apply String.eqb_neq. Qed.

Lemma last_char_app (a b : string) : b <> "" -> last_char (a +:+ b) = last_char b.
Proof.
  intros Hb. induction a as [|c a IH]; [reflexivity|].
  rewrite string_app_cons. cbn [last_char]. rewrite IH.
  destruct (a +:+ b) eqn:E; [|reflexivity].
  exfalso. now apply (app_not_empty_r a b Hb).
Qed.

Lemma slash_free_last_char (s : string) :
  slash_free s = true -> last_char s <> Some "/"%char.
Proof.
  induction s as [|c s IH]; [discriminate|].
  cbn [slash_free]. intros Hs. apply andb_true_iff in Hs as [Hc Hs].
  cbn [last_char]. destruct s; [|now apply IH].
  intros [= ->]. discriminate.
Qed.

Lemma slash_free_not_abs (s : string) :
  slash_free s = true -> startswith s sep = false.
Proof.
  destruct s as [|c s]; [reflexivity|]. cbn [slash_free]. intros Hs.
  apply andb_true_iff in Hs as [Hc _]. rewrite startswith_sep_cons.
  now apply negb_true_iff.
Qed.

Lemma split_slash_cons (s : string) : exists x xs, split_slash s = x :: xs.
Proof.
  induction s as [|c s (x & xs & IH)]; [now exists "", []|].
  cbn [split_slash]. rewrite IH. destruct (Ascii.eqb c "/"); eauto.
Qed.

Lemma split_slash_app (a b : string) :
  split_slash (a +:+ "/" +:+ b) = split_slash a ++ split_slash b.
Proof.
  induction a as [|c a IH]; [reflexivity|].
  rewrite string_app_cons. cbn [split_slash]. rewrite IH.
  destruct (Ascii.eqb c "/"); [reflexivity|].
  destruct (split_slash_cons a) as (x & xs & ->). reflexivity.
Qed.

Lemma split_slash_free (s : string) :
  slash_free s = true -> split_slash s = [s].
Proof.
  induction s as [|c s IH]; [reflexivity|].
  cbn [slash_free split_slash]. intros Hs. apply andb_true_iff in Hs as [Hc Hs].
  apply negb_true_iff in Hc. rewrite Hc, (IH Hs). reflexivity.
Qed.

Lemma norm_step_push (init : nat) (st : list string) (comp : string) :
  String.eqb comp dotdot = false ->
  norm_step init st comp = if kept comp then st ++ [comp] else st.
Proof.
  intros Hdd. unfold norm_step, kept. rewrite Hdd.
  destruct (String.eqb comp "" || String.eqb comp dot); reflexivity.
Qed.

Lemma norm_fold_no_dotdot (init : nat) (comps st : list string) :
  forallb (fun comp => negb (String.eqb comp "..")) comps = true ->
  fold_left (norm_step init) comps st = st ++ List.filter kept comps.
Proof.
  revert st. induction comps as [|c comps IH]; intros st Hall.
  - cbn. now rewrite app_nil_r.
  - cbn [forallb] in Hall. apply andb_true_iff in Hall as [Hc Hall].
    apply negb_true_iff in Hc. cbn [fold_left List.filter].
    rewrite (norm_step_push init st c Hc), (IH _ Hall).
    destruct (kept c); [now rewrite <- app_assoc | reflexivity].
Qed.

Lemma join_slash_app (l r : list string) :
  l <> [] -> r <> [] ->
  join_slash (l ++ r) = join_slash l +:+ "/" +:+ join_slash r.
Proof.
  intros Hl Hr. induction l as [|x l IH]; [contradiction|].
  destruct l as [|y l].
  - destruct r; [contradiction | reflexivity].
  - change (join_slash ((x :: y :: l) ++ r))
      with (x +:+ "/" +:+ join_slash ((y :: l) ++ r)).
    rewrite IH by discriminate.
    change (join_slash (x :: y :: l)) with (x +:+ "/" +:+ join_slash (y :: l)).
    now rewrite !string_app_assoc.
Qed.

Lemma join_slash_snoc_not_empty (l : list string) (x : string) :
  x <> "" -> join_slash (l ++ [x]) <> "".
Proof.
  intros Hx. destruct l as [|y l]; [exact Hx|].
  rewrite join_slash_app by discriminate.
  apply app_not_empty_r. discriminate.
Qed.

Lemma or_else_not_empty (s d : string) : s <> "" -> or_else s d = s.
Proof. intros Hs. unfold or_else. now rewrite eqb_empty_false. Qed.

Lemma startswith_cons (c d : ascii) (s p : string) :
  startswith (String c s) (String d p) = Ascii.eqb c d && startswith s p.
Proof.
  unfold startswith. rewrite prefix_cons.
  destruct (ascii_dec d c) as [<-|Hne].
  - now rewrite Ascii.eqb_refl.
  - assert (Ascii.eqb c d = false) as -> by (apply Ascii.eqb_neq; congruence).
    reflexivity.
Qed.

Lemma startswith_nil_l (d : ascii) (p : string) : startswith "" (String d p) = false.
Proof. reflexivity. Qed.

Lemma startswith_empty (s : string) : startswith s "" = true.
Proof. apply prefix_empty. Qed.

(** What follows the first character that is not a slash does not count. *)
Lemma initial_slashes_stable (z : string) (c : ascii) (r1 r2 : string) :
  Ascii.eqb c "/" = false ->
  initial_slashes (z +:+ String c r1) = initial_slashes (z +:+ String c r2).
Proof.
  intros Hc. unfold initial_slashes, sep.
  change ("/" +:+ "/" +:+ "/") with "///". change ("/" +:+ "/") with "//".
  destruct z as [|x [|y [|u z]]];
    rewrite ?string_app_cons, ?string_app_nil_l,
      ?startswith_cons, ?startswith_empty, ?startswith_nil_l, ?Hc,
      ?andb_false_r, ?andb_true_r;
    reflexivity.
Qed.

(** Joining onto an absolute path gives an absolute path. *)

Lemma startswith_sep_app (a b : string) :
  startswith a sep = true -> startswith (a +:+ b) sep = true.
Proof.
  destruct a as [|c a]; [discriminate|].
  now rewrite string_app_cons, !startswith_sep_cons.
Qed.

Lemma join_step_abs (a b : string) :
  isabs a = true -> isabs (join_step a b) = true.
Proof.
  unfold isabs, join_step. intros Ha.
  destruct (startswith b sep) eqn:Hb; [exact Hb|].
  destruct (String.eqb a "" || endswith a sep); now apply startswith_sep_app.
Qed.

Lemma join_abs (a : string) (l : list string) :
  isabs a = true -> isabs (join a l) = true.
Proof.
  revert a. induction l as [|b l IH]; intros a Ha; [exact Ha|].
  unfold join. cbn [fold_left]. apply IH. now apply join_step_abs.
Qed.

End PathFacts.

(** ** The download root of upstream artifacts *)

Section CotRootFacts.
Context `{Platform}.
Import PyStr PosixPath CotRoot Artifacts.

Lemma plain_component_inv (s : string) :
  plain_component s = true ->
  slash_free s = true /\ s <> "" /\ kept s = true /\ String.eqb s dotdot = false
  /\ exists c t, s = String c t /\ Ascii.eqb c "/" = false.
Proof.
  unfold plain_component, kept, dot, dotdot. intros Hs.
  apply andb_true_iff in Hs as [Hs H4]. apply andb_true_iff in Hs as [Hs H3].
  apply andb_true_iff in Hs as [H1 H2].
  apply negb_true_iff in H2, H3, H4.
  split; [assumption|]. split; [now apply String.eqb_neq|].
  split; [now rewrite H2, H3|]. split; [assumption|].
  destruct s as [|c t]; [discriminate|]. exists c, t. split; [reflexivity|].
  cbn [slash_free] in H1. apply andb_true_iff in H1 as [H1 _].
  now apply negb_true_iff.
Qed.

Lemma join_cot_not_empty (wd : string) : join_step wd "cot" <> "".
Proof.
  unfold join_step. change (startswith "cot" sep) with false. cbn match.
  destruct (String.eqb wd "" || endswith wd sep);
    [|rewrite <- string_app_assoc]; apply app_not_empty_r; discriminate.
Qed.

(** [join(work_dir, 'cot', task_id)] ends in [/task_id]. *)
Lemma base_shape (wd task_id : string) :
  plain_component task_id = true ->
  exists y, join wd ["cot"; task_id] = y +:+ "/" +:+ task_id.
Proof.
  intros Hp. destruct (plain_component_inv _ Hp) as (Hsf & _ & _ & _ & _).
  unfold join. cbn [fold_left]. unfold join_step at 1.
  rewrite (slash_free_not_abs _ Hsf).
  destruct (String.eqb (join_step wd "cot") "") eqn:Eempty.
  - apply String.eqb_eq in Eempty. now destruct (join_cot_not_empty wd).
  - cbn [orb]. destruct (endswith (join_step wd "cot") sep) eqn:Eend.
    + destruct (endswith_inv _ _ Eend) as [y ->]. exists y.
      now rewrite string_app_assoc.
    + now exists (join_step wd "cot").
Qed.

(** A relative [path] is appended to it after one separator. *)
Lemma full_shape (wd task_id path y : string) :
  plain_component task_id = true ->
  isabs path = false ->
  join wd ["cot"; task_id] = y +:+ "/" +:+ task_id ->
  join wd ["cot"; task_id; path] = y +:+ "/" +:+ task_id +:+ "/" +:+ path.
Proof.
  intros Hp Hrel Hbase.
  destruct (plain_component_inv _ Hp) as (Hsf & Hne & _ & _ & _).
  change (join wd ["cot"; task_id; path])
    with (join_step (join wd ["cot"; task_id]) path).
  rewrite Hbase. unfold join_step. unfold isabs in Hrel. rewrite Hrel.
  assert (Hnot_empty : String.eqb (y +:+ "/" +:+ task_id) "" = false)
    by apply app_cons_not_empty.
  assert (Hnot_sep : endswith (y +:+ "/" +:+ task_id) sep = false).
  { destruct (endswith _ sep) eqn:E; [|reflexivity]. exfalso.
    apply endswith_last_char in E; [|discriminate].
    rewrite last_char_app in E by (apply app_not_empty_r; exact Hne).
    rewrite last_char_app in E by exact Hne.
    now apply (slash_free_last_char _ Hsf). }
  rewrite Hnot_empty, Hnot_sep. cbn [orb]. unfold sep.
  now rewrite !string_app_assoc.
Qed.

(** [abspath] prepends the same thing whatever follows the task id. *)
Lemma abspath_shape (cwd y task_id : string) :
  exists z, forall rest,
    abspath cwd (y +:+ "/" +:+ task_id +:+ rest)
    = normpath (z +:+ "/" +:+ task_id +:+ rest).
Proof.
  unfold abspath, isabs. destruct y as [|c y].
  - exists "". intros rest. rewrite string_app_nil_l.
    change ("/" +:+ task_id +:+ rest) with (String "/" (task_id +:+ rest)).
    now rewrite startswith_sep_cons.
  - destruct (Ascii.eqb c "/") eqn:Ec.
    + exists (String c y). intros rest.
      now rewrite string_app_cons, startswith_sep_cons, Ec.
    + destruct (String.eqb cwd "" || endswith cwd sep) eqn:Ecwd.
      * exists (cwd +:+ String c y). intros rest.
        rewrite string_app_cons, startswith_sep_cons, Ec.
        unfold join. cbn [fold_left]. unfold join_step.
        rewrite startswith_sep_cons, Ec, Ecwd.
        now rewrite <- string_app_cons, !string_app_assoc.
      * exists (cwd +:+ "/" +:+ String c y). intros rest.
        rewrite string_app_cons, startswith_sep_cons, Ec.
        unfold join. cbn [fold_left]. unfold join_step.
        rewrite startswith_sep_cons, Ec, Ecwd. unfold sep.
        now rewrite <- string_app_cons, !string_app_assoc.
Qed.

Lemma initial_slashes_rest (z task_id rest : string) :
  plain_component task_id = true ->
  initial_slashes (z +:+ "/" +:+ task_id +:+ rest)
  = initial_slashes (z +:+ "/" +:+ task_id).
Proof.
  intros Hp. destruct (plain_component_inv _ Hp) as (_ & _ & _ & _ & c & t & -> & Hc).
  rewrite (string_app_cons c t rest), <- !(string_app_assoc z "/").
  now apply initial_slashes_stable.
Qed.

(** The components [normpath] is left with after [z/task_id]. *)
Lemma norm_fold_base (init : nat) (z task_id : string) :
  plain_component task_id = true ->
  fold_left (norm_step init) (split_slash (z +:+ "/" +:+ task_id)) []
  = fold_left (norm_step init) (split_slash z) [] ++ [task_id].
Proof.
  intros Hp. destruct (plain_component_inv _ Hp) as (Hsf & _ & Hk & Hdd & _).
  rewrite split_slash_app, fold_left_app, (split_slash_free _ Hsf).
  cbn [fold_left]. now rewrite (norm_step_push _ _ _ Hdd), Hk.
Qed.

Lemma norm_fold_full (init : nat) (z task_id path : string) :
  plain_component task_id = true ->
  no_dotdot path = true ->
  fold_left (norm_step init) (split_slash (z +:+ "/" +:+ task_id +:+ "/" +:+ path)) []
  = (fold_left (norm_step init) (split_slash z) [] ++ [task_id])
      ++ List.filter kept (split_slash path).
Proof.
  intros Hp Hnd. rewrite <- (norm_fold_base init z task_id Hp).
  rewrite <- (norm_fold_no_dotdot init _ _ Hnd).
  rewrite <- fold_left_app, <- split_slash_app.
  now rewrite !string_app_assoc.
Qed.

Lemma sep_app_not_empty (z r : string) : String.eqb (z +:+ "/" +:+ r) "" = false.
Proof. exact (app_cons_not_empty z r "/"). Qed.

Lemma normpath_under (z task_id path : string) :
  plain_component task_id = true ->
  no_dotdot path = true ->
  falls_under (normpath (z +:+ "/" +:+ task_id))
              (normpath (z +:+ "/" +:+ task_id +:+ "/" +:+ path)) = true.
Proof.
  intros Hp Hnd. destruct (plain_component_inv _ Hp) as (_ & Hne & _).
  unfold normpath.
  rewrite !sep_app_not_empty. cbn zeta.
  rewrite (initial_slashes_rest z task_id ("/" +:+ path) Hp).
  set (init := initial_slashes (z +:+ "/" +:+ task_id)).
  rewrite (norm_fold_base init z task_id Hp), (norm_fold_full init z task_id path Hp Hnd).
  set (l := fold_left (norm_step init) (split_slash z) [] ++ [task_id]).
  assert (Hl : join_slash l <> "") by now apply join_slash_snoc_not_empty.
  assert (Hroot : or_else (slashes init +:+ join_slash l) dot
                  = slashes init +:+ join_slash l).
  { apply or_else_not_empty. now apply app_not_empty_r. }
  rewrite Hroot. unfold falls_under.
  destruct (List.filter kept (split_slash path)) as [|r rs] eqn:Er.
  - rewrite app_nil_r, Hroot, String.eqb_refl. reflexivity.
  - rewrite join_slash_app by (subst l; try discriminate;
                               intros E; now apply app_eq_nil in E as [_ E]).
    rewrite or_else_not_empty.
    + rewrite <- !string_app_assoc. unfold startswith.
      rewrite prefix_app. apply orb_true_r.
    + apply app_not_empty_r, app_not_empty_r. discriminate.
Qed.

Variable task_context : TaskContext.

Lemma get_and_check_run (task_id path : string) (w : world) :
  get_and_check_single_upstream_artifact_full_path task_context task_id path w
  = let abs_path := get_single_upstream_artifact_full_path task_context task_id path in
    (if bool_decide (is_Some (fs w !! abs_path)) then Ok abs_path
     else Raise (ScriptWorkerTaskException
                   ("upstream artifact with path: " +:+ abs_path +:+ ", does not exist")),
     log_io (EvExists abs_path) w).
Proof.
  unfold get_and_check_single_upstream_artifact_full_path, bind, os_path_exists.
  cbn zeta. destruct (bool_decide _); reflexivity.
Qed.

(** C1, as amended. [get_single_upstream_artifact_full_path] rejects
    nothing; for a task id that is an ordinary single path component and
    a relative path with no [..] component its result is
    [work_dir/cot/<task_id>] or lies below it. The checking variant
    rejects exactly the paths that do not exist on disk, whatever
    directory they resolve into, and it asks the filesystem before it
    does. *)
Theorem upstream_artifact_full_path_under_root (task_id path : string) (w : world) :
  (plain_component task_id = true ->
   isabs path = false ->
   no_dotdot path = true ->
   falls_under (cot_root task_context task_id)
               (get_single_upstream_artifact_full_path task_context task_id path) = true)
  /\ get_and_check_single_upstream_artifact_full_path task_context task_id path w
     = let abs_path := get_single_upstream_artifact_full_path task_context task_id path in
       (if bool_decide (is_Some (fs w !! abs_path)) then Ok abs_path
        else Raise (ScriptWorkerTaskException
                      ("upstream artifact with path: " +:+ abs_path
                         +:+ ", does not exist")),
        log_io (EvExists abs_path) w).
Proof.
  split; [|apply get_and_check_run].
  intros Hp Hrel Hnd.
  unfold cot_root, get_single_upstream_artifact_full_path.
  destruct (base_shape (work_dir task_context) task_id Hp) as [y Hy].
  rewrite (full_shape _ _ _ y Hp Hrel Hy), Hy.
  destruct (abspath_shape os_getcwd y task_id) as [z Hz].
  rewrite (Hz ("/" +:+ path)).
  pose proof (Hz "") as Hz0. rewrite string_app_nil_r in Hz0. rewrite Hz0.
  now apply normpath_under.
Qed.

End CotRootFacts.

(** C1, as stated, fails: a relative path with [..] components resolves
    outside [work_dir/cot/<task_id>], and is returned, not rejected; the
    checking variant accepts it once the filesystem says it exists. *)
Lemma path_traversal_is_not_rejected :
  let full := @Artifacts.get_single_upstream_artifact_full_path Demo.platform
                (Demo.context 0) "T1" "../../etc/passwd" in
  full = "/w/etc/passwd"
  /\ @CotRoot.cot_root Demo.platform (Demo.context 0) "T1" = "/w/cot/T1"
  /\ CotRoot.falls_under (@CotRoot.cot_root Demo.platform (Demo.context 0) "T1") full = false
  /\ @Artifacts.get_and_check_single_upstream_artifact_full_path Demo.platform
       (Demo.context 0) "T1" "../../etc/passwd" Demo.the_world
     = (Ok "/w/etc/passwd", log_io (EvExists "/w/etc/passwd") Demo.the_world).
Proof. vm_compute. repeat split; reflexivity. Qed.

(** ** Retries *)

Section Retry.
Import Utils.

Lemma retry_loop_unfold {A} (func : M A) (retry : exn -> bool) (n : nat) (w : world) :
  retry_loop func retry n w
  = if transient_failure retry (fst (func w)) then
      match n with
      | O => func w
      | S n' => retry_loop func retry n' (snd (func w))
      end
    else func w.
Proof.
  destruct n; cbn [retry_loop]; destruct (func w) as [[a|e] w']; cbn;
    try reflexivity; destruct (retry e); reflexivity.
Qed.

Lemma nth_attempt_S {A} (func : M A) (k : nat) (w : world) :
  nth_attempt func (S k) w = nth_attempt func k (snd (func w)).
Proof. unfold nth_attempt. now rewrite Nat.iter_succ_r. Qed.

(** The loop stops at the first invocation that does not fail
    transiently, or at the last one allowed. *)
Lemma retry_loop_stops {A} (func : M A) (retry : exn -> bool) (n k : nat) (w : world) :
  k <= n ->
  (forall j, j < k -> transient_failure retry (fst (nth_attempt func j w)) = true) ->
  k = n \/ transient_failure retry (fst (nth_attempt func k w)) = false ->
  retry_loop func retry n w = nth_attempt func k w.
Proof.
  revert k w. induction n as [|n IH]; intros k w Hle Hbefore Hstop.
  - assert (k = 0) as -> by lia. rewrite retry_loop_unfold.
    destruct (transient_failure _ _); reflexivity.
  - rewrite retry_loop_unfold. destruct k as [|k].
    + destruct Hstop as [Hstop | Hstop]; [discriminate|].
      unfold nth_attempt in Hstop. simpl in Hstop. now rewrite Hstop.
    + pose proof (Hbefore 0 ltac:(lia)) as H0.
      unfold nth_attempt in H0. simpl in H0. rewrite H0, nth_attempt_S.
      apply IH; [lia | |].
      * intros j Hj. rewrite <- nth_attempt_S. apply Hbefore. lia.
      * destruct Hstop as [Hstop | Hstop]; [left; lia | right].
        now rewrite <- nth_attempt_S.
Qed.

End Retry.

(** ** Uploading one artifact *)

Section CreateArtifact.
Context `{Platform}.
Import Utils TaskHelpers Artifacts.

Variable task_context : TaskContext.

(** One attempt, when the queue hands out a URL, the file can be read and
    the server answers: only the status decides. *)
Lemma create_artifact_status (path target_path content_type : string)
    (content_encoding : option string) (w w1 w2 w3 : world)
    (url : string) (data : list byte) (status : nat) :
  createArtifact (queue task_context)
    (get_task_id (claim_task task_context)) (get_run_id (claim_task task_context))
    target_path
    {| storageType := "s3";
       payload_expires := get_expiration_arrow task_context;
       contentType := content_type |}
    (log_io (EvCreateArtifact target_path) w) = (Ok url, w1) ->
  read_bytes path w1 = (Ok data, w2) ->
  put (session task_context) url data
    (_craft_artifact_put_headers content_type content_encoding)
    (log_io (EvPut url) w2) = (Ok status, w3) ->
  create_artifact task_context path target_path content_type content_encoding
    "s3" None w
  = (if bool_decide (status ∈ [200; 204]) then Ok tt
     else Raise (ScriptWorkerRetryException ("Bad status " +:+ str_of_nat status)),
     w3).
Proof.
  intros Hq Hr Hp. unfold create_artifact, bind.
  rewrite Hq, Hr, Hp. destruct (bool_decide _); reflexivity.
Qed.

(** C9. A PUT answered with a status other than 200 or 204 makes
    [create_artifact] raise [ScriptWorkerRetryException]; 200 and 204
    make it return. [retry_create_artifact] retries it on
    [ScriptWorkerRetryException] and [aiohttp.ClientError], invoking it
    again after each such failure until an invocation succeeds or fails
    otherwise, or the attempt limit is reached; its outcome is then that
    of the last invocation, so an exhausted upload fails the batch with
    its last exception. *)
Theorem create_artifact_bad_status_is_retried
    (path target_path content_type : string) (content_encoding : option string)
    (w : world) :
  let attempt :=
    create_artifact task_context path target_path content_type content_encoding
      "s3" None in
  (forall w1 w2 w3 url data status,
      createArtifact (queue task_context)
        (get_task_id (claim_task task_context)) (get_run_id (claim_task task_context))
        target_path
        {| storageType := "s3";
           payload_expires := get_expiration_arrow task_context;
           contentType := content_type |}
        (log_io (EvCreateArtifact target_path) w) = (Ok url, w1) ->
      read_bytes path w1 = (Ok data, w2) ->
      put (session task_context) url data
        (_craft_artifact_put_headers content_type content_encoding)
        (log_io (EvPut url) w2) = (Ok status, w3) ->
      attempt w
      = (if bool_decide (status = 200 \/ status = 204) then Ok tt
         else Raise (ScriptWorkerRetryException ("Bad status " +:+ str_of_nat status)),
         w3))
  /\ (forall msg,
         is_create_retry_exception (ScriptWorkerRetryException msg) = true
         /\ is_create_retry_exception (ClientError msg) = true)
  /\ (forall k,
         k <= retry_attempts - 1 ->
         (forall j, j < k ->
            transient_failure is_create_retry_exception
              (fst (nth_attempt attempt j w)) = true) ->
         k = retry_attempts - 1
         \/ transient_failure is_create_retry_exception
              (fst (nth_attempt attempt k w)) = false ->
         retry_create_artifact task_context path target_path content_type
           content_encoding w
         = nth_attempt attempt k w).
Proof.
  intros attempt. split; [|split].
  - intros w1 w2 w3 url data status Hq Hr Hp. subst attempt.
    rewrite (create_artifact_status _ _ _ _ _ _ _ _ _ _ _ Hq Hr Hp).
    f_equal. apply (f_equal (fun b : bool => if b then _ else _)).
    apply bool_decide_ext.
    rewrite !elem_of_cons, elem_of_nil. tauto.
  - intros msg. split; reflexivity.
  - intros k Hk Hbefore Hstop. unfold retry_create_artifact, retry_async.
    now apply retry_loop_stops.
Qed.

End CreateArtifact.

(** ** Batches of futures *)

Section Batches.
Context `{Platform}.
Import Utils.

Lemma run_all_outcomes (tasks : list (M unit)) (w : world) :
  Forall2 (fun task r => exists w_i, r = fst (task w_i)) tasks (fst (run_all tasks w)).
Proof.
  revert w. induction tasks as [|t ts IH]; intros w; cbn [run_all].
  - constructor.
  - destruct (t w) as [r w1] eqn:Et. specialize (IH w1).
    destruct (run_all ts w1) as [rs w2]. cbn [fst] in *.
    constructor; [|exact IH]. exists w. now rewrite Et.
Qed.

Lemma first_exception_in (done : list (result unit)) (e : exn) :
  first_exception done = Some e -> In (Raise e) done.
Proof.
  induction done as [|[u|e'] done IH]; cbn [first_exception]; intros Hf.
  - discriminate.
  - right. now apply IH.
  - injection Hf as ->. now left.
Qed.

Lemma first_exception_none (done : list (result unit)) :
  first_exception done = None <-> (forall r, In r done -> is_ok r = true).
Proof.
  induction done as [|[u|e'] done IH]; cbn [first_exception].
  - split; [intros _ r [] | reflexivity].
  - rewrite IH. split.
    + intros Hall r [<- | Hr]; [reflexivity | now apply Hall].
    + intros Hall r Hr. apply Hall. now right.
  - split; [discriminate|]. intros Hall.
    specialize (Hall (Raise e') (or_introl eq_refl)). discriminate.
Qed.

(** What the batch raises, for any order of inspection that forgets and
    invents nothing. *)
Lemma raise_future_exceptions_run (tasks : list (M unit)) (w : world) :
  (forall l, Permutation l (asyncio_done_order l)) ->
  let outcomes := fst (run_all tasks w) in
  snd (raise_future_exceptions tasks w) = snd (run_all tasks w)
  /\ ((exists e, In (Raise e) outcomes) ->
      exists e, fst (raise_future_exceptions tasks w) = Raise e
                /\ In (Raise e) outcomes
                /\ first_exception (asyncio_done_order outcomes) = Some e)
  /\ ((forall r, In r outcomes -> is_ok r = true) ->
      fst (raise_future_exceptions tasks w) = Ok tt).
Proof.
  intros Hperm outcomes. subst outcomes. unfold raise_future_exceptions.
  destruct (run_all tasks w) as [outcomes w2]. cbn [fst snd].
  destruct (first_exception (asyncio_done_order outcomes)) as [e|] eqn:Ef.
  - split; [reflexivity|]. split.
    + intros _. exists e. split; [reflexivity|]. split; [|reflexivity].
      apply first_exception_in in Ef.
      eapply Permutation_in; [symmetry; apply Hperm | exact Ef].
    + intros Hall. apply first_exception_in in Ef.
      apply (Permutation_in _ (Permutation_sym (Hperm outcomes))) in Ef.
      specialize (Hall _ Ef). discriminate.
  - split; [reflexivity|]. split; [|reflexivity].
    intros [e He]. exfalso.
    apply (Permutation_in _ (Hperm outcomes)) in He.
    pose proof (proj1 (first_exception_none _) Ef _ He) as Hok. discriminate.
Qed.

End Batches.

(** ** Uploading a batch *)

Section UploadBatch.
Context `{Platform}.
Import Utils Artifacts BatchSpec.

Variable task_context : TaskContext.

Lemma compress_content_type (path : string) (w w' : world)
    (ce : string * option string) :
  compress_artifact_if_supported path w = (Ok ce, w') ->
  fst ce = fst (guess_content_type_and_encoding path).
Proof.
  unfold compress_artifact_if_supported.
  destruct (guess_content_type_and_encoding path) as [ct enc].
  destruct (gzip_eligible ct enc).
  - unfold bind. destruct (read_bytes path w) as [[b|e] w1]; [|discriminate].
    destruct (gzip_write path b w1) as [[u|e] w2]; [|discriminate].
    unfold ret. now intros [= <- _].
  - unfold ret. now intros [= <- _].
Qed.

Lemma to_upload_future_ok (target_path : string) (w w' : world) (task : M unit) :
  to_upload_future task_context target_path w = (Ok task, w') ->
  upload_of task_context target_path task.
Proof.
  unfold to_upload_future, bind.
  destruct (compress_artifact_if_supported _ w) as [[ce|e] w1] eqn:Ec; [|discriminate].
  unfold ret. intros [= <- _]. exists (snd ce).
  now rewrite (compress_content_type _ _ _ _ Ec).
Qed.

Lemma scheduled_uploads (files : list string) (w w1 : world) (tasks : list (M unit)) :
  map_M (to_upload_future task_context) files w = (Ok tasks, w1) ->
  Forall2 (upload_of task_context) files tasks.
Proof.
  revert w w1 tasks. induction files as [|f files IH]; intros w w1 tasks; cbn [map_M].
  - unfold ret. intros [= <- _]. constructor.
  - unfold bind.
    destruct (to_upload_future task_context f w) as [[t|e] w'] eqn:Et; [|discriminate].
    destruct (map_M _ files w') as [[ts|e] w''] eqn:Ets; [|discriminate].
    unfold ret. intros [= <- _].
    constructor; [now apply (to_upload_future_ok _ _ _ _ Et) | now apply (IH _ _ _ Ets)].
Qed.

Lemma compress_on_file (path : string) (w : world) :
  regular_file w path ->
  exists ce w',
    compress_artifact_if_supported path w = (Ok ce, w')
    /\ forall p, regular_file w p -> regular_file w' p.
Proof.
  intros [b Hb].
  destruct (gzip_eligible (fst (guess_content_type_and_encoding path))
                          (snd (guess_content_type_and_encoding path))) eqn:Hel.
  - eexists _, _. split; [exact (compress_eligible path w b Hb Hel)|].
    intros p [c Hc]. unfold regular_file. cbn [fs].
    destruct (decide (path = p)) as [<- | Hne].
    + rewrite lookup_insert_eq. eauto.
    + rewrite lookup_insert_ne by exact Hne. eauto.
  - eexists _, _. split; [exact (compress_not_eligible path w Hel)|]. auto.
Qed.

Lemma map_M_cons {A B} (f : A -> M B) (x : A) (l : list A) (w : world) :
  map_M f (x :: l) w
  = match f x w with
    | (Ok y, w') =>
        match map_M f l w' with
        | (Ok ys, w'') => (Ok (y :: ys), w'')
        | (Raise e, w'') => (Raise e, w'')
        end
    | (Raise e, w') => (Raise e, w')
    end.
Proof.
  cbn [map_M]. unfold bind. destruct (f x w) as [[y|e] w']; [|reflexivity].
  destruct (map_M f l w') as [[ys|e] w'']; reflexivity.
Qed.

Lemma to_upload_future_run (target_path : string) (w : world) :
  to_upload_future task_context target_path w
  = match compress_artifact_if_supported
            (PosixPath.join (artifact_dir task_context) [target_path]) w with
    | (Ok ce, w') =>
        (Ok (retry_create_artifact task_context
               (PosixPath.join (artifact_dir task_context) [target_path])
               target_path (fst ce) (snd ce)), w')
    | (Raise e, w') => (Raise e, w')
    end.
Proof.
  unfold to_upload_future, bind.
  destruct (compress_artifact_if_supported _ w) as [[ce|e] w']; reflexivity.
Qed.

(** On files that exist, classification never raises: every upload gets
    scheduled. *)
Lemma scheduling_succeeds (files : list string) (w : world) :
  (forall f, In f files ->
             regular_file w (PosixPath.join (artifact_dir task_context) [f])) ->
  exists tasks w1, map_M (to_upload_future task_context) files w = (Ok tasks, w1).
Proof.
  revert w. induction files as [|f files IH]; intros w Hall.
  - now exists [], w.
  - destruct (compress_on_file _ w (Hall f (or_introl eq_refl))) as (ce & w' & Hc & Hkeep).
    destruct (IH w') as (ts & w1 & Hts).
    { intros g Hg. apply Hkeep, Hall. now right. }
    exists (retry_create_artifact task_context
              (PosixPath.join (artifact_dir task_context) [f]) f (fst ce) (snd ce) :: ts), w1.
    now rewrite map_M_cons, to_upload_future_run, Hc, Hts.
Qed.

(** C6. [upload_artifacts] over N existing files schedules N uploads, one
    [retry_create_artifact] per file; the batch runs each of them to its
    own outcome, whatever the others do; the world the call leaves is the
    one all these uploads left, on failure as on success; if some upload
    failed the call raises the first exception in the order of
    inspection, which is the exception of one of the failed uploads; if
    none failed it returns. *)
Theorem upload_artifacts_batch (files : list string) (w : world) :
  (forall l, Permutation l (asyncio_done_order l)) ->
  (forall f, In f files ->
             regular_file w (PosixPath.join (artifact_dir task_context) [f])) ->
  exists tasks w1,
    map_M (to_upload_future task_context) files w = (Ok tasks, w1)
    /\ length tasks = length files
    /\ Forall2 (upload_of task_context) files tasks
    /\ Forall2 (fun task r => exists w_i, r = fst (task w_i))
               tasks (fst (run_all tasks w1))
    /\ snd (upload_artifacts task_context files w) = snd (run_all tasks w1)
    /\ ((exists e, In (Raise e) (fst (run_all tasks w1))) ->
        exists e, fst (upload_artifacts task_context files w) = Raise e
                  /\ In (Raise e) (fst (run_all tasks w1))
                  /\ first_exception (asyncio_done_order (fst (run_all tasks w1)))
                     = Some e)
    /\ ((forall r, In r (fst (run_all tasks w1)) -> is_ok r = true) ->
        fst (upload_artifacts task_context files w) = Ok tt).
Proof.
  intros Hperm Hfiles.
  destruct (scheduling_succeeds files w Hfiles) as (tasks & w1 & Hsched).
  exists tasks, w1. split; [exact Hsched|].
  pose proof (scheduled_uploads _ _ _ _ Hsched) as Hup.
  split; [symmetry; exact (Forall2_length _ _ _ Hup)|].
  split; [exact Hup|].
  split; [apply run_all_outcomes|].
  unfold upload_artifacts, bind. rewrite Hsched.
  exact (raise_future_exceptions_run tasks w1 Hperm).
Qed.

End UploadBatch.

(** ** Downloading a batch *)

Section DownloadBatch.
Context `{Platform}.
Import Utils Client Artifacts BatchSpec.

Variable task_context : TaskContext.

Lemma validate_raise_inv (rules : string -> option (string * string))
    (ids : list string) (url : string) (e : exn) :
  validate_artifact_url rules ids url = Raise e ->
  e = ScriptWorkerTaskException ("Can't validate url " +:+ url).
Proof.
  unfold validate_artifact_url.
  destruct (rules url) as [[tid fp]|]; [|now intros [= <-]].
  destruct (_ && _); [discriminate | now intros [= <-]].
Qed.

Lemma validate_unlisted (rules : string -> option (string * string))
    (ids : list string) (url task_id filepath : string) :
  rules url = Some (task_id, filepath) ->
  task_id ∉ ids ->
  validate_artifact_url rules ids url
  = Raise (ScriptWorkerTaskException ("Can't validate url " +:+ url)).
Proof.
  intros Hr Hnot. unfold validate_artifact_url. rewrite Hr.
  now rewrite (bool_decide_eq_false_2 _ Hnot).
Qed.

(** The loop schedules the URLs in order, each after its validation, and
    stops at the first URL that fails it. *)
Lemma schedule_downloads_spec (rules : string -> option (string * string))
    (ids : list string) (parent : string) (urls : list string) :
  forall (tasks : list (string * string)) (files : list string),
  exists done rest new,
    urls = done ++ rest
    /\ Forall2 (download_of rules ids parent) done new
    /\ fst (schedule_downloads rules ids parent urls tasks files) = tasks ++ new
    /\ ((rest = []
         /\ snd (schedule_downloads rules ids parent urls tasks files)
            = Ok (files ++ map snd new))
        \/ (exists u rest' e,
               rest = u :: rest'
               /\ validate_artifact_url rules ids u = Raise e
               /\ snd (schedule_downloads rules ids parent urls tasks files)
                  = Raise e)).
Proof.
  induction urls as [|u urls IH]; intros tasks files.
  - exists [], [], []. cbn. rewrite !app_nil_r.
    split; [reflexivity|]. split; [constructor|]. split; [reflexivity|]. now left.
  - cbn [schedule_downloads].
    destruct (validate_artifact_url rules ids u) as [rel|e] eqn:Ev.
    + destruct (IH (tasks ++ [(u, PosixPath.join parent [rel])])
                  (files ++ [PosixPath.join parent [rel]]))
        as (done & rest & new & -> & Hnew & Hfst & Hsnd).
      exists (u :: done), rest, ((u, PosixPath.join parent [rel]) :: new).
      split; [reflexivity|].
      split; [constructor; [now exists rel | exact Hnew]|].
      split; [now rewrite Hfst, <- app_assoc|].
      destruct Hsnd as [[-> Hok] | Hbad]; [left | right; exact Hbad].
      split; [reflexivity|]. rewrite Hok. cbn [map snd]. now rewrite <- app_assoc.
    + exists [], (u :: urls), []. cbn. rewrite app_nil_r.
      split; [reflexivity|]. split; [constructor|]. split; [reflexivity|].
      right. now exists u, urls, e.
Qed.

Lemma download_of_inj (rules : string -> option (string * string))
    (ids : list string) (parent : string) (urls : list string)
    (t1 t2 : list (string * string)) :
  Forall2 (download_of rules ids parent) urls t1 ->
  Forall2 (download_of rules ids parent) urls t2 ->
  t1 = t2.
Proof.
  intros H1. revert t2. induction H1 as [|u t us ts (r & Hr & ->) _ IH]; intros t2 H2.
  - now inversion H2.
  - inversion H2 as [|? t' ? ts' (r' & Hr' & ->) Hrest]; subst.
    rewrite Hr in Hr'. injection Hr' as <-. f_equal. now apply IH.
Qed.

(** The loop on a list of URLs that all validate. *)
Lemma schedule_downloads_all_valid (rules : string -> option (string * string))
    (ids : list string) (parent : string) (urls : list string)
    (tasks : list (string * string)) :
  Forall2 (download_of rules ids parent) urls tasks ->
  schedule_downloads rules ids parent urls [] [] = (tasks, Ok (map snd tasks)).
Proof.
  intros Hall.
  destruct (schedule_downloads_spec rules ids parent urls [] [])
    as (done & rest & new & Hsplit & Hnew & Hfst & Hsnd).
  destruct Hsnd as [[-> Hok] | (u & rest' & e & -> & Hu & _)].
  - rewrite app_nil_r in Hsplit. subst done.
    rewrite (download_of_inj _ _ _ _ _ _ Hall Hnew).
    destruct (schedule_downloads _ _ _ _ _ _) as [a b]. cbn in *. now subst.
  - exfalso. subst urls.
    apply Forall2_app_inv_l in Hall as (t1 & t2 & _ & Hcons & _).
    inversion Hcons as [|? ? ? ? (r & Hr & _) _]; subst. congruence.
Qed.

Variables (file_urls : list string) (parent_dir : option string)
          (download_func : string -> string -> M unit)
          (valid_artifact_task_ids : option (list string)).

Local Abbreviation rules := (valid_artifact_rules (ctx_config task_context)).
Local Abbreviation ids := (effective_task_ids task_context valid_artifact_task_ids).
Local Abbreviation parent := (effective_parent_dir task_context parent_dir).

Lemma download_artifacts_unfold (w : world) :
  download_artifacts task_context file_urls parent_dir download_func
    valid_artifact_task_ids w
  = match schedule_downloads rules ids parent file_urls [] [] with
    | (_, Raise e) => (Raise e, w)
    | (tasks, Ok files) =>
        match raise_future_exceptions (map (download_task download_func) tasks) w with
        | (Ok _, w') => (Ok files, w')
        | (Raise e, w') => (Raise e, w')
        end
    end.
Proof.
  unfold download_artifacts, effective_task_ids, effective_parent_dir. cbn zeta.
  destruct (schedule_downloads _ _ _ file_urls [] []) as [tasks [files|e]];
    [|reflexivity].
  unfold bind, ret.
  destruct (raise_future_exceptions _ w) as [[u|e] w']; reflexivity.
Qed.

(** C8. [download_artifacts] returns only if every URL was validated and
    every download, retries included, succeeded; what it returns is then
    the destination directory joined with each validated relative path,
    in the order of the URLs: local paths that are absolute whenever the
    destination directory is (no [abspath] is applied to them). When all
    URLs validate and a download fails for good, the call raises the
    exception of a failed download; when none fails, it returns. *)
Theorem download_artifacts_all_or_nothing (w : world) :
  (forall l, Permutation l (asyncio_done_order l)) ->
  (forall files w',
      download_artifacts task_context file_urls parent_dir download_func
        valid_artifact_task_ids w = (Ok files, w') ->
      (exists tasks,
          Forall2 (download_of rules ids parent) file_urls tasks
          /\ files = map snd tasks
          /\ length files = length file_urls
          /\ forall r,
               In r (fst (run_all (map (download_task download_func) tasks) w)) ->
               is_ok r = true)
      /\ (PosixPath.isabs parent = true ->
          forall f, In f files -> PosixPath.isabs f = true))
  /\ (forall tasks,
         Forall2 (download_of rules ids parent) file_urls tasks ->
         let outcomes := fst (run_all (map (download_task download_func) tasks) w) in
         ((exists e, In (Raise e) outcomes) ->
          exists e,
            fst (download_artifacts task_context file_urls parent_dir download_func
                   valid_artifact_task_ids w) = Raise e
            /\ In (Raise e) outcomes)
         /\ ((forall r, In r outcomes -> is_ok r = true) ->
             fst (download_artifacts task_context file_urls parent_dir download_func
                    valid_artifact_task_ids w) = Ok (map snd tasks))).
Proof.
  intros Hperm. split.
  - intros files w'. rewrite download_artifacts_unfold.
    destruct (schedule_downloads_spec rules ids parent file_urls [] [])
      as (done & rest & new & Hsplit & Hnew & Hfst & Hsnd).
    destruct (schedule_downloads rules ids parent file_urls [] [])
      as [tasks [files0|e]] eqn:Es; [|discriminate].
    cbn [fst snd] in Hfst, Hsnd. cbn [app] in Hfst. subst tasks.
    destruct Hsnd as [[-> Hok] | (u & rest' & e & _ & _ & Hbad)]; [|discriminate].
    injection Hok as ->. rewrite app_nil_r in Hsplit. subst done.
    pose proof (raise_future_exceptions_run
                  (map (download_task download_func) new) w Hperm) as (_ & Hfail & _).
    destruct (raise_future_exceptions _ w) as [[u|e] w1] eqn:Er; [|discriminate].
    intros [= <- <-]. split.
    + exists new. split; [exact Hnew|]. split; [reflexivity|].
      split; [rewrite length_map; symmetry; exact (Forall2_length _ _ _ Hnew)|].
      intros r Hr. destruct r as [u'|e]; [reflexivity|].
      destruct (Hfail (ex_intro _ e Hr)) as (e' & He' & _). cbn in He'. discriminate.
    + intros Habs f Hf. apply in_map_iff in Hf as (t & <- & Ht).
      clear -Hnew Ht Habs. induction Hnew as [|u t' us ts Hd _ IH]; [destruct Ht|].
      destruct Ht as [-> | Ht]; [|now apply IH].
      destruct Hd as (rel & _ & ->). cbn [snd]. now apply join_abs.
  - intros tasks Hall outcomes. rewrite download_artifacts_unfold.
    rewrite (schedule_downloads_all_valid _ _ _ _ _ Hall).
    pose proof (raise_future_exceptions_run
                  (map (download_task download_func) tasks) w Hperm)
      as (_ & Hfail & Hok).
    fold outcomes in Hfail, Hok. split.
    + intros Hex. destruct (Hfail Hex) as (e & He & Hin & _). exists e.
      destruct (raise_future_exceptions _ w) as [[u|e'] w1]; cbn in He |- *;
        [discriminate|]. injection He as ->. split; [reflexivity | exact Hin].
    + intros Hallok. specialize (Hok Hallok).
      destruct (raise_future_exceptions _ w) as [[u|e'] w1]; cbn in Hok |- *;
        [reflexivity | discriminate].
Qed.

(** C3. Only validated URLs are ever scheduled for download, and the
    allow-list defaults to the task's dependencies plus the decision task
    id. When some input URL names a task id outside the allow-list, the
    call raises the validation error of the first URL that fails
    validation and leaves the world untouched: no download has run; and
    no download is scheduled for the unlisted URL. *)
Theorem download_artifacts_rejects_unlisted_task (w : world) :
  Forall (fun t => download_of rules ids parent (fst t) t)
         (fst (schedule_downloads rules ids parent file_urls [] []))
  /\ effective_task_ids task_context None
     = dependencies (task task_context)
         ++ [TaskHelpers.get_decision_task_id (task task_context)]
  /\ (forall url task_id filepath,
         In url file_urls ->
         rules url = Some (task_id, filepath) ->
         task_id ∉ ids ->
         validate_artifact_url rules ids url
         = Raise (ScriptWorkerTaskException ("Can't validate url " +:+ url))
         /\ (exists bad,
                In bad file_urls
                /\ download_artifacts task_context file_urls parent_dir download_func
                     valid_artifact_task_ids w
                   = (Raise (ScriptWorkerTaskException ("Can't validate url " +:+ bad)),
                      w))
         /\ forall t,
              In t (fst (schedule_downloads rules ids parent file_urls [] [])) ->
              fst t <> url).
Proof.
  destruct (schedule_downloads_spec rules ids parent file_urls [] [])
    as (done & rest & new & Hsplit & Hnew & Hfst & Hsnd).
  cbn [app] in Hfst.
  assert (Hsched : Forall (fun t => download_of rules ids parent (fst t) t) new).
  { clear -Hnew. induction Hnew as [|u t us ts Hd _ IH]; constructor; [|exact IH].
    destruct Hd as (r & Hr & ->). now exists r. }
  split; [now rewrite Hfst|]. split; [reflexivity|].
  intros url task_id filepath Hin Hrule Hnot.
  pose proof (validate_unlisted rules ids url task_id filepath Hrule Hnot) as Hbad.
  split; [exact Hbad|]. split.
  - rewrite download_artifacts_unfold.
    destruct Hsnd as [[-> Hok] | (u & rest' & e & -> & Hu & Hraise)].
    + exfalso. rewrite app_nil_r in Hsplit. subst done.
      apply List.in_split in Hin as (l1 & l2 & ->).
      apply Forall2_app_inv_l in Hnew as (t1 & t2 & _ & Hcons & _).
      inversion Hcons as [|? ? ? ? (r & Hr & _) _]; subst. congruence.
    + exists u. split; [rewrite Hsplit; apply in_or_app; right; now left|].
      destruct (schedule_downloads rules ids parent file_urls [] []) as [tasks r].
      cbn [snd] in Hraise. subst r.
      now rewrite (validate_raise_inv _ _ _ _ Hu).
  - rewrite Hfst. intros t Ht Heq.
    rewrite List.Forall_forall in Hsched. destruct (Hsched t Ht) as (r & Hr & _).
    rewrite Heq in Hr. congruence.
Qed.

End DownloadBatch.

(** C8, as stated, fails on the word "absolute": the returned paths are
    the destination directory joined with the relative paths as they are,
    so a relative destination gives relative paths, and the call
    succeeds. *)
Lemma download_artifacts_returns_relative_paths :
  @Artifacts.download_artifacts Demo.platform (Demo.context 0) ["A:public/x.txt"]
    (Some "w") Demo.download_ok None Demo.the_world
  = (Ok ["w/public/x.txt"],
     log_io (EvDownload "A:public/x.txt" "w/public/x.txt") Demo.the_world)
  /\ PosixPath.isabs "w/public/x.txt" = false
  /\ @Artifacts.download_artifacts Demo.platform MoreDemo.relative_context
       ["A:public/x.txt"] None Demo.download_ok None Demo.the_world
     = (Ok ["w/public/x.txt"],
        log_io (EvDownload "A:public/x.txt" "w/public/x.txt") Demo.the_world).
Proof. vm_compute. repeat split; reflexivity. Qed.

(** ** Cancellation of a running task *)

Section Cancellation.
Import Worker.

Variable env : cycle_env.













End Cancellation.

(** * Examples on the concrete platform *)

Example normpath_collapses : PosixPath.normpath "/w/cot/T1/../../x//./y/" = "/w/x/y".
Proof. reflexivity. Qed.

Example normpath_two_slashes : PosixPath.normpath "//a/../../b" = "//b".
Proof. reflexivity. Qed.

Example normpath_relative_dotdot : PosixPath.normpath "a/../../b" = "../b".
Proof. reflexivity. Qed.

Example normpath_three_slashes : PosixPath.normpath "///a" = "/a".
Proof. reflexivity. Qed.

Example join_relative :
  PosixPath.join "/w" ["cot"; "T1"; "public/a.txt"] = "/w/cot/T1/public/a.txt".
Proof. reflexivity. Qed.

Example join_absolute_restarts : PosixPath.join "/w/" ["cot"; "/abs"; "x"] = "/abs/x".
Proof. reflexivity. Qed.

Lemma guess_content_type_and_encoding_table_first_witness :
  PyStr.endswith "dist/pom.xml" ".xml" = true
  /\ @Artifacts.guess_content_type_and_encoding Demo.platform "dist/pom.xml"
     = ("application/xml", None)
  /\ @Artifacts.guess_content_type_and_encoding Demo.platform "notes.txt.gz"
     = ("text/plain", Some "gzip")
  /\ @Artifacts.guess_content_type_and_encoding Demo.platform "core.bin"
     = ("application/binary", None).
Proof.
  pose proof (@guess_content_type_and_encoding_table_first Demo.platform)
    as (Hxml & _ & _ & Hother).
  split; [reflexivity|]. split; [apply Hxml; reflexivity|].
  assert (Hno : forall path,
             forallb (fun e => negb (PyStr.endswith path (fst e)))
                     Artifacts._EXTENSION_TO_MIME_TYPE = true ->
             forall ext ct, In (ext, ct) Artifacts._EXTENSION_TO_MIME_TYPE ->
                            PyStr.endswith path ext = false).
  { intros path Hall ext ct Hin. rewrite forallb_forall in Hall.
    specialize (Hall _ Hin). now apply negb_true_iff in Hall. }
  split.
  - destruct (Hother "notes.txt.gz" (Hno "notes.txt.gz" eq_refl)) as [Henc Hct].
    cbn in Henc, Hct. apply injective_projections; assumption.
  - destruct (Hother "core.bin" (Hno "core.bin" eq_refl)) as [Henc Hct].
    cbn in Henc, Hct. apply injective_projections; assumption.
Defined.

Lemma compress_artifact_if_supported_policy_witness :
  fs Demo.the_world !! "/w/artifacts/public/out.json" = Some (File [x7b; x7d])
  /\ @Artifacts.compress_artifact_if_supported Demo.platform
       "/w/artifacts/public/out.json" Demo.the_world
     = (Ok ("application/json", Some "gzip"),
        {| fs := <["/w/artifacts/public/out.json" := File [x1f; x8b; x7b; x7d]]>
                   (fs Demo.the_world);
           trace := [EvRead "/w/artifacts/public/out.json";
                     EvGzipWrite "/w/artifacts/public/out.json"] |})
  /\ PyStr.endswith "/w/artifacts/public/build.tar.gz" ".tar.gz" = true
  /\ exists content_type,
       @Artifacts.compress_artifact_if_supported Demo.platform
         "/w/artifacts/public/build.tar.gz" Demo.the_world
       = (Ok (content_type, None), Demo.the_world).
Proof.
  pose proof (@compress_artifact_if_supported_policy Demo.platform
                "/w/artifacts/public/out.json" Demo.the_world) as [Hfile _].
  pose proof (@compress_artifact_if_supported_policy Demo.platform
                "/w/artifacts/public/build.tar.gz" Demo.the_world) as [_ Harchive].
  assert (Hin : fs Demo.the_world !! "/w/artifacts/public/out.json"
                = Some (File [x7b; x7d])) by (vm_compute; reflexivity).
  split; [exact Hin|]. split.
  - destruct (Hfile _ Hin) as [[_ Hiff] _].
    destruct Hiff as (Hret & Hfs & Htrace).
    { split; [reflexivity|]. apply list_elem_of_In. right. left. reflexivity. }
    destruct (Artifacts.compress_artifact_if_supported _ _) as [r [f t]].
    cbn [fst snd fs trace] in Hret, Hfs, Htrace. now subst.
  - split; [reflexivity|]. apply Harchive. left. reflexivity.
Defined.

Lemma upstream_artifact_full_path_under_root_witness :
  CotRoot.plain_component "T1" = true
  /\ PosixPath.isabs "public/build/target.apk" = false
  /\ CotRoot.no_dotdot "public/build/target.apk" = true
  /\ CotRoot.falls_under
       (@CotRoot.cot_root Demo.platform (Demo.context 0) "T1")
       (@Artifacts.get_single_upstream_artifact_full_path Demo.platform
          (Demo.context 0) "T1" "public/build/target.apk") = true.
Proof.
  split; [reflexivity|]. split; [reflexivity|]. split; [reflexivity|].
  apply (proj1 (@upstream_artifact_full_path_under_root Demo.platform (Demo.context 0)
                  "T1" "public/build/target.apk" Demo.the_world));
    reflexivity.
Defined.


(** [test_run_tasks_cancel_run_tasks]: the request arrives while the task
    process is running. *)
Example cancel_during_execute_trace :
  Worker.run_cycle Demo.cycle
    [Worker.Resume; Worker.Cancel; Worker.Resume; Worker.Resume; Worker.Resume]
  = {| Worker.at_point := Worker.Done (Ok (Some Worker.WorkerShutdown));
       Worker.is_cancelled := true;
       Worker.stop_requested := true;
       Worker.calls :=
         [Worker.ClaimWork; Worker.PrepareToRunTask; Worker.ReclaimStart;
          Worker.RunTask; Worker.WorkerShutdownStop;
          Worker.DoUpload ["public/logs/chain_of_trust.log";
                           "public/logs/live_backing.log"];
          Worker.ReclaimCancel; Worker.CompleteTask Worker.WorkerShutdown] |}.
Proof. reflexivity. Qed.

(** [test_run_tasks_cancel_cot]: the request arrives while the verification
    is pending; the process was never told to stop. *)
Example cancel_during_verification_trace :
  Worker.run_cycle Demo.cycle
    [Worker.Resume; Worker.Resume; Worker.Cancel;
     Worker.Resume; Worker.Resume; Worker.Resume]
  = {| Worker.at_point := Worker.Done (Ok (Some Worker.WorkerShutdown));
       Worker.is_cancelled := true;
       Worker.stop_requested := false;
       Worker.calls :=
         [Worker.ClaimWork; Worker.PrepareToRunTask; Worker.ReclaimStart;
          Worker.RunTask; Worker.VerifyChainOfTrust;
          Worker.DoUpload ["public/logs/chain_of_trust.log";
                           "public/logs/live_backing.log"];
          Worker.ReclaimCancel; Worker.CompleteTask Worker.WorkerShutdown] |}.
Proof. reflexivity. Qed.

(** With only one of the two logs on disk the upload covers that one. *)
Example cancel_uploads_the_logs_that_exist :
  Worker.upload_calls
    (Worker.calls
       (Worker.run_cycle
          (Demo.cycle_with true true (Worker.Exits 0) None Worker.UploadOk
             (list_to_map
                [("/w/artifacts/public/logs/live_backing.log", Demo.file [x6c])]))
          [Worker.Resume; Worker.Cancel; Worker.Resume; Worker.Resume; Worker.Resume]))
  = [["public/logs/live_backing.log"]].
Proof. reflexivity. Qed.

(** A cycle nobody cancels uploads the task's output and reports success. *)
Example undisturbed_cycle_trace :
  Worker.run_cycle Demo.cycle
    [Worker.Resume; Worker.Resume; Worker.Resume; Worker.Resume; Worker.Resume]
  = {| Worker.at_point := Worker.Done (Ok (Some Worker.Success));
       Worker.is_cancelled := false;
       Worker.stop_requested := false;
       Worker.calls :=
         [Worker.ClaimWork; Worker.PrepareToRunTask; Worker.ReclaimStart;
          Worker.RunTask; Worker.VerifyChainOfTrust; Worker.GenerateCot;
          Worker.DoUpload ["public/out.json"];
          Worker.ReclaimCancel; Worker.CompleteTask Worker.Success] |}.
Proof. reflexivity. Qed.

(** [test_run_tasks_cancel_claim_work]: no sleep follows a claim that was
    cancelled while pending. *)
Example cancel_during_claim_does_not_sleep :
  Worker.calls (Worker.run_cycle Demo.cycle [Worker.Cancel; Worker.Resume])
  = [Worker.ClaimWork].
Proof. reflexivity. Qed.

(** [test_run_tasks_cancel_sleep]: nothing is prepared after the poll sleep
    was cancelled. *)
Example cancel_during_poll_sleep_prepares_nothing :
  Worker.run_cycle
    (Demo.cycle_with false true (Worker.Exits 0) None Worker.UploadOk ∅)
    [Worker.Resume; Worker.Cancel; Worker.Resume]
  = {| Worker.at_point := Worker.Done (Ok None);
       Worker.is_cancelled := true;
       Worker.stop_requested := false;
       Worker.calls := [Worker.ClaimWork; Worker.Sleep] |}.
Proof. reflexivity. Qed.

Lemma get_optional_artifacts_per_task_id_accumulates_witness :
  let later := {| taskId := "T1"; paths := ["g.txt"]; optional := Some (PyBool true) |} in
  Artifacts.get_optional_artifacts_per_task_id Demo.repeated_upstream !! "T1"
  = Some ["a.txt"; "b.txt"; "f.txt"]
  /\ Artifacts.get_optional_artifacts_per_task_id Demo.repeated_upstream !! "T2" = None
  /\ Artifacts.get_optional_artifacts_per_task_id (Demo.repeated_upstream ++ [later])
     = <["T1" := ["a.txt"; "b.txt"; "f.txt"; "g.txt"]]>
         (Artifacts.get_optional_artifacts_per_task_id Demo.repeated_upstream)
  /\ Artifacts.get_optional_artifacts_per_task_id Demo.repeated_upstream
     = Artifacts.get_optional_artifacts_per_task_id
         [ {| taskId := "T1"; paths := ["a.txt"; "b.txt"]; optional := Some (PyBool true) |};
           {| taskId := "T1"; paths := ["f.txt"]; optional := Some (PyBool true) |} ].
Proof.
  intros later.
  destruct (get_optional_artifacts_per_task_id_accumulates Demo.repeated_upstream)
    as (Hentry & _ & Hlater & Hskip).
  split; [rewrite Hentry; reflexivity|]. split; [rewrite Hentry; reflexivity|].
  split.
  - rewrite (Hlater later eq_refl). rewrite Hentry. reflexivity.
  - rewrite (Hskip [_] _ [_; _; _] eq_refl ltac:(discriminate)). cbn [app].
    destruct (get_optional_artifacts_per_task_id_accumulates
                [ {| taskId := "T1"; paths := ["a.txt"; "b.txt"];
                     optional := Some (PyBool true) |};
                  {| taskId := "T2"; paths := ["d.txt"]; optional := None |};
                  {| taskId := "T1"; paths := ["e.txt"]; optional := Some (PyInt 1) |};
                  {| taskId := "T1"; paths := ["f.txt"];
                     optional := Some (PyBool true) |} ])
      as (_ & _ & _ & Hskip2).
    rewrite (Hskip2 [_] _ [_; _] eq_refl ltac:(discriminate)). cbn [app].
    destruct (get_optional_artifacts_per_task_id_accumulates
                [ {| taskId := "T1"; paths := ["a.txt"; "b.txt"];
                     optional := Some (PyBool true) |};
                  {| taskId := "T1"; paths := ["e.txt"]; optional := Some (PyInt 1) |};
                  {| taskId := "T1"; paths := ["f.txt"];
                     optional := Some (PyBool true) |} ])
      as (_ & _ & _ & Hskip3).
    rewrite (Hskip3 [_] _ [_] eq_refl ltac:(discriminate)). reflexivity.
Defined.

Lemma get_upstream_artifacts_full_paths_per_task_id_resolution_witness :
  (* one required file is missing: b.txt of T1 *)
  fst (@Artifacts.get_upstream_artifacts_full_paths_per_task_id Demo.platform
         (Demo.context 0) Demo.world_without_b)
  = Raise (ScriptWorkerTaskException
             "upstream artifact with path: /w/cot/T1/b.txt, does not exist")
  /\ trace (snd (@Artifacts.get_upstream_artifacts_full_paths_per_task_id Demo.platform
                   (Demo.context 0) Demo.world_without_b))
     = [EvExists "/w/cot/T1/a.txt"; EvExists "/w/cot/T1/b.txt"]
  (* only optional files are missing *)
  /\ exists existing failed w',
       @Artifacts.get_upstream_artifacts_full_paths_per_task_id Demo.platform
         (Demo.context 0) Demo.the_world = (Ok (existing, failed), w')
       /\ existing !! "T1" = Some ["/w/cot/T1/a.txt"; "/w/cot/T1/b.txt"]
       /\ existing !! "T2" = None
       /\ failed !! "T1" = Some ["d.txt"]
       /\ failed !! "T2" = Some ["c.txt"].
Proof.
  pose proof (@get_upstream_artifacts_full_paths_per_task_id_resolution Demo.platform
                (Demo.context 0) Demo.world_without_b) as (Hraise & _ & _).
  pose proof (@get_upstream_artifacts_full_paths_per_task_id_resolution Demo.platform
                (Demo.context 0) Demo.the_world) as (_ & _ & Hok).
  cbn zeta in Hraise, Hok.
  specialize (Hraise [("T1", "a.txt")] ("T1", "b.txt")
                [("T2", "c.txt"); ("T1", "d.txt")] eq_refl).
  rewrite Hraise.
  - split; [reflexivity|]. split; [reflexivity|].
    destruct Hok as (existing & failed & Hrun & Hmaps).
    + intros q Hq. vm_compute in Hq.
      repeat (destruct Hq as [<- | Hq]; [vm_compute; congruence|]). destruct Hq.
    + exists existing, failed. eexists. split; [exact Hrun|].
      destruct (Hmaps "T1") as [-> ->]. destruct (Hmaps "T2") as [-> ->].
      repeat split; reflexivity.
  - intros q [<- | []]. vm_compute. congruence.
  - vm_compute. reflexivity.
  - vm_compute. reflexivity.
Defined.

Lemma create_artifact_bad_status_is_retried_witness :
  (* two 503 answers, then 200: the third attempt succeeds *)
  fst (@Artifacts.retry_create_artifact Demo.platform (Demo.context 2)
         "/w/artifacts/public/out.json" "public/out.json" "application/json" None
         Demo.the_world) = Ok tt
  /\ Demo.count_puts "https://put/public/out.json"
       (trace (snd (@Artifacts.retry_create_artifact Demo.platform (Demo.context 2)
                      "/w/artifacts/public/out.json" "public/out.json"
                      "application/json" None Demo.the_world))) = 3
  (* 503 for ever: five attempts, then the last exception *)
  /\ fst (@Artifacts.retry_create_artifact Demo.platform (Demo.context 99)
            "/w/artifacts/public/out.json" "public/out.json" "application/json" None
            Demo.the_world) = Raise (ScriptWorkerRetryException "Bad status 503")
  /\ Demo.count_puts "https://put/public/out.json"
       (trace (snd (@Artifacts.retry_create_artifact Demo.platform (Demo.context 99)
                      "/w/artifacts/public/out.json" "public/out.json"
                      "application/json" None Demo.the_world))) = 5.
Proof.
  pose proof (@create_artifact_bad_status_is_retried Demo.platform (Demo.context 2)
                "/w/artifacts/public/out.json" "public/out.json" "application/json" None
                Demo.the_world) as (_ & _ & Hgood).
  pose proof (@create_artifact_bad_status_is_retried Demo.platform (Demo.context 99)
                "/w/artifacts/public/out.json" "public/out.json" "application/json" None
                Demo.the_world) as (_ & _ & Hbad).
  cbn zeta in Hgood, Hbad.
  rewrite (Hgood 2), (Hbad 4).
  - repeat split; vm_compute; reflexivity.
  - vm_compute. lia.
  - intros j Hj.
    destruct j as [|[|[|[|j]]]]; [vm_compute; reflexivity .. | exfalso; lia].
  - left. reflexivity.
  - vm_compute. lia.
  - intros j Hj. destruct j as [|[|j]]; [vm_compute; reflexivity .. | exfalso; lia].
  - right. vm_compute. reflexivity.
Defined.

Lemma upload_artifacts_batch_witness :
  (* out.json is refused for ever, build.tar.gz is accepted at once *)
  let files := ["public/out.json"; "public/build.tar.gz"] in
  (forall l, Permutation l (@asyncio_done_order Demo.platform l))
  /\ (forall f, In f files ->
        BatchSpec.regular_file Demo.the_world (PosixPath.join "/w/artifacts" [f]))
  /\ fst (@Artifacts.upload_artifacts Demo.platform (Demo.context 99) files Demo.the_world)
     = Raise (ScriptWorkerRetryException "Bad status 503")
  /\ Demo.count_puts "https://put/public/out.json"
       (trace (snd (@Artifacts.upload_artifacts Demo.platform (Demo.context 99) files
                      Demo.the_world))) = 5
  /\ Demo.count_puts "https://put/public/build.tar.gz"
       (trace (snd (@Artifacts.upload_artifacts Demo.platform (Demo.context 99) files
                      Demo.the_world))) = 1.
Proof.
  intros files.
  assert (Hperm : forall l, Permutation l (@asyncio_done_order Demo.platform l))
    by (intros l; apply Permutation_refl).
  assert (Hfiles : forall f, In f files ->
            BatchSpec.regular_file Demo.the_world (PosixPath.join "/w/artifacts" [f])).
  { intros f [<- | [<- | []]]; eexists; vm_compute; reflexivity. }
  split; [exact Hperm|]. split; [exact Hfiles|].
  destruct (@upload_artifacts_batch Demo.platform (Demo.context 99) files
              Demo.the_world Hperm Hfiles)
    as (tasks & w1 & Hsched & _ & _ & _ & _ & Hfail & _).
  destruct Hfail as (e & He & _ & _).
  - exists (ScriptWorkerRetryException "Bad status 503").
    vm_compute in Hsched. injection Hsched as <- <-. vm_compute. left. reflexivity.
  - split; [|split; vm_compute; reflexivity].
    rewrite He. vm_compute in He. symmetry. exact He.
Defined.

Lemma download_artifacts_all_or_nothing_witness :
  let urls := ["A:public/x.txt"; "B:/public/y.txt"] in
  (forall l, Permutation l (@asyncio_done_order Demo.platform l))
  /\ @Artifacts.download_artifacts Demo.platform (Demo.context 0) urls (Some "/w/dl")
       Demo.download_ok None Demo.the_world
     = (Ok ["/w/dl/public/x.txt"; "/w/dl/public/y.txt"],
        {| fs := fs Demo.the_world;
           trace := [EvDownload "A:public/x.txt" "/w/dl/public/x.txt";
                     EvDownload "B:/public/y.txt" "/w/dl/public/y.txt"] |})
  /\ Forall (fun f => PosixPath.isabs f = true)
            ["/w/dl/public/x.txt"; "/w/dl/public/y.txt"]
  /\ exists e,
       fst (@Artifacts.download_artifacts Demo.platform (Demo.context 0) urls (Some "/w/dl")
              Demo.download_timeout None Demo.the_world) = Raise e.
Proof.
  intros urls.
  assert (Hperm : forall l, Permutation l (@asyncio_done_order Demo.platform l))
    by (intros l; apply Permutation_refl).
  split; [exact Hperm|]. split; [vm_compute; reflexivity|]. split.
  { pose proof (@download_artifacts_all_or_nothing Demo.platform (Demo.context 0) urls
                  (Some "/w/dl") Demo.download_ok None Demo.the_world Hperm)
      as [Hok _].
    destruct (Hok _ _ eq_refl) as [_ Habs].
    apply List.Forall_forall. exact (Habs eq_refl). }
  pose proof (@download_artifacts_all_or_nothing Demo.platform (Demo.context 0) urls
                (Some "/w/dl") Demo.download_timeout None Demo.the_world Hperm)
    as [_ Hfail].
  destruct (Hfail [("A:public/x.txt", "/w/dl/public/x.txt");
                   ("B:/public/y.txt", "/w/dl/public/y.txt")]) as [Hraise _].
  - repeat constructor.
    + exists "public/x.txt". split; reflexivity.
    + exists "public/y.txt". split; reflexivity.
  - destruct Hraise as (e & He & _); [|now exists e].
    exists TimeoutError. vm_compute. left. reflexivity.
Defined.

Lemma download_artifacts_rejects_unlisted_task_witness :
  (* allow-list {A, B}; the second URL names task C *)
  let urls := ["A:public/x.txt"; "C:public/y.txt"] in
  In "C:public/y.txt" urls
  /\ Demo.split_colon "C:public/y.txt" = Some ("C", "public/y.txt")
  /\ ("C" ∉ ["A"; "B"])
  /\ @Artifacts.download_artifacts Demo.platform (Demo.context 0) urls None
       Demo.download_ok (Some ["A"; "B"]) Demo.the_world
     = (Raise (ScriptWorkerTaskException "Can't validate url C:public/y.txt"),
        Demo.the_world)
  /\ fst (Artifacts.schedule_downloads Demo.split_colon ["A"; "B"] "/w" urls [] [])
     = [("A:public/x.txt", "/w/public/x.txt")].
Proof.
  intros urls.
  assert (Hin : In "C:public/y.txt" urls) by (right; left; reflexivity).
  assert (Hnot : "C" ∉ ["A"; "B"]).
  { intros Hc. apply list_elem_of_In in Hc. destruct Hc as [Hc | [Hc | []]]; discriminate. }
  split; [exact Hin|]. split; [reflexivity|]. split; [exact Hnot|].
  pose proof (@download_artifacts_rejects_unlisted_task Demo.platform (Demo.context 0)
                urls None Demo.download_ok (Some ["A"; "B"]) Demo.the_world)
    as (_ & _ & Hreject).
  destruct (Hreject "C:public/y.txt" "C" "public/y.txt" Hin eq_refl Hnot)
    as (_ & (bad & _ & Hrun) & _).
  split; [|reflexivity]. rewrite Hrun. vm_compute in Hrun.
  injection Hrun as Hbad. rewrite Hbad. reflexivity.
Defined.

(** The cycle agrees with the other scenarios of [test_worker.py]. *)

Example exit_code_is_the_status :
  Worker.at_point
    (Worker.run_cycle
       (Demo.cycle_with true false (Worker.Exits 19) None Worker.UploadOk ∅)
       Demo.to_the_end)
  = Worker.Done (Ok (Some (Worker.TaskFailure 19))).
Proof. reflexivity. Qed.

Example timeout_yields_configured_status :
  Worker.at_point
    (Worker.run_cycle
       (Demo.cycle_with true false Worker.RunsOutOfTime None Worker.UploadOk ∅)
       Demo.to_the_end)
  = Worker.Done (Ok (Some Worker.IntermittentTask)).
Proof. reflexivity. Qed.

Example failed_verification_is_still_reported :
  let final :=
    Worker.run_cycle
      (Demo.cycle_with true true (Worker.Exits 0) (Some Worker.InternalError)
         Worker.UploadOk ∅)
      Demo.to_the_end in
  Worker.at_point final = Worker.Done (Ok (Some Worker.InternalError))
  /\ Worker.upload_calls (Worker.calls final) = [["public/out.json"]]
  /\ Worker.complete_calls (Worker.calls final) = [Worker.InternalError].
Proof. repeat split; reflexivity. Qed.

Example uncaught_upload_exception_propagates :
  let final :=
    Worker.run_cycle
      (Demo.cycle_with true false (Worker.Exits 0) None
         (Worker.UploadUncaught (OtherError "OSError")) ∅)
      Demo.to_the_end in
  Worker.at_point final = Worker.Done (Raise (OtherError "OSError"))
  /\ length (Worker.complete_calls (Worker.calls final)) = 1.
Proof. split; reflexivity. Qed.

Example already_encoded_file_is_left_alone :
  @Artifacts.compress_artifact_if_supported Demo.platform "notes.txt.gz" Demo.the_world
  = (Ok ("text/plain", Some "gzip"), Demo.the_world).
Proof. reflexivity. Qed.

(** * Further properties of the artifact pipeline *)

(** ** Classification beyond the table's named cases *)

Section MoreClassification.
Import PyStr Artifacts.

Lemma string_length_app (a b : string) :
  String.length (a +:+ b) = String.length a + String.length b.
Proof.
  induction a as [|c a IH]; [reflexivity|].
  rewrite string_app_cons. cbn [String.length]. now rewrite IH.
Qed.

Lemma app_same_length_suffix (p q a b : string) :
  p +:+ a = q +:+ b -> String.length a = String.length b -> a = b.
Proof.
  revert q. induction p as [|c p IH]; intros q Heq Hlen.
  - destruct q as [|d q]; [exact Heq|]. exfalso.
    rewrite string_app_nil_l in Heq. subst a.
    rewrite string_app_cons in Hlen. cbn [String.length] in Hlen.
    rewrite string_length_app in Hlen. lia.
  - destruct q as [|d q].
    + exfalso. rewrite string_app_nil_l in Heq. subst b.
      rewrite string_app_cons in Hlen. cbn [String.length] in Hlen.
      rewrite string_length_app in Hlen. lia.
    + rewrite !string_app_cons in Heq. injection Heq as _ Heq. now apply (IH q).
Qed.

(** Two suffixes of one string that have the same length are equal. *)
Lemma endswith_same_length (s a b : string) :
  endswith s a = true -> endswith s b = true ->
  String.length a = String.length b -> a = b.
Proof.
  intros Ha Hb Hlen.
  destruct (endswith_inv _ _ Ha) as [p Hp]. destruct (endswith_inv _ _ Hb) as [q Hq].
  apply (app_same_length_suffix p q); congruence.
Qed.

Lemma first_extension_match_in (tbl : list (string * (string * option string)))
    (path : string) (ct : string * option string) :
  first_extension_match tbl path = Some ct ->
  exists ext, In (ext, ct) tbl /\ endswith path ext = true.
Proof.
  induction tbl as [|[ext ct'] tbl IH]; cbn [first_extension_match]; [discriminate|].
  destruct (endswith path ext) eqn:He.
  - intros [= <-]. exists ext. split; [now left | exact He].
  - intros Hm. destruct (IH Hm) as (ext' & Hin & He'). exists ext'. split; [now right | exact He'].
Qed.

Lemma first_extension_match_hit (tbl : list (string * (string * option string)))
    (path ext : string) (ct : string * option string) :
  In (ext, ct) tbl -> endswith path ext = true ->
  exists ct', first_extension_match tbl path = Some ct'.
Proof.
  induction tbl as [|[ext' ct'] tbl IH]; cbn [first_extension_match]; [intros []|].
  intros [[= -> ->] | Hin] He.
  - rewrite He. eauto.
  - destruct (endswith path ext'); [eauto | now apply IH].
Qed.

Lemma table_entries (ext : string) (ct : string * option string) :
  In (ext, ct) _EXTENSION_TO_MIME_TYPE ->
  snd ct = None
  /\ In (fst ct) ["application/x-tar"; "text/plain"; "application/x-apple-diskimage";
                  "application/xml"].
Proof.
  unfold _EXTENSION_TO_MIME_TYPE. intros Hin.
  repeat (destruct Hin as [[= <- <-] | Hin]; [split; [reflexivity | cbn; tauto]|]).
  destruct Hin.
Qed.

(** X1. When an extension of the table matches, the classification does
    not depend on the system MIME database: on any two platforms the
    result is the same, its encoding is [None] and its content type is one
    of the table's four. *)
Theorem guess_table_hit_ignores_platform (P1 P2 : Platform) (path ext : string)
    (ct : string * option string) :
  In (ext, ct) _EXTENSION_TO_MIME_TYPE ->
  endswith path ext = true ->
  @guess_content_type_and_encoding P1 path = @guess_content_type_and_encoding P2 path
  /\ snd (@guess_content_type_and_encoding P1 path) = None
  /\ In (fst (@guess_content_type_and_encoding P1 path))
        ["application/x-tar"; "text/plain"; "application/x-apple-diskimage";
         "application/xml"].
Proof.
  intros Hin He.
  destruct (first_extension_match_hit _ _ _ _ Hin He) as [ct' Hm].
  unfold guess_content_type_and_encoding. rewrite Hm.
  destruct (first_extension_match_in _ _ _ Hm) as (ext' & Hin' & _).
  destruct (table_entries _ _ Hin') as [Henc Hty].
  split; [reflexivity|]. split; assumption.
Qed.

(** X2. The content type is never the empty string, whatever the path and
    whatever the system MIME database answers. *)
Theorem guess_content_type_is_never_empty (P : Platform) (path : string) :
  String.eqb (fst (@guess_content_type_and_encoding P path)) "" = false.
Proof.
  unfold guess_content_type_and_encoding.
  destruct (first_extension_match _EXTENSION_TO_MIME_TYPE path) as [ct|] eqn:Hm.
  - destruct (first_extension_match_in _ _ _ Hm) as (ext & Hin & _).
    destruct (table_entries _ _ Hin) as [_ Hty]. cbn in Hty.
    destruct Hty as [<- | [<- | [<- | [<- | []]]]]; reflexivity.
  - destruct (mimetypes_guess_type path) as [[c|] enc]; cbn [fst]; [|reflexivity].
    unfold or_else. destruct (String.eqb c "") eqn:Ec; [reflexivity | exact Ec].
Qed.

(** X3. Every path ending in [.txt], [.log], [.asc] or [.diff] is
    [("text/plain", None)] on every platform, hence eligible for gzip. *)
Theorem guess_text_extensions (P : Platform) (path ext : string) :
  In ext [".txt"; ".log"; ".asc"; ".diff"] ->
  endswith path ext = true ->
  @guess_content_type_and_encoding P path = ("text/plain", None)
  /\ gzip_eligible (fst (@guess_content_type_and_encoding P path))
                   (snd (@guess_content_type_and_encoding P path)) = true.
Proof.
  intros Hin He.
  assert (Hother : forall e, String.length e = String.length ext -> e <> ext ->
                             endswith path e = false).
  { intros e Hlen Hne. destruct (endswith path e) eqn:E; [|reflexivity].
    exfalso. apply Hne. now apply (endswith_same_length path). }
  assert (Hg : @guess_content_type_and_encoding P path = ("text/plain", None)).
  { unfold guess_content_type_and_encoding, _EXTENSION_TO_MIME_TYPE.
    cbn [first_extension_match].
    destruct Hin as [<- | [<- | [<- | [<- | []]]]].
    - rewrite (endswith_last_char_ne path ".txt" ".tar.gz") by (discriminate || exact He).
      rewrite (Hother ".tgz") by (reflexivity || discriminate). now rewrite He.
    - rewrite (endswith_last_char_ne path ".log" ".tar.gz") by (discriminate || exact He).
      rewrite (Hother ".tgz"), (Hother ".txt"), (Hother ".dmg")
        by (reflexivity || discriminate).
      now rewrite He.
    - rewrite (endswith_last_char_ne path ".asc" ".tar.gz") by (discriminate || exact He).
      rewrite (Hother ".tgz"), (Hother ".txt"), (Hother ".dmg"), (Hother ".log")
        by (reflexivity || discriminate).
      now rewrite He.
    - do 6 (match goal with
            | |- context [endswith path ?e] =>
                rewrite (endswith_last_char_ne path ".diff" e)
                  by (discriminate || exact He)
            end).
      now rewrite He. }
  split; [exact Hg|]. rewrite Hg. reflexivity.
Qed.

End MoreClassification.

(** ** What compression does to the disk *)

Section MoreCompression.
Context `{Platform}.
Import PyStr Artifacts Events.

(** X4. [compress_artifact_if_supported] changes no other file than the
    one it is given, and it creates nothing: a path that is absent before
    the call is absent after it. *)
Theorem compress_only_touches_its_file (artifact_path : string) (w : world) :
  (forall p, p <> artifact_path ->
     fs (snd (compress_artifact_if_supported artifact_path w)) !! p = fs w !! p)
  /\ (fs w !! artifact_path = None ->
      fs (snd (compress_artifact_if_supported artifact_path w)) = fs w).
Proof.
  unfold compress_artifact_if_supported.
  destruct (guess_content_type_and_encoding artifact_path) as [ct enc].
  destruct (gzip_eligible ct enc); [|split; reflexivity].
  unfold bind, read_bytes, gzip_write, ret, log_io.
  destruct (fs w !! artifact_path) as [[b|]|] eqn:Hf; cbn [fs]; try (split; reflexivity).
  rewrite Hf. cbn [snd fs]. split; [|discriminate].
  intros p Hne. now apply lookup_insert_ne.
Qed.

(** X5. On a path that does not exist, or that is a directory, a
    compressible type makes the call raise ([FileNotFoundError],
    [IsADirectoryError]) after the failed read, with the disk as it was;
    a type that is not compressible makes it return the guess without
    looking at the disk at all. *)
Theorem compress_missing_or_directory (artifact_path : string) (w : world) :
  let guess := guess_content_type_and_encoding artifact_path in
  (gzip_eligible (fst guess) (snd guess) = true ->
     (fs w !! artifact_path = None ->
        compress_artifact_if_supported artifact_path w
        = (Raise (FileNotFoundError artifact_path), log_io (EvRead artifact_path) w))
     /\ (fs w !! artifact_path = Some Dir ->
         compress_artifact_if_supported artifact_path w
         = (Raise (IsADirectoryError artifact_path), log_io (EvRead artifact_path) w)))
  /\ (gzip_eligible (fst guess) (snd guess) = false ->
      compress_artifact_if_supported artifact_path w = (Ok guess, w)).
Proof.
  intros guess. split; [|apply compress_not_eligible].
  intros Hel. unfold compress_artifact_if_supported. subst guess.
  destruct (guess_content_type_and_encoding artifact_path) as [ct enc].
  cbn [fst snd] in Hel. rewrite Hel. unfold bind, read_bytes.
  split; intros ->; reflexivity.
Qed.

(** X6. Compression is decided by the name alone, so it is not idempotent:
    a second call on a compressible file compresses the compressed bytes
    again. *)
Theorem compress_twice_compresses_twice (artifact_path : string) (w : world)
    (b : list byte) :
  fs w !! artifact_path = Some (File b) ->
  gzip_eligible (fst (guess_content_type_and_encoding artifact_path))
                (snd (guess_content_type_and_encoding artifact_path)) = true ->
  let w1 := snd (compress_artifact_if_supported artifact_path w) in
  fst (compress_artifact_if_supported artifact_path w1)
  = Ok (fst (guess_content_type_and_encoding artifact_path), Some "gzip")
  /\ fs (snd (compress_artifact_if_supported artifact_path w1))
     = <[artifact_path := File (gzip_compress (gzip_compress b))]> (fs w).
Proof.
  intros Hf Hel w1. subst w1. rewrite (compress_eligible _ _ _ Hf Hel). cbn [snd].
  erewrite compress_eligible; [| cbn [fs]; apply lookup_insert_eq | exact Hel].
  cbn [fst snd fs]. split; [reflexivity|]. apply insert_insert_eq.
Qed.

End MoreCompression.

(** ** Absolute components in the upstream artifact path *)

Section MorePaths.
Import PyStr PosixPath Artifacts.

Lemma initial_slashes_abs (p : string) :
  isabs p = true -> initial_slashes p = 1 \/ initial_slashes p = 2.
Proof.
  unfold isabs, initial_slashes. intros ->. destruct (_ && _); auto.
Qed.

Lemma normpath_abs (p : string) : isabs p = true -> isabs (normpath p) = true.
Proof.
  intros Hp. unfold normpath.
  destruct p as [|c p]; [discriminate|].
  change (String.eqb (String c p) "") with false. cbn match zeta.
  destruct (initial_slashes_abs _ Hp) as [-> | ->]; cbn [slashes];
    rewrite !string_app_cons; unfold or_else;
    match goal with
    | |- context [String.eqb (String ?x ?y) ""] =>
        change (String.eqb (String x y) "") with false
    end;
    cbn match; unfold isabs; now rewrite startswith_sep_cons.
Qed.

(** X7. An absolute [path] discards the work directory and the task id:
    the result is the normal form of [path] alone, on every platform and
    for every task. *)
Theorem absolute_path_discards_the_root (P : Platform) (task_context : TaskContext)
    (task_id path : string) :
  isabs path = true ->
  @get_single_upstream_artifact_full_path P task_context task_id path = normpath path.
Proof.
  intros Hp. unfold get_single_upstream_artifact_full_path.
  assert (Hj : join (work_dir task_context) ["cot"; task_id; path] = path).
  { change (join (work_dir task_context) ["cot"; task_id; path])
      with (join_step (join (work_dir task_context) ["cot"; task_id]) path).
    unfold join_step. unfold isabs in Hp. now rewrite Hp. }
  rewrite Hj. unfold abspath. now rewrite Hp.
Qed.

(** X8. With an absolute work directory the result is an absolute path
    and does not depend on the process's current directory. *)
Theorem absolute_work_dir_ignores_cwd (P1 P2 : Platform) (task_context : TaskContext)
    (task_id path : string) :
  isabs (work_dir task_context) = true ->
  @get_single_upstream_artifact_full_path P1 task_context task_id path
  = @get_single_upstream_artifact_full_path P2 task_context task_id path
  /\ isabs (@get_single_upstream_artifact_full_path P1 task_context task_id path) = true.
Proof.
  intros Hw. unfold get_single_upstream_artifact_full_path, abspath.
  rewrite (join_abs _ ["cot"; task_id; path] Hw).
  split; [reflexivity|]. apply normpath_abs. now apply join_abs.
Qed.

End MorePaths.

(** ** What resolution reads and what its maps contain *)

Section MoreResolution.
Context `{Platform}.
Import Utils Artifacts UpstreamSpec.

Variable task_context : TaskContext.

Lemma resolve_loop_checks (pairs : list (string * string)) (w0 : world) :
  forall (acc : resolution) (w : world), fs w = fs w0 ->
  snd (for_each
         (resolve_pair task_context
            (get_optional_artifacts_per_task_id (upstreamArtifacts (task task_context))))
         pairs acc w)
  = {| fs := fs w;
       trace := trace w
                ++ exists_events task_context
                     (checked_pairs (missing_required task_context w0) pairs) |}.
Proof.
  induction pairs as [|q pairs IH]; intros acc w Hfs.
  - cbn. rewrite app_nil_r. now destruct w.
  - cbn [for_each checked_pairs]. unfold bind. rewrite resolve_pair_run. cbn zeta.
    rewrite (present_same_fs task_context w w0 q Hfs), optional_test.
    unfold missing_required at 1.
    destruct (present task_context w0 q); cbn [negb andb];
      [|destruct (marked_optional _ q); cbn [negb]];
      try (rewrite IH by exact Hfs; unfold log_io; cbn [fs trace exists_events map];
           now rewrite <- app_assoc).
    reflexivity.
Qed.

Lemma checked_pairs_all {A} (stops : A -> bool) (pairs : list A) :
  (forall q, In q pairs -> stops q = false) -> checked_pairs stops pairs = pairs.
Proof.
  induction pairs as [|q pairs IH]; intros Hall; [reflexivity|].
  cbn [checked_pairs]. rewrite (Hall q) by now left.
  f_equal. apply IH. intros z Hz. apply Hall. now right.
Qed.

(** X9. Resolution only asks the disk whether files exist: it leaves the
    disk as it was, on success and on failure, and its trace grows by
    exactly one existence check per declared pair, in declaration order,
    up to and including the first pair whose file is missing and which is
    not marked optional; when there is no such pair, by one check for
    every declared pair. *)
Theorem resolution_only_reads (w : world) :
  let pairs := declared_pairs (upstreamArtifacts (task task_context)) in
  let run := get_upstream_artifacts_full_paths_per_task_id task_context w in
  fs (snd run) = fs w
  /\ trace (snd run)
     = trace w ++ exists_events task_context
                    (checked_pairs (missing_required task_context w) pairs)
  /\ ((forall q, In q pairs -> missing_required task_context w q = false) ->
      trace (snd run) = trace w ++ exists_events task_context pairs)
  /\ (forall pre q post,
         pairs = pre ++ q :: post ->
         missing_required task_context w q = true ->
         (forall z, In z pre -> missing_required task_context w z = false) ->
         trace (snd run) = trace w ++ exists_events task_context (pre ++ [q])).
Proof.
  intros pairs run. subst run. rewrite resolution_unfold. fold pairs.
  rewrite (resolve_loop_checks pairs w (∅, ∅) w eq_refl). cbn [fs trace].
  split; [reflexivity|]. split; [reflexivity|]. split.
  - intros Hall. now rewrite checked_pairs_all.
  - intros pre q post -> Hq Hpre. do 2 f_equal. clear -Hq Hpre.
    induction pre as [|z pre IH]; cbn [app checked_pairs].
    + now rewrite Hq.
    + rewrite (Hpre z) by now left. f_equal. apply IH.
      intros y Hy. apply Hpre. now right.
Qed.

Lemma grouped_in (entries : list (string * string)) (task_id v : string)
    (vs : list string) :
  grouped entries task_id = Some vs -> In v vs -> In (task_id, v) entries.
Proof.
  unfold grouped. intros Hg Hv.
  assert (Hvs : vs = map snd (List.filter (fun e => String.eqb (fst e) task_id) entries)).
  { destruct (List.filter _ entries); [discriminate | now injection Hg]. }
  subst vs. apply in_map_iff in Hv as ([k v'] & <- & Hin).
  apply filter_In in Hin as [Hin Hk]. cbn [fst] in Hk.
  apply String.eqb_eq in Hk. now subst k.
Qed.

(** X10. When resolution returns, its two maps are sound: every path
    listed under a task id in the first map is the full path of a
    declared pair of that task id and exists on disk; every path listed in
    the second map belongs to a declared pair that is missing and marked
    optional. *)
Theorem resolution_maps_are_sound (w w' : world)
    (existing failed : gmap string (list string)) :
  get_upstream_artifacts_full_paths_per_task_id task_context w
  = (Ok (existing, failed), w') ->
  let upstream := upstreamArtifacts (task task_context) in
  (forall task_id full fulls,
      existing !! task_id = Some fulls -> In full fulls ->
      is_Some (fs w !! full)
      /\ exists path, In (task_id, path) (declared_pairs upstream)
                      /\ full = get_single_upstream_artifact_full_path task_context
                                  task_id path)
  /\ (forall task_id path paths,
         failed !! task_id = Some paths -> In path paths ->
         In (task_id, path) (declared_pairs upstream)
         /\ present task_context w (task_id, path) = false
         /\ marked_optional upstream (task_id, path) = true).
Proof.
  intros Hrun upstream. rewrite resolution_unfold in Hrun. fold upstream in Hrun.
  set (pairs := declared_pairs upstream) in *.
  set (ok := fun q => present task_context w q || marked_optional upstream q).
  assert (Hall : forall q, In q pairs -> present task_context w q = false ->
                           marked_optional upstream q = true).
  { intros q Hq Hp. destruct (marked_optional upstream q) eqn:Hm; [reflexivity|].
    exfalso.
    destruct (first_failing ok pairs q Hq) as (pre & y & post & Heq & Hy & Hpre).
    { unfold ok. now rewrite Hp, Hm. }
    unfold ok in Hy. apply orb_false_iff in Hy as [Hy1 Hy2].
    rewrite Heq, (resolve_all_raise task_context upstream w pre post y _) in Hrun;
      [discriminate | | assumption | assumption].
    intros z Hz Hzp. specialize (Hpre z Hz). unfold ok in Hpre.
    now rewrite Hzp in Hpre. }
  rewrite (resolve_all_ok task_context upstream w pairs Hall (∅, ∅) w eq_refl) in Hrun.
  cbn [fst snd] in Hrun. injection Hrun as <- <- _. split.
  - intros task_id full fulls Hl Hin. rewrite record_all_grouped in Hl.
    apply (grouped_in _ _ _ _ Hl) in Hin.
    apply in_map_iff in Hin as ([t p] & Heq & Hin).
    unfold full_path_entry in Heq. cbn [fst snd] in Heq. injection Heq as -> <-.
    apply filter_In in Hin as [Hin Hp]. split.
    + unfold present in Hp. cbn [fst snd] in Hp. now apply bool_decide_eq_true in Hp.
    + now exists p.
  - intros task_id path paths Hl Hin. rewrite record_all_grouped in Hl.
    apply (grouped_in _ _ _ _ Hl) in Hin.
    apply filter_In in Hin as [Hin Hp]. apply negb_true_iff in Hp.
    split; [exact Hin|]. split; [exact Hp | now apply Hall].
Qed.

End MoreResolution.

(** ** Failures of one upload or download that are not retried *)

Section MoreTransfers.
Context `{Platform}.
Import Utils TaskHelpers Artifacts Events BatchSpec.

Variable task_context : TaskContext.

Lemma retry_loop_first_not_transient {A} (func : M A) (retry : exn -> bool)
    (n : nat) (w : world) :
  transient_failure retry (fst (func w)) = false ->
  retry_loop func retry n w = func w.
Proof. intros Hnt. rewrite retry_loop_unfold. now rewrite Hnt. Qed.

(** X11. An upload whose file cannot be opened is not retried, and by
    then the artifact has already been declared to the queue: the call
    raises [FileNotFoundError] after one [createArtifact] and no PUT. An
    upload the queue refuses with an exception that is not transient
    raises it at once, without opening the file. *)
Theorem upload_fails_fast (path target_path content_type : string)
    (content_encoding : option string) (w w1 : world) :
  let declare :=
    createArtifact (queue task_context)
      (get_task_id (claim_task task_context)) (get_run_id (claim_task task_context))
      target_path
      {| storageType := "s3";
         payload_expires := get_expiration_arrow task_context;
         contentType := content_type |}
      (log_io (EvCreateArtifact target_path) w) in
  (forall url,
      declare = (Ok url, w1) ->
      fs w1 !! path = None ->
      retry_create_artifact task_context path target_path content_type
        content_encoding w
      = (Raise (FileNotFoundError path), log_io (EvRead path) w1))
  /\ (forall e,
         declare = (Raise e, w1) ->
         is_create_retry_exception e = false ->
         retry_create_artifact task_context path target_path content_type
           content_encoding w
         = (Raise e, w1)).
Proof.
  intros declare. subst declare. split.
  - intros url Hq Hf.
    assert (Hrun : create_artifact task_context path target_path content_type
                     content_encoding "s3" None w
                   = (Raise (FileNotFoundError path), log_io (EvRead path) w1)).
    { unfold create_artifact, bind. rewrite Hq. unfold read_bytes. now rewrite Hf. }
    unfold retry_create_artifact, retry_async.
    rewrite retry_loop_first_not_transient; rewrite Hrun; reflexivity.
  - intros e Hq He.
    assert (Hrun : create_artifact task_context path target_path content_type
                     content_encoding "s3" None w = (Raise e, w1)).
    { unfold create_artifact, bind. now rewrite Hq. }
    unfold retry_create_artifact, retry_async.
    rewrite retry_loop_first_not_transient; rewrite Hrun; [reflexivity | exact He].
Qed.

(** X12. A PUT that runs into the upload timeout is not retried:
    [asyncio.TimeoutError] is not among the exceptions
    [retry_create_artifact] retries. *)
Theorem upload_timeout_is_not_retried (path target_path content_type : string)
    (content_encoding : option string) (w w1 w2 w3 : world)
    (url : string) (data : list byte) :
  createArtifact (queue task_context)
    (get_task_id (claim_task task_context)) (get_run_id (claim_task task_context))
    target_path
    {| storageType := "s3";
       payload_expires := get_expiration_arrow task_context;
       contentType := content_type |}
    (log_io (EvCreateArtifact target_path) w) = (Ok url, w1) ->
  read_bytes path w1 = (Ok data, w2) ->
  put (session task_context) url data
    (_craft_artifact_put_headers content_type content_encoding)
    (log_io (EvPut url) w2) = (Raise TimeoutError, w3) ->
  retry_create_artifact task_context path target_path content_type content_encoding w
  = (Raise TimeoutError, w3).
Proof.
  intros Hq Hr Hp.
  assert (Hrun : create_artifact task_context path target_path content_type
                   content_encoding "s3" None w = (Raise TimeoutError, w3)).
  { unfold create_artifact, bind. now rewrite Hq, Hr, Hp. }
  unfold retry_create_artifact, retry_async.
  rewrite retry_loop_first_not_transient; rewrite Hrun; reflexivity.
Qed.

Lemma retry_loop_always_failing {A} (e : exn) (ev : io_event) (retry : exn -> bool)
    (n : nat) (w : world) :
  retry e = true ->
  retry_loop (fun w0 => (@Raise A e, log_io ev w0)) retry n w
  = (Raise e, {| fs := fs w; trace := trace w ++ repeat ev (S n) |}).
Proof.
  intros He. revert w. induction n as [|n IH]; intros w.
  - cbn [retry_loop]. rewrite He. reflexivity.
  - cbn [retry_loop]. rewrite He, IH. unfold log_io. cbn [fs trace].
    rewrite <- app_assoc. reflexivity.
Qed.

(** X13. A download, unlike an upload, is retried on a timeout: a download
    function that always times out is called once and then again until
    the attempt limit, and the timeout is raised. A download that fails
    with an exception that is not transient is called once. *)
Theorem download_retries_timeouts_only (download_func : string -> string -> M unit)
    (url dest : string) (w : world) :
  ((forall w0, download_func url dest w0 = (Raise TimeoutError, w0)) ->
     download_task download_func (url, dest) w
     = (Raise TimeoutError,
        {| fs := fs w;
           trace := trace w ++ repeat (EvDownload url dest) (S (retry_attempts - 1)) |}))
  /\ (forall e w1,
         download_func url dest (log_io (EvDownload url dest) w) = (Raise e, w1) ->
         is_download_retry_exception e = false ->
         download_task download_func (url, dest) w = (Raise e, w1)).
Proof.
  unfold download_task, retry_async. cbn [fst snd]. split.
  - intros Hfail.
    rewrite <- (retry_loop_always_failing TimeoutError (EvDownload url dest)
                  is_download_retry_exception (retry_attempts - 1) w eq_refl).
    revert w. induction (retry_attempts - 1) as [|n IH]; intros w;
      cbn [retry_loop]; rewrite Hfail; cbn [is_download_retry_exception];
      [reflexivity | apply IH].
  - intros e w1 Hrun He.
    rewrite retry_loop_first_not_transient; rewrite Hrun; [reflexivity | exact He].
Qed.

End MoreTransfers.

(** ** Classification failures and what an upload carries *)

Section MoreUploads.
Context `{Platform}.
Import Utils TaskHelpers Artifacts Events BatchSpec.

Variable task_context : TaskContext.

Local Abbreviation local_path := (fun target_path =>
  PosixPath.join (artifact_dir task_context) [target_path]).

Lemma compress_file_effects (path : string) (w : world) (content : list byte) :
  fs w !! path = Some (File content) ->
  exists ce w' l,
    compress_artifact_if_supported path w = (Ok ce, w')
    /\ fst ce = fst (guess_content_type_and_encoding path)
    /\ trace w' = trace w ++ l /\ quiet l = true
    /\ fs w' !! path = Some (File (content_after_classification path content))
    /\ (forall p, p <> path -> fs w' !! p = fs w !! p).
Proof.
  intros Hb. unfold content_after_classification.
  destruct (gzip_eligible (fst (guess_content_type_and_encoding path))
                          (snd (guess_content_type_and_encoding path))) eqn:Hel.
  - eexists _, _, [EvRead path; EvGzipWrite path].
    split; [exact (compress_eligible path w content Hb Hel)|]. cbn [fs trace fst].
    split; [reflexivity|]. split; [reflexivity|]. split; [reflexivity|]. split.
    + apply lookup_insert_eq.
    + intros p Hp. now apply lookup_insert_ne.
  - eexists _, _, []. split; [exact (compress_not_eligible path w Hel)|].
    rewrite app_nil_r. auto.
Qed.

Lemma map_M_raise_at {A B} (f : A -> M B) (pre post : list A) (x : A)
    (w w1 w2 : world) (ys : list B) (e : exn) :
  map_M f pre w = (Ok ys, w1) ->
  f x w1 = (Raise e, w2) ->
  map_M f (pre ++ x :: post) w = (Raise e, w2).
Proof.
  revert w ys. induction pre as [|a pre IH]; intros w ys Hpre Hx.
  - cbn in Hpre. injection Hpre as <- <-. cbn [app]. now rewrite map_M_cons, Hx.
  - rewrite map_M_cons in Hpre. cbn [app]. rewrite map_M_cons.
    destruct (f a w) as [[y|e'] wa]; [|discriminate].
    destruct (map_M f pre wa) as [[ys'|e'] wb] eqn:Hrest; [|discriminate].
    injection Hpre as _ <-. now rewrite (IH wa ys' Hrest Hx).
Qed.

(** Classifying files that are all there: one upload is created per file
    and none is run; each file is left compressed or as it was, and no
    other path of the disk changes. *)
Lemma classification_effects (files : list string) (w : world) :
  NoDup (map local_path files) ->
  (forall f, In f files -> regular_file w (local_path f)) ->
  exists tasks w1 l,
    map_M (to_upload_future task_context) files w = (Ok tasks, w1)
    /\ Forall2 (upload_of task_context) files tasks
    /\ trace w1 = trace w ++ l /\ quiet l = true
    /\ (forall f content,
           In f files -> fs w !! local_path f = Some (File content) ->
           fs w1 !! local_path f
           = Some (File (content_after_classification (local_path f) content)))
    /\ (forall p, ~ In p (map local_path files) -> fs w1 !! p = fs w !! p).
Proof.
  revert w. induction files as [|f files IH]; intros w Hnd Hall.
  - exists [], w, []. rewrite app_nil_r.
    split; [reflexivity|]. split; [constructor|]. split; [reflexivity|].
    split; [reflexivity|]. split; [intros ? ? []|reflexivity].
  - cbn [map] in Hnd. apply NoDup_cons in Hnd as [Hfresh Hnd].
    destruct (Hall f (or_introl eq_refl)) as [b Hb].
    destruct (compress_file_effects _ w b Hb)
      as (ce & w' & l1 & Hc & Hct & Ht1 & Hq1 & Hmine & Hothers).
    assert (Hrest : forall g, In g files -> fs w' !! local_path g = fs w !! local_path g).
    { intros g Hg. apply Hothers. intros Heq. apply Hfresh.
      apply list_elem_of_In. rewrite <- Heq. now apply (in_map local_path). }
    destruct (IH w' Hnd) as (ts & w1 & l2 & Hts & Hup & Ht2 & Hq2 & Hin & Hout).
    { intros g Hg. destruct (Hall g (or_intror Hg)) as [c Hc']. exists c.
      now rewrite Hrest. }
    eexists _, w1, (l1 ++ l2).
    split; [now rewrite map_M_cons, to_upload_future_run, Hc, Hts|].
    split; [constructor; [exists (snd ce); now rewrite Hct | exact Hup]|].
    split; [now rewrite Ht2, Ht1, app_assoc|].
    split; [unfold quiet in *; now rewrite forallb_app, Hq1, Hq2|].
    split.
    + intros g content [<- | Hg] Hcontent.
      * rewrite Hout by (intros Hi; apply Hfresh; now apply list_elem_of_In).
        rewrite Hmine. congruence.
      * apply Hin; [exact Hg|]. now rewrite Hrest.
    + intros p Hp. cbn [map In] in Hp.
      rewrite Hout by tauto. apply Hothers. intros ->. tauto.
Qed.

(** X14. If a file of the list is missing and has a compressible type,
    [upload_artifacts] raises [FileNotFoundError] for it while it is still
    classifying. The files before it (all present, listed once each) have
    been classified: each is left compressed in place if its type is
    compressible and as it was if not, and no other path of the disk has
    changed. An upload has been created for each of them, but none has run
    when the call raises: up to that point nothing has been declared to
    the queue or sent. *)
Theorem upload_stops_at_missing_file (pre post : list string) (f : string) (w : world) :
  let path := PosixPath.join (artifact_dir task_context) [f] in
  let run := upload_artifacts task_context (pre ++ f :: post) w in
  NoDup (map local_path pre) ->
  (forall g, In g pre -> regular_file w (local_path g)) ->
  fs w !! path = None ->
  gzip_eligible (fst (guess_content_type_and_encoding path))
                (snd (guess_content_type_and_encoding path)) = true ->
  fst run = Raise (FileNotFoundError path)
  /\ (exists l, trace (snd run) = trace w ++ l
                /\ forallb (fun e => negb (is_network_event e)) l = true)
  /\ (forall g content,
         In g pre -> fs w !! local_path g = Some (File content) ->
         fs (snd run) !! local_path g
         = Some (File (content_after_classification (local_path g) content)))
  /\ (forall p, ~ In p (map local_path pre) -> fs (snd run) !! p = fs w !! p)
  /\ (exists tasks w1,
         map_M (to_upload_future task_context) pre w = (Ok tasks, w1)
         /\ Forall2 (upload_of task_context) pre tasks
         /\ fs w1 = fs (snd run)).
Proof.
  intros path run Hnd Hpre Hmiss Hel.
  destruct (classification_effects pre w Hnd Hpre)
    as (ts & w1 & l & Hts & Hup & Ht & Hq & Hin & Hout).
  assert (Hfresh : ~ In path (map local_path pre)).
  { intros Hi. apply in_map_iff in Hi as (g & Hg & Hi).
    destruct (Hpre g Hi) as [c Hc]. rewrite Hg in Hc. congruence. }
  assert (Hf : to_upload_future task_context f w1
               = (Raise (FileNotFoundError path), log_io (EvRead path) w1)).
  { rewrite to_upload_future_run. fold path.
    unfold compress_artifact_if_supported.
    destruct (guess_content_type_and_encoding path) as [ct enc]. cbn [fst snd] in Hel.
    rewrite Hel. unfold bind, read_bytes. now rewrite (Hout path Hfresh), Hmiss. }
  subst run. unfold upload_artifacts, bind.
  rewrite (map_M_raise_at _ pre post f w w1 _ ts _ Hts Hf). cbn [fst snd].
  split; [reflexivity|]. unfold log_io. cbn [trace fs]. split.
  { exists (l ++ [EvRead path]). split; [now rewrite Ht, app_assoc|].
    unfold quiet in Hq. now rewrite forallb_app, Hq. }
  split; [exact Hin|]. split; [exact Hout|].
  exists ts, w1. auto.
Qed.

(** X15. What is sent for a compressible file is its compressed content:
    scheduling the upload replaces the file by its gzip compression, and
    an attempt then PUTs those bytes to the URL the queue handed out, with
    the headers [Content-Type] (the guessed type) and
    [Content-Encoding: gzip]. *)
Theorem compressed_upload_sends_gzip (target_path : string) (w : world) (b : list byte) :
  let path := PosixPath.join (artifact_dir task_context) [target_path] in
  let content_type := fst (guess_content_type_and_encoding path) in
  fs w !! path = Some (File b) ->
  gzip_eligible content_type (snd (guess_content_type_and_encoding path)) = true ->
  exists w1,
    to_upload_future task_context target_path w
    = (Ok (retry_create_artifact task_context path target_path content_type
             (Some "gzip")), w1)
    /\ fs w1 !! path = Some (File (gzip_compress b))
    /\ forall url w2 status w3,
         createArtifact (queue task_context)
           (get_task_id (claim_task task_context)) (get_run_id (claim_task task_context))
           target_path
           {| storageType := "s3";
              payload_expires := get_expiration_arrow task_context;
              contentType := content_type |}
           (log_io (EvCreateArtifact target_path) w1) = (Ok url, w2) ->
         fs w2 !! path = Some (File (gzip_compress b)) ->
         put (session task_context) url (gzip_compress b)
           [("Content-Type", content_type); ("Content-Encoding", "gzip")]
           (log_io (EvPut url) (log_io (EvRead path) w2)) = (Ok status, w3) ->
         create_artifact task_context path target_path content_type (Some "gzip")
           "s3" None w1
         = (if bool_decide (status ∈ [200; 204]) then Ok tt
            else Raise (ScriptWorkerRetryException ("Bad status " +:+ str_of_nat status)),
            w3).
Proof.
  intros path content_type Hf Hel.
  eexists. split; [|split].
  - rewrite to_upload_future_run. fold path.
    rewrite (compress_eligible path w b Hf Hel). reflexivity.
  - cbn [fs]. apply lookup_insert_eq.
  - intros url w2 status w3 Hq Hf2 Hp.
    apply (create_artifact_status task_context path target_path content_type
             (Some "gzip") _ w2 (log_io (EvRead path) w2) w3 url (gzip_compress b) status
             Hq); [|exact Hp].
    unfold read_bytes. now rewrite Hf2.
Qed.

End MoreUploads.

(** ** Optional marking, defaults, artifact URLs *)

Section MoreEdges.
Context `{Platform}.
Import PyStr Utils Artifacts UpstreamSpec BatchSpec ArtifactUrl.

Variable task_context : TaskContext.

Lemma marked_optional_iff (upstream : list artifact_definition) (task_id path : string) :
  marked_optional upstream (task_id, path) = true <->
  exists d, In d upstream /\ optional d = Some (PyBool true)
            /\ taskId d = task_id /\ In path (paths d).
Proof.
  unfold marked_optional, optional_definitions. cbn [fst snd].
  rewrite existsb_exists. split.
  - intros (d & Hin & Hp). apply filter_In in Hin as [Hin Hd].
    apply andb_true_iff in Hd as [Ho Ht]. apply String.eqb_eq in Ht.
    apply bool_decide_eq_true in Hp. apply list_elem_of_In in Hp.
    exists d. repeat split; try assumption.
    unfold optional_is_True in Ho. destruct (optional d) as [[|[]| |]|]; congruence.
  - intros (d & Hin & Ho & Ht & Hp). exists d. split.
    + apply filter_In. split; [exact Hin|]. unfold optional_is_True. rewrite Ho.
      cbn [andb]. now apply String.eqb_eq.
    + apply bool_decide_eq_true. now apply list_elem_of_In.
Qed.

(** X16. Whether a missing file is tolerated is decided per task id and
    path, not per definition: the loop records a missing file as failed,
    instead of raising, exactly when some definition of that task id
    lists the path and has [optional] set to the boolean [True] (the pair
    itself may come from a definition that is not optional; a value such
    as [1] or ["true"] does not count). *)
Theorem optional_is_per_task_and_path (task_id path : string) (acc : resolution)
    (w : world) :
  present task_context w (task_id, path) = false ->
  let upstream := upstreamArtifacts (task task_context) in
  let step :=
    resolve_path task_context (get_optional_artifacts_per_task_id upstream)
      task_id path acc w in
  (is_ok (fst step) = true <->
   exists d, In d upstream /\ optional d = Some (PyBool true)
             /\ taskId d = task_id /\ In path (paths d))
  /\ (is_ok (fst step) = true ->
      fst step = Ok (fst acc, add_enumerable_item_to_dict (snd acc) task_id (Item path))).
Proof.
  intros Hmiss upstream step.
  pose proof (resolve_pair_run task_context (get_optional_artifacts_per_task_id upstream)
                (task_id, path) acc w) as Hrun.
  unfold resolve_pair in Hrun. cbn [fst snd] in Hrun. cbn zeta in Hrun.
  rewrite Hmiss in Hrun.
  pose proof (optional_test upstream (task_id, path)) as Htest. cbn [fst snd] in Htest.
  rewrite Htest in Hrun. subst step. rewrite Hrun.
  rewrite <- marked_optional_iff.
  destruct (marked_optional upstream (task_id, path)); cbn [fst is_ok].
  - split; [tauto | reflexivity].
  - split; [split; discriminate | discriminate].
Qed.

(** X17. An empty allow-list and an empty destination directory do not
    mean "none": [download_artifacts] treats them as not given, so an
    explicitly empty list of valid task ids allows the task's
    dependencies and its decision task, as [None] does. *)
Theorem download_defaults_replace_empty_arguments (file_urls : list string)
    (download_func : string -> string -> M unit) (w : world) :
  download_artifacts task_context file_urls (Some "") download_func (Some []) w
  = download_artifacts task_context file_urls None download_func None w
  /\ effective_task_ids task_context (Some [])
     = dependencies (task task_context)
         ++ [TaskHelpers.get_decision_task_id (task task_context)]
  /\ effective_parent_dir task_context (Some "") = work_dir task_context.
Proof. repeat split; reflexivity. Qed.

Lemma prefix_inv (p s : string) :
  String.prefix p s = true -> exists rest, s = p +:+ rest.
Proof.
  revert s. induction p as [|c p IH]; intros s Hp.
  - now exists s.
  - destruct s as [|d s]; [discriminate|]. rewrite prefix_cons in Hp.
    destruct (ascii_dec c d) as [<- | Hne]; [|discriminate].
    destruct (IH s Hp) as [rest ->]. now exists rest.
Qed.

(** X18. [get_artifact_url] asks for an unsigned URL exactly for the paths
    of the form [public/<rest>]; every other path, such as [public] alone
    or [/public/x], gets a signed URL. *)
Theorem get_artifact_url_signs_all_but_public (q : url_builder) (task_id path : string) :
  (get_artifact_url q task_id path = buildUrl q "getLatestArtifact" task_id path
   /\ exists rest, path = "public/" +:+ rest)
  \/ (get_artifact_url q task_id path = buildSignedUrl q "getLatestArtifact" task_id path
      /\ forall rest, path <> "public/" +:+ rest).
Proof.
  unfold get_artifact_url, startswith.
  destruct (String.prefix "public/" path) eqn:Hp.
  - left. split; [reflexivity | now apply prefix_inv].
  - right. split; [reflexivity|]. intros rest ->. now rewrite prefix_app in Hp.
Qed.

End MoreEdges.

(** * Further examples on the concrete platform *)

Lemma guess_table_hit_ignores_platform_witness :
  In (".log", ("text/plain", None)) Artifacts._EXTENSION_TO_MIME_TYPE
  /\ PyStr.endswith "logs/run.log" ".log" = true
  /\ @Artifacts.guess_content_type_and_encoding Demo.platform "logs/run.log"
     = @Artifacts.guess_content_type_and_encoding MoreDemo.contrary_platform "logs/run.log"
  /\ snd (@Artifacts.guess_content_type_and_encoding Demo.platform "logs/run.log") = None.
Proof.
  assert (Hin : In (".log", ("text/plain", None)) Artifacts._EXTENSION_TO_MIME_TYPE)
    by (do 4 right; left; reflexivity).
  split; [exact Hin|]. split; [reflexivity|].
  destruct (guess_table_hit_ignores_platform Demo.platform MoreDemo.contrary_platform
              "logs/run.log" ".log" ("text/plain", None) Hin eq_refl) as (Heq & Hnone & _).
  split; assumption.
Defined.

Lemma guess_text_extensions_witness :
  In ".diff" [".txt"; ".log"; ".asc"; ".diff"]
  /\ PyStr.endswith "fix.diff" ".diff" = true
  /\ @Artifacts.guess_content_type_and_encoding MoreDemo.contrary_platform "fix.diff"
     = ("text/plain", None).
Proof.
  assert (Hin : In ".diff" [".txt"; ".log"; ".asc"; ".diff"])
    by (do 3 right; left; reflexivity).
  split; [exact Hin|]. split; [reflexivity|].
  exact (proj1 (guess_text_extensions MoreDemo.contrary_platform "fix.diff" ".diff"
                  Hin eq_refl)).
Defined.

Lemma compress_only_touches_its_file_witness :
  "/w/artifacts/public/build.tar.gz" <> "/w/artifacts/public/out.json"
  /\ fs (snd (@Artifacts.compress_artifact_if_supported Demo.platform
                "/w/artifacts/public/out.json" Demo.the_world))
       !! "/w/artifacts/public/build.tar.gz"
     = Some (File [x00])
  /\ fs Demo.the_world !! "/w/artifacts/public/missing.json" = None
  /\ fs (snd (@Artifacts.compress_artifact_if_supported Demo.platform
                "/w/artifacts/public/missing.json" Demo.the_world))
     = fs Demo.the_world.
Proof.
  assert (Hne : "/w/artifacts/public/build.tar.gz" <> "/w/artifacts/public/out.json")
    by discriminate.
  assert (Hmiss : fs Demo.the_world !! "/w/artifacts/public/missing.json" = None)
    by (vm_compute; reflexivity).
  split; [exact Hne|]. split; [|split; [exact Hmiss|]].
  - rewrite (proj1 (@compress_only_touches_its_file Demo.platform
                      "/w/artifacts/public/out.json" Demo.the_world) _ Hne).
    vm_compute. reflexivity.
  - exact (proj2 (@compress_only_touches_its_file Demo.platform
                    "/w/artifacts/public/missing.json" Demo.the_world) Hmiss).
Defined.

Lemma compress_missing_or_directory_witness :
  @Artifacts.compress_artifact_if_supported Demo.platform
    "/w/artifacts/public/missing.json" Demo.the_world
  = (Raise (FileNotFoundError "/w/artifacts/public/missing.json"),
     log_io (EvRead "/w/artifacts/public/missing.json") Demo.the_world)
  /\ @Artifacts.compress_artifact_if_supported Demo.platform
       "/w/artifacts/public/logs.txt" MoreDemo.world_with_dir
     = (Raise (IsADirectoryError "/w/artifacts/public/logs.txt"),
        log_io (EvRead "/w/artifacts/public/logs.txt") MoreDemo.world_with_dir)
  /\ @Artifacts.compress_artifact_if_supported Demo.platform
       "/w/artifacts/public/missing.bin" Demo.the_world
     = (Ok ("application/binary", None), Demo.the_world).
Proof.
  split; [|split].
  - apply (proj1 (@compress_missing_or_directory Demo.platform
                    "/w/artifacts/public/missing.json" Demo.the_world));
      [reflexivity | vm_compute; reflexivity].
  - apply (proj1 (@compress_missing_or_directory Demo.platform
                    "/w/artifacts/public/logs.txt" MoreDemo.world_with_dir));
      [reflexivity | vm_compute; reflexivity].
  - apply (proj2 (@compress_missing_or_directory Demo.platform
                    "/w/artifacts/public/missing.bin" Demo.the_world)).
    reflexivity.
Defined.

Lemma compress_twice_compresses_twice_witness :
  fs Demo.the_world !! "/w/artifacts/public/out.json" = Some (File [x7b; x7d])
  /\ fs (snd (@Artifacts.compress_artifact_if_supported Demo.platform
                "/w/artifacts/public/out.json"
                (snd (@Artifacts.compress_artifact_if_supported Demo.platform
                        "/w/artifacts/public/out.json" Demo.the_world))))
     = <["/w/artifacts/public/out.json" := File [x1f; x8b; x1f; x8b; x7b; x7d]]>
         (fs Demo.the_world).
Proof.
  assert (Hf : fs Demo.the_world !! "/w/artifacts/public/out.json"
               = Some (File [x7b; x7d])) by (vm_compute; reflexivity).
  split; [exact Hf|].
  exact (proj2 (@compress_twice_compresses_twice Demo.platform
                  "/w/artifacts/public/out.json" Demo.the_world _ Hf eq_refl)).
Defined.

Lemma absolute_path_discards_the_root_witness :
  PosixPath.isabs "/etc/../etc/passwd" = true
  /\ @Artifacts.get_single_upstream_artifact_full_path Demo.platform (Demo.context 0)
       "T1" "/etc/../etc/passwd" = "/etc/passwd".
Proof.
  split; [reflexivity|].
  rewrite (absolute_path_discards_the_root Demo.platform (Demo.context 0) "T1"
             "/etc/../etc/passwd" eq_refl).
  reflexivity.
Defined.

Lemma absolute_work_dir_ignores_cwd_witness :
  PosixPath.isabs (work_dir (Demo.context 0)) = true
  /\ @Artifacts.get_single_upstream_artifact_full_path Demo.platform (Demo.context 0)
       "T1" "public/a.txt"
     = @Artifacts.get_single_upstream_artifact_full_path
         (MoreDemo.platform_in "/home/worker") (Demo.context 0) "T1" "public/a.txt".
Proof.
  split; [reflexivity|].
  exact (proj1 (absolute_work_dir_ignores_cwd Demo.platform
                  (MoreDemo.platform_in "/home/worker") (Demo.context 0)
                  "T1" "public/a.txt" eq_refl)).
Defined.

Lemma resolution_maps_are_sound_witness :
  exists existing failed w',
    @Artifacts.get_upstream_artifacts_full_paths_per_task_id Demo.platform
      (Demo.context 0) Demo.the_world = (Ok (existing, failed), w')
    /\ (forall full fulls,
           existing !! "T1" = Some fulls -> In full fulls ->
           is_Some (fs Demo.the_world !! full))
    /\ (forall path paths,
           failed !! "T2" = Some paths -> In path paths ->
           UpstreamSpec.marked_optional Demo.the_task.(upstreamArtifacts) ("T2", path)
           = true).
Proof.
  destruct (@Artifacts.get_upstream_artifacts_full_paths_per_task_id Demo.platform
              (Demo.context 0) Demo.the_world) as [[[existing failed]|e] w'] eqn:Hrun;
    [|vm_compute in Hrun; discriminate].
  exists existing, failed, w'. split; [reflexivity|].
  destruct (@resolution_maps_are_sound Demo.platform (Demo.context 0) Demo.the_world w'
              existing failed Hrun) as [Hex Hfail].
  split.
  - intros full fulls Hl Hin. exact (proj1 (Hex "T1" full fulls Hl Hin)).
  - intros path paths Hl Hin. exact (proj2 (proj2 (Hfail "T2" path paths Hl Hin))).
Defined.

Lemma upload_fails_fast_witness :
  fs Demo.the_world !! "/w/artifacts/public/missing.json" = None
  /\ @Artifacts.retry_create_artifact Demo.platform (Demo.context 0)
       "/w/artifacts/public/missing.json" "public/missing.json" "application/json" None
       Demo.the_world
     = (Raise (FileNotFoundError "/w/artifacts/public/missing.json"),
        {| fs := fs Demo.the_world;
           trace := [EvCreateArtifact "public/missing.json";
                     EvRead "/w/artifacts/public/missing.json"] |}).
Proof.
  assert (Hmiss : fs Demo.the_world !! "/w/artifacts/public/missing.json" = None)
    by (vm_compute; reflexivity).
  split; [exact Hmiss|].
  exact (proj1 (@upload_fails_fast Demo.platform (Demo.context 0)
                  "/w/artifacts/public/missing.json" "public/missing.json"
                  "application/json" None Demo.the_world
                  (log_io (EvCreateArtifact "public/missing.json") Demo.the_world))
               "https://put/public/missing.json" eq_refl Hmiss).
Defined.

Lemma upload_timeout_is_not_retried_witness :
  @retry_attempts Demo.platform = 5
  /\ @Artifacts.retry_create_artifact Demo.platform
       (MoreDemo.context_with MoreDemo.timeout_session)
       "/w/artifacts/public/out.json" "public/out.json" "application/json" None
       Demo.the_world
     = (Raise TimeoutError,
        {| fs := fs Demo.the_world;
           trace := [EvCreateArtifact "public/out.json";
                     EvRead "/w/artifacts/public/out.json";
                     EvPut "https://put/public/out.json"] |}).
Proof.
  split; [reflexivity|].
  apply (@upload_timeout_is_not_retried Demo.platform
           (MoreDemo.context_with MoreDemo.timeout_session)
           "/w/artifacts/public/out.json" "public/out.json" "application/json" None
           Demo.the_world
           (log_io (EvCreateArtifact "public/out.json") Demo.the_world)
           (log_io (EvRead "/w/artifacts/public/out.json")
              (log_io (EvCreateArtifact "public/out.json") Demo.the_world))
           _ "https://put/public/out.json" [x7b; x7d]);
    vm_compute; reflexivity.
Defined.

Lemma download_retries_timeouts_only_witness :
  (forall w0, Demo.download_timeout "A:public/x.txt" "/w/public/x.txt" w0
              = (Raise TimeoutError, w0))
  /\ @Artifacts.download_task Demo.platform Demo.download_timeout
       ("A:public/x.txt", "/w/public/x.txt") Demo.the_world
     = (Raise TimeoutError,
        {| fs := fs Demo.the_world;
           trace := repeat (EvDownload "A:public/x.txt" "/w/public/x.txt") 5 |}).
Proof.
  assert (Hfail : forall w0, Demo.download_timeout "A:public/x.txt" "/w/public/x.txt" w0
                             = (Raise TimeoutError, w0)) by reflexivity.
  split; [exact Hfail|].
  exact (proj1 (@download_retries_timeouts_only Demo.platform Demo.download_timeout
                  "A:public/x.txt" "/w/public/x.txt" Demo.the_world) Hfail).
Defined.

Lemma resolution_only_reads_witness :
  (* b.txt of T1 is required and missing: the two later pairs are not checked *)
  trace (snd (@Artifacts.get_upstream_artifacts_full_paths_per_task_id Demo.platform
                (Demo.context 0) Demo.world_without_b))
  = [EvExists "/w/cot/T1/a.txt"; EvExists "/w/cot/T1/b.txt"]
  (* only optional files are missing: all four pairs are checked *)
  /\ trace (snd (@Artifacts.get_upstream_artifacts_full_paths_per_task_id Demo.platform
                   (Demo.context 0) Demo.the_world))
     = [EvExists "/w/cot/T1/a.txt"; EvExists "/w/cot/T1/b.txt";
        EvExists "/w/cot/T2/c.txt"; EvExists "/w/cot/T1/d.txt"].
Proof.
  split.
  - destruct (@resolution_only_reads Demo.platform (Demo.context 0) Demo.world_without_b)
      as (_ & Htrace & _).
    rewrite Htrace. vm_compute. reflexivity.
  - destruct (@resolution_only_reads Demo.platform (Demo.context 0) Demo.the_world)
      as (_ & Htrace & _).
    rewrite Htrace. vm_compute. reflexivity.
Defined.

Lemma upload_stops_at_missing_file_witness :
  NoDup (map (fun g => PosixPath.join "/w/artifacts" [g])
             ["public/out.json"; "public/build.tar.gz"])
  /\ (forall g, In g ["public/out.json"; "public/build.tar.gz"] ->
                BatchSpec.regular_file Demo.the_world (PosixPath.join "/w/artifacts" [g]))
  /\ fs Demo.the_world !! "/w/artifacts/public/missing.json" = None
  /\ @Artifacts.upload_artifacts Demo.platform (Demo.context 0)
       ["public/out.json"; "public/build.tar.gz"; "public/missing.json"] Demo.the_world
     = (Raise (FileNotFoundError "/w/artifacts/public/missing.json"),
        {| fs := <["/w/artifacts/public/out.json" := File [x1f; x8b; x7b; x7d]]>
                   (fs Demo.the_world);
           trace := [EvRead "/w/artifacts/public/out.json";
                     EvGzipWrite "/w/artifacts/public/out.json";
                     EvRead "/w/artifacts/public/missing.json"] |})
  /\ @BatchSpec.content_after_classification Demo.platform
       "/w/artifacts/public/out.json" [x7b; x7d] = [x1f; x8b; x7b; x7d]
  /\ @BatchSpec.content_after_classification Demo.platform
       "/w/artifacts/public/build.tar.gz" [x00] = [x00].
Proof.
  assert (Hnd : NoDup (map (fun g => PosixPath.join "/w/artifacts" [g])
                           ["public/out.json"; "public/build.tar.gz"])).
  { vm_compute. apply NoDup_cons. split; [|apply NoDup_singleton].
    intros Hin. apply list_elem_of_In in Hin as [Heq | []]. discriminate. }
  assert (Hpre : forall g, In g ["public/out.json"; "public/build.tar.gz"] ->
            BatchSpec.regular_file Demo.the_world (PosixPath.join "/w/artifacts" [g])).
  { intros g [<- | [<- | []]]; eexists; vm_compute; reflexivity. }
  assert (Hmiss : fs Demo.the_world !! "/w/artifacts/public/missing.json" = None)
    by (vm_compute; reflexivity).
  split; [exact Hnd|]. split; [exact Hpre|]. split; [exact Hmiss|].
  destruct (@upload_stops_at_missing_file Demo.platform (Demo.context 0)
              ["public/out.json"; "public/build.tar.gz"] [] "public/missing.json"
              Demo.the_world Hnd Hpre Hmiss eq_refl) as (Hraise & _).
  split; [|split; reflexivity].
  destruct (@Artifacts.upload_artifacts Demo.platform (Demo.context 0) _ Demo.the_world)
    as [r w'] eqn:Hrun.
  cbn [fst app] in Hraise. subst r. vm_compute in Hrun. injection Hrun as <-.
  vm_compute. reflexivity.
Defined.

Lemma compressed_upload_sends_gzip_witness :
  fs Demo.the_world !! "/w/artifacts/public/out.json" = Some (File [x7b; x7d])
  /\ exists w1,
       @Artifacts.to_upload_future Demo.platform (Demo.context 0) "public/out.json"
         Demo.the_world
       = (Ok (@Artifacts.retry_create_artifact Demo.platform (Demo.context 0)
                "/w/artifacts/public/out.json" "public/out.json" "application/json"
                (Some "gzip")), w1)
       /\ fs w1 !! "/w/artifacts/public/out.json" = Some (File [x1f; x8b; x7b; x7d])
       /\ fst (Artifacts.create_artifact (Demo.context 0) "/w/artifacts/public/out.json"
                 "public/out.json" "application/json" (Some "gzip") "s3" None w1)
          = Ok tt.
Proof.
  assert (Hf : fs Demo.the_world !! "/w/artifacts/public/out.json"
               = Some (File [x7b; x7d])) by (vm_compute; reflexivity).
  split; [exact Hf|].
  destruct (@compressed_upload_sends_gzip Demo.platform (Demo.context 0)
              "public/out.json" Demo.the_world _ Hf eq_refl) as (w1 & Hsched & Hfs & Hput).
  exists w1. split; [exact Hsched|]. split; [exact Hfs|].
  pose proof (f_equal snd Hsched) as Hw. cbn [snd] in Hw. vm_compute in Hw.
  subst w1. vm_compute. reflexivity.
Defined.

Lemma optional_is_per_task_and_path_witness :
  (* d.txt of T1 is missing; T1 has a required definition and an optional one *)
  UpstreamSpec.present (H := Demo.platform) (Demo.context 0) Demo.the_world ("T1", "d.txt")
  = false
  /\ is_ok (fst (@Artifacts.resolve_path Demo.platform (Demo.context 0)
                   (Artifacts.get_optional_artifacts_per_task_id
                      (upstreamArtifacts Demo.the_task))
                   "T1" "d.txt" (∅, ∅) Demo.the_world)) = true.
Proof.
  assert (Hmiss : UpstreamSpec.present (H := Demo.platform) (Demo.context 0)
                    Demo.the_world ("T1", "d.txt") = false) by (vm_compute; reflexivity).
  split; [exact Hmiss|].
  apply (proj1 (@optional_is_per_task_and_path Demo.platform (Demo.context 0)
                  "T1" "d.txt" (∅, ∅) Demo.the_world Hmiss)).
  exists {| taskId := "T1"; paths := ["d.txt"]; optional := Some (PyBool true) |}.
  split; [do 2 right; left; reflexivity|]. repeat split. left. reflexivity.
Defined.
